(** * Maze Game 3D: grid maze, player and raycaster

    A shallow embedding of [entities/maze.py], [entities/player.py],
    [graphics/raycaster.py], the movement strategies of
    [design_patterns/strategy_movement.py] and the movement step of
    [core/game.py].

    Numbers.  Python's [float] is read as a real number: [math.cos],
    [math.sin] and [math.pi] are the functions and the constant of analysis,
    [int(x)] truncates toward zero, and sums, products and quotients are
    exact.  The one place where the rounding of binary64 decides what the
    code stores is angle normalisation, so there it is modelled: [a % m] is
    the operator as CPython computes it, an exact [fmod] followed by an
    addition rounded to the nearest double ([round64]), and [turn] rounds
    its sum before taking the remainder; the sums of the frame update are
    exact.  Doubles too large to be finite, infinities, NaN and the sign of
    zero are outside the model.  Python's [int] is [Z].

    Failure.  The two exceptions the modelled code can raise are
    [ZeroDivisionError] (a true division by zero) and [IndexError] (a list
    subscript out of range); a computation that may raise returns an
    [outcome].

    State.  The raycaster, the game and the player share objects by
    reference; the record [World] is that object graph, and a method that
    assigns to a field returns the updated graph. *)

From Stdlib Require Import Reals Lra Lia ZArith List Bool String Permutation.
Import ListNotations.

Open Scope R_scope.

(* ================================================================== *)
(** ** The Python primitives the sources rely on *)
(* ================================================================== *)

Module Py.

Inductive exn : Set :=
| ZeroDivisionError
| IndexError.

Inductive outcome (A : Type) : Type :=
| Ok (a : A)
| Raise (e : exn).

Arguments Ok {A} a.
Arguments Raise {A} e.

Definition bind {A B : Type} (c : outcome A) (k : A -> outcome B) : outcome B :=
  match c with
  | Ok a => k a
  | Raise e => Raise e
  end.

(** [int(x)] on a float: truncation toward zero. *)
Definition int (x : R) : Z :=
  if Rle_dec 0 x then Int_part x else (- Int_part (- x))%Z.

(** *** Binary64 *)

(** [2 ** e]. *)
Definition pow2 (e : Z) : R := powerRZ 2 e.

(** The binary magnitude of a non-zero [x]: the [n] with
    [2 ** (n - 1) <= |x| < 2 ** n]. *)
Definition mag (x : R) : Z := (Int_part (ln (Rabs x) / ln 2) + 1)%Z.

(** The nearest integer, a tie going to the even one. *)
Definition nearest_even (x : R) : Z :=
  let f := Int_part x in
  if Rlt_dec (x - IZR f) (1 / 2) then f
  else if Rlt_dec (1 / 2) (x - IZR f) then (f + 1)%Z
  else if Z.even f then f else (f + 1)%Z.

(** The exponent of the last place of the double nearest to [x]: a double
    has 53 significant bits and no place below [2 ** -1074]. *)
Definition last_place (x : R) : Z := Z.max (mag x - 53) (-1074).

(** The double nearest to [x], ties to the even significand: the rounding
    that every inexact float operation applies to its exact result. *)
Definition round64 (x : R) : R :=
  if Req_dec_T x 0 then 0
  else IZR (nearest_even (x * pow2 (- last_place x))) * pow2 (last_place x).

(** [a + b] on floats, rounded. *)
Definition float_add (a b : R) : R := round64 (a + b).

(** C's [fmod(a, m)], for a non-zero [m]: [a - m * trunc(a / m)].  It has
    the sign of [a], and its result is a double, so nothing is rounded. *)
Definition fmod (a m : R) : R := a - m * IZR (int (a / m)).

(** [a < b] as a truth value. *)
Definition ltb (a b : R) : bool := if Rlt_dec a b then true else false.

(** [a % m] on floats, for a non-zero [m], as CPython's [float_rem] computes
    it: [mod = fmod(a, m)]; a non-zero [mod] whose sign differs from that of
    [m] becomes [mod + m], a rounded sum; a zero [mod] becomes a zero with
    the sign of [m]. *)
Definition mod_ (a m : R) : R :=
  let r := fmod a m in
  if Req_dec_T r 0 then 0
  else if negb (Bool.eqb (ltb m 0) (ltb r 0)) then round64 (r + m)
  else r.

(** [a / b], true division. *)
Definition truediv (a b : R) : outcome R :=
  if Req_dec_T b 0 then Raise ZeroDivisionError else Ok (a / b).

(** [math.radians]. *)
Definition radians (deg : R) : R := deg * PI / 180.

(** [range(n)]: [0, 1, ..., n-1], empty when [n <= 0]. *)
Definition range (n : Z) : list Z :=
  map Z.of_nat (seq 0 (Z.to_nat n)).

(** [len(l)]. *)
Definition len {A : Type} (l : list A) : Z := Z.of_nat (List.length l).

(** [l[i]]: a negative index counts from the end; out of range raises. *)
Definition getitem {A : Type} (l : list A) (i : Z) : outcome A :=
  let j := if (i <? 0)%Z then (len l + i)%Z else i in
  if (j <? 0)%Z then Raise IndexError
  else match nth_error l (Z.to_nat j) with
       | Some a => Ok a
       | None => Raise IndexError
       end.

(** [d.get(k, default)] on a dict from names to booleans. *)
Definition dict_get (d : string -> option bool) (k : string) (default : bool) : bool :=
  match d k with
  | Some b => b
  | None => default
  end.

End Py.

Import Py.

Notation "x <- c ;; k" := (Py.bind c (fun x => k))
  (at level 61, c at next level, right associativity).

(* ================================================================== *)
(** ** entities/maze.py *)
(* ================================================================== *)

Module Maze.

Record t : Type := mk {
  maze_data : list (list Z);
  width : Z;
  height : Z;
  spawn_x : R;
  spawn_y : R
}.

(** [Maze.__init__].  The tables [MAZE_DATA] and [SPAWN_POINTS] live in
    [data/maze_data.py]; the entries selected by the difficulty are
    passed in. *)
Definition init (data : list (list Z)) (spawn : R * R) : outcome t :=
  row0 <- getitem data 0 ;;
  Ok {| maze_data := data;
        width := len row0;
        height := len data;
        spawn_x := fst spawn;
        spawn_y := snd spawn |}.

(** The guard shared by [is_wall] and [is_exit]. *)
Definition out_of_bounds (self : t) (x y : Z) : bool :=
  (x <? 0)%Z || (y <? 0)%Z || (x >=? width self)%Z || (y >=? height self)%Z.

(** [self.maze_data[y][x]]. *)
Definition cell (self : t) (x y : Z) : outcome Z :=
  row <- getitem (maze_data self) y ;;
  getitem row x.

Definition is_wall (self : t) (x y : Z) : outcome bool :=
  if out_of_bounds self x y then Ok true
  else c <- cell self x y ;; Ok (c =? 1)%Z.

Definition is_exit (self : t) (x y : Z) : outcome bool :=
  if out_of_bounds self x y then Ok false
  else c <- cell self x y ;; Ok (c =? 9)%Z.

(** The grid invariant: [height] rows, each of [width] columns. *)
Definition rectangular (self : t) : Prop :=
  height self = len (maze_data self) /\
  Forall (fun row => len row = width self) (maze_data self).

End Maze.

(* ================================================================== *)
(** ** design_patterns/singleton_settings.py *)
(* ================================================================== *)

Module GameSettings.

(** The numeric attributes read by the player, the strategies and the
    raycaster. *)
Record t : Type := mk {
  FOV : R;
  NUM_RAYS : Z;
  MAX_DEPTH : R;
  PLAYER_SPEED : R;
  PLAYER_TURN_SPEED : R;
  PLAYER_RADIUS : R
}.

(** The values assigned by [GameSettings.__init__]. *)
Definition init : t :=
  {| FOV := 60; NUM_RAYS := 120; MAX_DEPTH := 15;
     PLAYER_SPEED := 3; PLAYER_TURN_SPEED := 120; PLAYER_RADIUS := 0.2 |}.

Definition set_quality (self : t) (num_rays : Z) (max_depth : R) : t :=
  {| FOV := FOV self; NUM_RAYS := num_rays; MAX_DEPTH := max_depth;
     PLAYER_SPEED := PLAYER_SPEED self;
     PLAYER_TURN_SPEED := PLAYER_TURN_SPEED self;
     PLAYER_RADIUS := PLAYER_RADIUS self |}.

Definition adapt_performance (self : t) (fps : R) : string * t :=
  if Rlt_dec fps 30 then ("reduced"%string, set_quality self 60 8)
  else if Rlt_dec 55 fps then ("increased"%string, set_quality self 150 20)
  else ("unchanged"%string, self).

End GameSettings.

(* ================================================================== *)
(** ** entities/player.py *)
(* ================================================================== *)

(** A key-state dictionary, as built by [InputHandler.get_movement_keys]. *)
Definition Keys : Type := string -> option bool.

Module Player.

Record t : Type := mk {
  x : R;
  y : R;
  angle : R
}.

Definition init (x0 y0 angle0 : R) : t :=
  {| x := x0; y := y0; angle := angle0 |}.

Definition with_x (self : t) (v : R) : t :=
  {| x := v; y := y self; angle := angle self |}.

Definition with_y (self : t) (v : R) : t :=
  {| x := x self; y := v; angle := angle self |}.

Definition with_angle (self : t) (v : R) : t :=
  {| x := x self; y := y self; angle := v |}.

(** The loop over the hitbox corners of [_can_move_to]. *)
Fixpoint corners_free (maze : Maze.t) (corners : list (R * R)) : outcome bool :=
  match corners with
  | [] => Ok true
  | (corner_x, corner_y) :: rest =>
      w <- Maze.is_wall maze (int corner_x) (int corner_y) ;;
      if w then Ok false else corners_free maze rest
  end.

(** [_can_move_to]; the method does not read [self]. *)
Definition _can_move_to (x0 y0 : R) (maze : Maze.t) (radius : R) : outcome bool :=
  let corners :=
    [ (x0 - radius, y0 - radius);
      (x0 + radius, y0 - radius);
      (x0 - radius, y0 + radius);
      (x0 + radius, y0 + radius) ] in
  corners_free maze corners.

(** The default value of [radius]. *)
Definition default_radius : R := 0.2.

Definition get_position (self : t) : R * R := (x self, y self).

Definition get_angle (self : t) : R := angle self.

Definition set_position (self : t) (x0 y0 : R) : t :=
  with_y (with_x self x0) y0.

Definition set_angle (self : t) (a : R) : t :=
  with_angle self (mod_ a 360).

Definition move_forward (self : t) (distance : R) : t :=
  let angle_rad := radians (angle self) in
  let self := with_x self (x self + distance * cos angle_rad) in
  with_y self (y self + distance * sin angle_rad).

Definition turn (self : t) (angle_change : R) : t :=
  with_angle self (mod_ (float_add (angle self) angle_change) 360).

Definition get_direction_vector (self : t) : R * R :=
  let angle_rad := radians (angle self) in
  (cos angle_rad, sin angle_rad).

Definition distance_to (self : t) (x0 y0 : R) : R :=
  let dx := x0 - x self in
  let dy := y0 - y self in
  sqrt (dx * dx + dy * dy).

(** The collision step written out in both [Player.update] and
    [Game.update]: [new_x] is tried against the current [y], then [new_y]
    against the [x] that results.  The player is returned as it stands
    when an exception leaves the step. *)
Definition try_move (self : t) (new_x new_y : R) (maze : Maze.t) (radius : R)
  : outcome unit * t :=
  match _can_move_to new_x (y self) maze radius with
  | Raise e => (Raise e, self)
  | Ok ok_x =>
      let self := if ok_x then with_x self new_x else self in
      match _can_move_to (x self) new_y maze radius with
      | Raise e => (Raise e, self)
      | Ok ok_y =>
          let self := if ok_y then with_y self new_y else self in
          (Ok tt, self)
      end
  end.

(** The first half of [Player.update]: the turn, then the displacement
    the pressed keys ask for.  The settings import succeeds in this
    repository, so the speeds are those of the settings object. *)
Definition update_intent (self : t) (keys : Keys) (settings : GameSettings.t)
    (dt : R) : t * R * R :=
  let player_speed := GameSettings.PLAYER_SPEED settings in
  let turn_speed := GameSettings.PLAYER_TURN_SPEED settings in
  let self := if dict_get keys "turn_left" false
              then with_angle self (angle self - turn_speed * dt) else self in
  let self := if dict_get keys "turn_right" false
              then with_angle self (angle self + turn_speed * dt) else self in
  let self := with_angle self (mod_ (angle self) 360) in
  let speed := player_speed * dt in
  let angle_rad := radians (angle self) in
  let cos_a := cos angle_rad in
  let sin_a := sin angle_rad in
  let '(dx, dy) := (0, 0) in
  let '(dx, dy) := if dict_get keys "forward" false
                   then (dx + speed * cos_a, dy + speed * sin_a) else (dx, dy) in
  let '(dx, dy) := if dict_get keys "backward" false
                   then (dx - speed * cos_a, dy - speed * sin_a) else (dx, dy) in
  let '(dx, dy) := if dict_get keys "strafe_left" false
                   then (dx - speed * sin_a, dy + speed * cos_a) else (dx, dy) in
  let '(dx, dy) := if dict_get keys "strafe_right" false
                   then (dx + speed * sin_a, dy - speed * cos_a) else (dx, dy) in
  (self, dx, dy).

(** [Player.update]: the intent, the collision step with the radius of
    the settings, then the exit check. *)
Definition update (self : t) (keys : Keys) (maze : Maze.t)
    (settings : GameSettings.t) (dt : R) : outcome bool * t :=
  let radius := GameSettings.PLAYER_RADIUS settings in
  let '(self, dx, dy) := update_intent self keys settings dt in
  let new_x := x self + dx in
  let new_y := y self + dy in
  match try_move self new_x new_y maze radius with
  | (Raise e, self) => (Raise e, self)
  | (Ok _, self) =>
      match Maze.is_exit maze (int (x self)) (int (y self)) with
      | Raise e => (Raise e, self)
      | Ok at_exit => (Ok at_exit, self)
      end
  end.

End Player.

(* ================================================================== *)
(** ** design_patterns/strategy_movement.py *)
(* ================================================================== *)

Module Movement.

(** The abstract class [MovementStrategy]: a strategy turns the keys, the
    player and the frame time into [(dx, dy, angle_change)]. *)
Class MovementStrategy : Type := {
  calculate_movement :
    Keys -> Player.t -> R -> GameSettings.t -> R * R * R;
  get_strategy_name : string
}.

(** Each branch of the source recomputes [angle_rad] from the unchanged
    [player.angle]; it is computed once here. *)
Definition _basic_movement_calculation (keys : Keys) (player : Player.t)
    (speed turn_speed : R) : R * R * R :=
  let '(dx, dy) := (0, 0) in
  let angle_change := 0 in
  let angle_rad := radians (Player.angle player) in
  let '(dx, dy) := if dict_get keys "forward" false
                   then (dx + speed * cos angle_rad, dy + speed * sin angle_rad)
                   else (dx, dy) in
  let '(dx, dy) := if dict_get keys "backward" false
                   then (dx - speed * cos angle_rad, dy - speed * sin angle_rad)
                   else (dx, dy) in
  let angle_change := if dict_get keys "turn_left" false
                      then angle_change - turn_speed else angle_change in
  let angle_change := if dict_get keys "turn_right" false
                      then angle_change + turn_speed else angle_change in
  let '(dx, dy) := if dict_get keys "strafe_left" false
                   then (dx - speed * sin angle_rad, dy + speed * cos angle_rad)
                   else (dx, dy) in
  let '(dx, dy) := if dict_get keys "strafe_right" false
                   then (dx + speed * sin angle_rad, dy - speed * cos angle_rad)
                   else (dx, dy) in
  (dx, dy, angle_change).

#[export] Instance EasyMovementStrategy : MovementStrategy := {
  calculate_movement keys player dt settings :=
    let speed := GameSettings.PLAYER_SPEED settings * 1.3 * dt in
    let turn_speed := GameSettings.PLAYER_TURN_SPEED settings * 1.2 * dt in
    _basic_movement_calculation keys player speed turn_speed;
  get_strategy_name := "Easy Movement (Fast)"
}.

#[export] Instance NormalMovementStrategy : MovementStrategy := {
  calculate_movement keys player dt settings :=
    let speed := GameSettings.PLAYER_SPEED settings * dt in
    let turn_speed := GameSettings.PLAYER_TURN_SPEED settings * dt in
    _basic_movement_calculation keys player speed turn_speed;
  get_strategy_name := "Normal Movement"
}.

#[export] Instance HardMovementStrategy : MovementStrategy := {
  calculate_movement keys player dt settings :=
    let speed := GameSettings.PLAYER_SPEED settings * 0.7 * dt in
    let turn_speed := GameSettings.PLAYER_TURN_SPEED settings * 0.8 * dt in
    let '(dx, dy, angle_change) :=
      _basic_movement_calculation keys player speed turn_speed in
    let inertia_factor := 0.8 in
    (dx * inertia_factor, dy * inertia_factor, angle_change * inertia_factor);
  get_strategy_name := "Hard Movement (Slow + Inertia)"
}.

End Movement.

(* ================================================================== *)
(** ** graphics/raycaster.py *)
(* ================================================================== *)

Module Raycaster.

(** A raycaster with the objects it refers to.  [player], [maze] and
    [settings] are references: they are the game's player and maze and the
    settings singleton, held here once. *)
Record t : Type := mk {
  player : Player.t;
  maze : Maze.t;
  settings : GameSettings.t;
  half_fov : R;
  delta_angle : R
}.

Definition with_delta_angle (self : t) (v : R) : t :=
  {| player := player self; maze := maze self; settings := settings self;
     half_fov := half_fov self; delta_angle := v |}.

Definition with_player (self : t) (p : Player.t) : t :=
  {| player := p; maze := maze self; settings := settings self;
     half_fov := half_fov self; delta_angle := delta_angle self |}.

Definition with_settings (self : t) (s : GameSettings.t) : t :=
  {| player := player self; maze := maze self; settings := s;
     half_fov := half_fov self; delta_angle := delta_angle self |}.

(** The dictionary returned by [_cast_single_ray]. *)
Record ray_data : Type := mk_ray_data {
  rd_distance : R;
  rd_wall_x : R;
  rd_wall_y : R;
  rd_texture_u : R;
  rd_hit_vertical : bool
}.

(** The dictionary appended by [cast_rays] for each ray. *)
Record ray : Type := mk_ray {
  distance : R;
  angle : R;
  wall_x : R;
  wall_y : R;
  texture_u : R;
  hit_vertical : bool
}.

Definition _update_settings (self : t) : outcome unit * t :=
  match truediv (GameSettings.FOV (settings self))
                (IZR (GameSettings.NUM_RAYS (settings self))) with
  | Raise e => (Raise e, self)
  | Ok d => (Ok tt, with_delta_angle self d)
  end.

(** [Raycaster.__init__]. *)
Definition init (player0 : Player.t) (maze0 : Maze.t) (settings0 : GameSettings.t)
  : outcome t :=
  let self := {| player := player0; maze := maze0; settings := settings0;
                 half_fov := GameSettings.FOV settings0 / 2;
                 delta_angle := 0 |} in
  match _update_settings self with
  | (Raise e, _) => Raise e
  | (Ok _, self) => Ok self
  end.

Definition step : R := 0.02.

(** The marching loop of [_cast_single_ray] over the remaining indices:
    [Some] record at the first wall, [None] when the indices run out. *)
Fixpoint march (self : t) (dx dy : R) (indices : list Z)
  : outcome (option ray_data) :=
  match indices with
  | [] => Ok None
  | i :: rest =>
      let distance := IZR i * step in
      let x := Player.x (player self) + dx * distance in
      let y := Player.y (player self) + dy * distance in
      w <- Maze.is_wall (maze self) (int x) (int y) ;;
      if w then
        let wall_x := x - IZR (int x) in
        let wall_y := y - IZR (int y) in
        let prev_x := Player.x (player self) + dx * (distance - step) in
        let prev_y := Player.y (player self) + dy * (distance - step) in
        let hit_vertical := negb (int prev_x =? int x)%Z in
        let texture_u := if hit_vertical then wall_y else wall_x in
        Ok (Some {| rd_distance := distance;
                    rd_wall_x := x;
                    rd_wall_y := y;
                    rd_texture_u := texture_u;
                    rd_hit_vertical := hit_vertical |})
      else march self dx dy rest
  end.

(** The record returned when the loop ends without a wall. *)
Definition no_hit (self : t) : ray_data :=
  {| rd_distance := GameSettings.MAX_DEPTH (settings self);
     rd_wall_x := 0;
     rd_wall_y := 0;
     rd_texture_u := 0;
     rd_hit_vertical := false |}.

Definition _cast_single_ray (self : t) (angle : R) : outcome ray_data :=
  let angle_rad := radians angle in
  let dx := cos angle_rad in
  let dy := sin angle_rad in
  found <- march self dx dy
             (range (int (GameSettings.MAX_DEPTH (settings self) / step))) ;;
  match found with
  | Some hit => Ok hit
  | None => Ok (no_hit self)
  end.

(** The loop of [cast_rays] over the remaining ray indices; [rays] is the
    list built so far. *)
Fixpoint cast_loop (self : t) (start_angle : R) (indices : list Z)
    (rays : list ray) : outcome (list ray) :=
  match indices with
  | [] => Ok rays
  | i :: rest =>
      let angle := start_angle + IZR i * delta_angle self in
      ray_data <- _cast_single_ray self angle ;;
      let angle_diff := radians (angle - Player.angle (player self)) in
      let corrected_distance := rd_distance ray_data * cos angle_diff in
      cast_loop self start_angle rest
        (rays ++ [ {| distance := corrected_distance;
                      angle := angle;
                      wall_x := rd_wall_x ray_data;
                      wall_y := rd_wall_y ray_data;
                      texture_u := rd_texture_u ray_data;
                      hit_vertical := rd_hit_vertical ray_data |} ])
  end.

Definition cast_rays (self : t) : outcome (list ray) * t :=
  match _update_settings self with
  | (Raise e, self) => (Raise e, self)
  | (Ok _, self) =>
      let rays := [] in
      let start_angle := Player.angle (player self) - half_fov self in
      (cast_loop self start_angle
         (range (GameSettings.NUM_RAYS (settings self))) rays,
       self)
  end.

Definition get_performance_info (self : t) : Z * R * R :=
  (GameSettings.NUM_RAYS (settings self),
   GameSettings.MAX_DEPTH (settings self),
   GameSettings.FOV (settings self)).

End Raycaster.

(* ================================================================== *)
(** ** core/game.py: the update step *)
(* ================================================================== *)

Module Game.

Inductive GameState : Set := MENU | PLAYING | PAUSED | COMPLETED.

Definition GameState_eqb (a b : GameState) : bool :=
  match a, b with
  | MENU, MENU | PLAYING, PLAYING | PAUSED, PAUSED | COMPLETED, COMPLETED => true
  | _, _ => false
  end.

(** A game whose level has started.  [objects] is the raycaster together
    with the player, the maze and the settings it shares with the game.
    [movement_context] is [None] when the design patterns could not be
    imported. *)
Record t : Type := mk {
  state : GameState;
  objects : Raycaster.t;
  movement_context : option Movement.MovementStrategy
}.

Definition player (self : t) : Player.t := Raycaster.player (objects self).
Definition maze (self : t) : Maze.t := Raycaster.maze (objects self).
Definition settings (self : t) : GameSettings.t := Raycaster.settings (objects self).

Definition with_player (self : t) (p : Player.t) : t :=
  {| state := state self;
     objects := Raycaster.with_player (objects self) p;
     movement_context := movement_context self |}.

Definition with_state (self : t) (s : GameState) : t :=
  {| state := s; objects := objects self;
     movement_context := movement_context self |}.

(** The exit check that ends [update]. *)
Definition check_exit (self : t) : outcome unit * t :=
  match Maze.is_exit (maze self)
          (int (Player.x (player self))) (int (Player.y (player self))) with
  | Raise e => (Raise e, self)
  | Ok true => (Ok tt, with_state self COMPLETED)
  | Ok false => (Ok tt, self)
  end.

(** [Game.update]; [keys] is what [InputHandler.get_movement_keys]
    returned for this frame. *)
Definition update (self : t) (keys : Keys) (dt : R) : outcome unit * t :=
  if GameState_eqb (state self) PLAYING then
    match movement_context self with
    | Some strategy =>
        let '(dx, dy, angle_change) :=
          @Movement.calculate_movement strategy keys (player self) dt (settings self) in
        let new_x := Player.x (player self) + dx in
        let new_y := Player.y (player self) + dy in
        match Player.try_move (player self) new_x new_y (maze self)
                Player.default_radius with
        | (Raise e, p) => (Raise e, with_player self p)
        | (Ok _, p) =>
            let p := Player.with_angle p
                       (mod_ (Player.angle p + angle_change) 360) in
            check_exit (with_player self p)
        end
    | None =>
        match Player.update (player self) keys (maze self) (settings self) dt with
        | (Raise e, p) => (Raise e, with_player self p)
        | (Ok level_completed, p) =>
            let self := with_player self p in
            if level_completed then (Ok tt, with_state self COMPLETED)
            else check_exit self
        end
    end
  else (Ok tt, self).

End Game.

(* ================================================================== *)
(** ** core/enums.py, core/input_handler.py and the rest of
       design_patterns/strategy_movement.py *)
(* ================================================================== *)

Inductive Difficulty : Set := EASY | MEDIUM | HARD.

Module InputHandler.

(** The keys of the keyboard that [get_movement_keys] looks at. *)
Inductive pygame_key : Set :=
  K_w | K_UP | K_s | K_DOWN | K_a | K_d | K_LEFT | K_q | K_RIGHT | K_e.

(** [get_movement_keys]; [keys] is what [pygame.key.get_pressed()]
    returned.  The result is the six-entry dictionary of the source. *)
Definition get_movement_keys (keys : pygame_key -> bool) : Keys :=
  fun name =>
    if String.eqb name "forward" then Some (keys K_w || keys K_UP)
    else if String.eqb name "backward" then Some (keys K_s || keys K_DOWN)
    else if String.eqb name "strafe_left" then Some (keys K_a)
    else if String.eqb name "strafe_right" then Some (keys K_d)
    else if String.eqb name "turn_left" then Some (keys K_LEFT || keys K_q)
    else if String.eqb name "turn_right" then Some (keys K_RIGHT || keys K_e)
    else None.

End InputHandler.

Module MovementStrategyFactory.

Definition create_for_difficulty (difficulty : Difficulty) : Movement.MovementStrategy :=
  match difficulty with
  | EASY => Movement.EasyMovementStrategy
  | HARD => Movement.HardMovementStrategy
  | MEDIUM => Movement.NormalMovementStrategy
  end.

End MovementStrategyFactory.

Module SmoothMovementStrategy.

(** The strategy object: unlike the other three it carries velocities from
    one call to the next. *)
Record t : Type := mk {
  velocity_x : R;
  velocity_y : R;
  angular_velocity : R;
  acceleration : R;
  friction : R
}.

Definition init : t :=
  {| velocity_x := 0; velocity_y := 0; angular_velocity := 0;
     acceleration := 8; friction := 0.85 |}.

(** [calculate_movement]: the returned triple and the strategy object with
    its velocities reassigned. *)
Definition calculate_movement (self : t) (keys : Keys) (player : Player.t)
    (dt : R) (settings : GameSettings.t) : (R * R * R) * t :=
  let max_speed := GameSettings.PLAYER_SPEED settings * dt in
  let max_turn_speed := GameSettings.PLAYER_TURN_SPEED settings * dt in
  let '(target_dx, target_dy) := (0, 0) in
  let target_angular := 0 in
  let angle_rad := radians (Player.angle player) in
  let '(target_dx, target_dy) :=
    if dict_get keys "forward" false
    then (target_dx + max_speed * cos angle_rad, target_dy + max_speed * sin angle_rad)
    else (target_dx, target_dy) in
  let '(target_dx, target_dy) :=
    if dict_get keys "backward" false
    then (target_dx - max_speed * cos angle_rad, target_dy - max_speed * sin angle_rad)
    else (target_dx, target_dy) in
  let target_angular := if dict_get keys "turn_left" false
                        then target_angular - max_turn_speed else target_angular in
  let target_angular := if dict_get keys "turn_right" false
                        then target_angular + max_turn_speed else target_angular in
  let vx := velocity_x self + (target_dx - velocity_x self) * acceleration self * dt in
  let vy := velocity_y self + (target_dy - velocity_y self) * acceleration self * dt in
  let va := angular_velocity self +
            (target_angular - angular_velocity self) * acceleration self * dt in
  let '(vx, vy) :=
    if negb (dict_get keys "forward" false) && negb (dict_get keys "backward" false)
    then (vx * friction self, vy * friction self) else (vx, vy) in
  let va :=
    if negb (dict_get keys "turn_left" false) && negb (dict_get keys "turn_right" false)
    then va * friction self else va in
  ((vx, vy, va),
   {| velocity_x := vx; velocity_y := vy; angular_velocity := va;
      acceleration := acceleration self; friction := friction self |}).

End SmoothMovementStrategy.

(* ================================================================== *)
(** ** design_patterns/factory_renderers.py and the fallback renderer of
       core/game.py

    A renderer paints on the screen; what is modelled is the list of
    [pygame.draw] calls it makes, in order, with their arguments. *)
(* ================================================================== *)

Module Renderer.

Definition color : Type := (Z * Z * Z)%type.

(** [pygame.Rect(left, top, width, height)]. *)
Record Rect : Type := mk_rect {
  rect_left : Z;
  rect_top : Z;
  rect_width : Z;
  rect_height : Z
}.

Inductive draw_call : Type :=
| draw_rect (c : color) (r : Rect)
| draw_line (c : color) (start_pos end_pos : Z * Z).

(** The attributes of the settings object the renderers read. *)
Record display : Type := mk_display {
  WIDTH : Z;
  HEIGHT : Z;
  FLOOR_COLOR : color;
  CEILING_COLOR : color
}.

(** Their values in [GameSettings.__init__]. *)
Definition display_init : display :=
  {| WIDTH := 800; HEIGHT := 600;
     FLOOR_COLOR := (40, 40, 40)%Z; CEILING_COLOR := (80, 80, 120)%Z |}.

Definition color_eqb (a b : color) : bool :=
  let '(r1, g1, b1) := a in
  let '(r2, g2, b2) := b in
  (r1 =? r2)%Z && (g1 =? g2)%Z && (b1 =? b2)%Z.

(** [color_groups[color].append(rect)], with the entry created at the end
    of the dictionary when the colour is new. *)
Fixpoint group_append (color_groups : list (color * list Rect)) (c : color) (r : Rect)
  : list (color * list Rect) :=
  match color_groups with
  | [] => [(c, [r])]
  | (c', rects) :: rest =>
      if color_eqb c' c then (c', rects ++ [r]) :: rest
      else (c', rects) :: group_append rest c r
  end.

(** The body of the wall loop of [FastRenderer.render_3d_view] for the ray
    of index [i]: [None] when the ray is skipped. *)
Definition fast_strip (d : display) (strip_width : R) (i : Z) (ray : Raycaster.ray)
  : option (color * Rect) :=
  let distance := Raycaster.distance ray in
  if Rle_dec distance 0 then None
  else
    let wall_height := Z.min (HEIGHT d) (Z.max 1 (int (IZR (HEIGHT d) / distance))) in
    let wall_top := ((HEIGHT d - wall_height) / 2)%Z in
    let brightness := Z.max 30 (255 - int (distance * 25)) in
    let color := (brightness, (brightness / 2)%Z, (brightness / 4)%Z) in
    let rect := mk_rect (int (IZR i * strip_width)) wall_top
                        (Z.max 2 (int strip_width)) wall_height in
    Some (color, rect).

Fixpoint fast_loop (d : display) (strip_width : R) (i : Z) (rays : list Raycaster.ray)
    (color_groups : list (color * list Rect)) : list (color * list Rect) :=
  match rays with
  | [] => color_groups
  | ray :: rest =>
      match fast_strip d strip_width i ray with
      | None => fast_loop d strip_width (i + 1) rest color_groups
      | Some (color, rect) =>
          fast_loop d strip_width (i + 1) rest (group_append color_groups color rect)
      end
  end.

Definition draw_groups (color_groups : list (color * list Rect)) : list draw_call :=
  flat_map (fun group => map (draw_rect (fst group)) (snd group)) color_groups.

Definition FastRenderer_render_3d_view (d : display) (rays : list Raycaster.ray)
  : list draw_call :=
  let sky := draw_rect (CEILING_COLOR d) (mk_rect 0 0 (WIDTH d) (HEIGHT d / 2)) in
  let floor := draw_rect (FLOOR_COLOR d)
                 (mk_rect 0 (HEIGHT d / 2) (WIDTH d) (HEIGHT d / 2)) in
  match rays with
  | [] => [sky; floor]
  | _ =>
      let strip_width := IZR (WIDTH d) / IZR (len rays) in
      let color_groups := fast_loop d strip_width 0 rays [] in
      [sky; floor] ++ draw_groups color_groups
  end.

(** The body of the wall loop of [QualityRenderer.render_3d_view]. *)
Definition quality_strip (d : display) (strip_width : R) (i : Z) (ray : Raycaster.ray)
  : option draw_call :=
  let distance := Raycaster.distance ray in
  if Rle_dec distance 0 then None
  else
    let wall_height := Z.min (HEIGHT d) (Z.max 1 (int (IZR (HEIGHT d) / distance))) in
    let wall_top := ((HEIGHT d - wall_height) / 2)%Z in
    let brightness := Z.max 50 (255 - int (distance * 12)) in
    let wall_x := Raycaster.wall_x ray in
    let wall_y := Raycaster.wall_y ray in
    let variation := (int ((wall_x + wall_y) * 30) mod 50)%Z in
    let color := (Z.min 255 (brightness + variation),
                  Z.min 255 (brightness / 2 + variation / 2),
                  Z.min 255 (brightness / 4 + variation / 4))%Z in
    let rect := mk_rect (int (IZR i * strip_width)) wall_top
                        (Z.max 1 (int strip_width)) wall_height in
    Some (draw_rect color rect).

Fixpoint quality_loop (d : display) (strip_width : R) (i : Z) (rays : list Raycaster.ray)
  : list draw_call :=
  match rays with
  | [] => []
  | ray :: rest =>
      match quality_strip d strip_width i ray with
      | None => quality_loop d strip_width (i + 1) rest
      | Some cmd => cmd :: quality_loop d strip_width (i + 1) rest
      end
  end.

(** One line of the sky gradient and one of the floor gradient. *)
Definition sky_line (d : display) (y : Z) : draw_call :=
  let progress := IZR y / IZR (HEIGHT d / 2) in
  let blue := int (80 + progress * 40) in
  draw_line (30, 50, blue)%Z (0, y)%Z (WIDTH d, y).

Definition floor_line (d : display) (y : Z) : draw_call :=
  let shade := int (IZR y * 0.1) in
  let '(r, g, b) := FLOOR_COLOR d in
  let clamp c := Z.max 0 (Z.min 255 (c + shade)) in
  draw_line (clamp r, clamp g, clamp b)
            (0, HEIGHT d / 2 + y)%Z (WIDTH d, (HEIGHT d / 2 + y)%Z).

Definition QualityRenderer_render_3d_view (d : display) (rays : list Raycaster.ray)
  : list draw_call :=
  let sky := map (sky_line d) (range (HEIGHT d / 2)) in
  let floor := map (floor_line d) (range (HEIGHT d / 2)) in
  match rays with
  | [] => sky ++ floor
  | _ =>
      let strip_width := IZR (WIDTH d) / IZR (len rays) in
      sky ++ floor ++ quality_loop d strip_width 0 rays
  end.

(** The body of the wall loop of [SimpleRenderer.render_3d_view]; [WIDTH]
    and [HEIGHT] are the size of the screen. *)
Definition simple_strip (WIDTH HEIGHT : Z) (strip_width : R) (i : Z)
    (ray : Raycaster.ray) : option draw_call :=
  let distance := Raycaster.distance ray in
  if Rle_dec distance 0 then None
  else
    let wall_height := Z.min HEIGHT (Z.max 1 (int (IZR HEIGHT / distance))) in
    let wall_top := ((HEIGHT - wall_height) / 2)%Z in
    let brightness := Z.max 30 (255 - int (distance * 20)) in
    let color := (brightness, (brightness / 2)%Z, (brightness / 4)%Z) in
    let rect := mk_rect (int (IZR i * strip_width)) wall_top
                        (Z.max 1 (int strip_width)) wall_height in
    Some (draw_rect color rect).

Fixpoint simple_loop (WIDTH HEIGHT : Z) (strip_width : R) (i : Z)
    (rays : list Raycaster.ray) : list draw_call :=
  match rays with
  | [] => []
  | ray :: rest =>
      match simple_strip WIDTH HEIGHT strip_width i ray with
      | None => simple_loop WIDTH HEIGHT strip_width (i + 1) rest
      | Some cmd => cmd :: simple_loop WIDTH HEIGHT strip_width (i + 1) rest
      end
  end.

Definition SimpleRenderer_render_3d_view (WIDTH HEIGHT : Z) (rays : list Raycaster.ray)
  : list draw_call :=
  let sky := draw_rect (80, 80, 120)%Z (mk_rect 0 0 WIDTH (HEIGHT / 2)) in
  let floor := draw_rect (40, 40, 40)%Z (mk_rect 0 (HEIGHT / 2) WIDTH (HEIGHT / 2)) in
  match rays with
  | [] => [sky; floor]
  | _ =>
      let strip_width := IZR WIDTH / IZR (len rays) in
      [sky; floor] ++ simple_loop WIDTH HEIGHT strip_width 0 rays
  end.


(** The renderer classes a game can hold. *)
Inductive renderer : Set := FastRenderer | QualityRenderer | SimpleRenderer.

Definition render_3d_view (self : renderer) (d : display) (rays : list Raycaster.ray)
  : list draw_call :=
  match self with
  | FastRenderer => FastRenderer_render_3d_view d rays
  | QualityRenderer => QualityRenderer_render_3d_view d rays
  | SimpleRenderer => SimpleRenderer_render_3d_view (WIDTH d) (HEIGHT d) rays
  end.


Definition create_adaptive_renderer (current_fps : R) : renderer :=
  if Rlt_dec current_fps 35 then FastRenderer else QualityRenderer.

Definition create_optimal_renderer : renderer := QualityRenderer.

End Renderer.

(* ================================================================== *)
(** ** core/game.py: the game object, its events and its frames

    [App.t] is the [Game] object as [__init__] creates it, before and after
    a level has started.  [main] lets an exception end the program, so a
    method that raises returns no game. *)
(* ================================================================== *)

Module App.

(** What can end the program: an exception of the modelled code, or the
    [AttributeError] of reading an attribute of [None]. *)
Inductive crash : Set :=
| PyExn (e : Py.exn)
| AttributeError.

Inductive result (A : Type) : Type :=
| Done (a : A)
| Crashed (c : crash).

Arguments Done {A} a.
Arguments Crashed {A} c.

(** The keys the event handlers compare with, and the events. *)
Inductive pygame_key : Set :=
  K_UP | K_DOWN | K_RETURN | K_SPACE | K_ESCAPE | K_other.

Inductive pygame_event : Set :=
| QUIT
| KEYDOWN (key : pygame_key)
| other_event.

Definition key_eqb (a b : pygame_key) : bool :=
  match a, b with
  | K_UP, K_UP | K_DOWN, K_DOWN | K_RETURN, K_RETURN
  | K_SPACE, K_SPACE | K_ESCAPE, K_ESCAPE | K_other, K_other => true
  | _, _ => false
  end.

(** The objects [start_level] creates: the maze, the player, and the
    raycaster's own attributes; the raycaster refers to this maze, this
    player and the settings of the game. *)
Record level : Type := mk_level {
  maze : Maze.t;
  player : Player.t;
  half_fov : R;
  delta_angle : R
}.

Record t : Type := mk {
  running : bool;
  state : Game.GameState;
  selected_option : Z;
  current_difficulty : option Difficulty;
  settings : GameSettings.t;
  display : Renderer.display;
  objects : option level;
  renderer : Renderer.renderer;
  movement_context : option Movement.MovementStrategy
}.

(** [Game.__init__] with the design patterns imported; [settings0] and
    [display0] are the current attributes of the settings singleton. *)
Definition init (settings0 : GameSettings.t) (display0 : Renderer.display) : t :=
  {| running := true;
     state := Game.MENU;
     selected_option := 0;
     current_difficulty := None;
     settings := settings0;
     display := display0;
     objects := None;
     renderer := Renderer.create_optimal_renderer;
     movement_context :=
       Some (MovementStrategyFactory.create_for_difficulty MEDIUM) |}.

Definition with_running (self : t) (v : bool) : t :=
  {| running := v; state := state self; selected_option := selected_option self;
     current_difficulty := current_difficulty self; settings := settings self;
     display := display self; objects := objects self; renderer := renderer self;
     movement_context := movement_context self |}.

Definition with_state (self : t) (v : Game.GameState) : t :=
  {| running := running self; state := v; selected_option := selected_option self;
     current_difficulty := current_difficulty self; settings := settings self;
     display := display self; objects := objects self; renderer := renderer self;
     movement_context := movement_context self |}.

Definition with_selected_option (self : t) (v : Z) : t :=
  {| running := running self; state := state self; selected_option := v;
     current_difficulty := current_difficulty self; settings := settings self;
     display := display self; objects := objects self; renderer := renderer self;
     movement_context := movement_context self |}.

(** The raycaster of the level with the objects it refers to. *)
Definition raycaster_of (self : t) (l : level) : Raycaster.t :=
  {| Raycaster.player := player l;
     Raycaster.maze := maze l;
     Raycaster.settings := settings self;
     Raycaster.half_fov := half_fov l;
     Raycaster.delta_angle := delta_angle l |}.

(** The game with the objects of [rc] stored back. *)
Definition with_raycaster (self : t) (rc : Raycaster.t) : t :=
  {| running := running self; state := state self;
     selected_option := selected_option self;
     current_difficulty := current_difficulty self;
     settings := Raycaster.settings rc;
     display := display self;
     objects := Some {| maze := Raycaster.maze rc;
                        player := Raycaster.player rc;
                        half_fov := Raycaster.half_fov rc;
                        delta_angle := Raycaster.delta_angle rc |};
     renderer := renderer self;
     movement_context := movement_context self |}.

Section Levels.

(** The tables of [data/maze_data.py]. *)
Variable MAZE_DATA : Difficulty -> list (list Z).
Variable SPAWN_POINTS : Difficulty -> R * R.

Definition start_level (self : t) (difficulty : Difficulty) : result t :=
  match Maze.init (MAZE_DATA difficulty) (SPAWN_POINTS difficulty) with
  | Raise e => Crashed (PyExn e)
  | Ok maze0 =>
      let player0 := Player.init (Maze.spawn_x maze0) (Maze.spawn_y maze0) 0 in
      match Raycaster.init player0 maze0 (settings self) with
      | Raise e => Crashed (PyExn e)
      | Ok rc =>
          let context :=
            match movement_context self with
            | Some _ => Some (MovementStrategyFactory.create_for_difficulty difficulty)
            | None => None
            end in
          Done {| running := running self;
                  state := Game.PLAYING;
                  selected_option := selected_option self;
                  current_difficulty := Some difficulty;
                  settings := settings self;
                  display := display self;
                  objects := Some {| maze := maze0; player := player0;
                                     half_fov := Raycaster.half_fov rc;
                                     delta_angle := Raycaster.delta_angle rc |};
                  renderer := renderer self;
                  movement_context := context |}
      end
  end.

Definition _handle_menu_input (self : t) (key : pygame_key) : result t :=
  if key_eqb key K_UP then
    Done (with_selected_option self ((selected_option self - 1) mod 4)%Z)
  else if key_eqb key K_DOWN then
    Done (with_selected_option self ((selected_option self + 1) mod 4)%Z)
  else if key_eqb key K_RETURN || key_eqb key K_SPACE then
    if (selected_option self =? 0)%Z then start_level self EASY
    else if (selected_option self =? 1)%Z then start_level self MEDIUM
    else if (selected_option self =? 2)%Z then start_level self HARD
    else if (selected_option self =? 3)%Z then Done (with_running self false)
    else Done self
  else Done self.

Definition _handle_game_input (self : t) (key : pygame_key) : t :=
  if key_eqb key K_ESCAPE then with_state self Game.MENU
  else if key_eqb key K_SPACE then with_state self Game.PAUSED
  else self.

Definition _handle_pause_input (self : t) (key : pygame_key) : t :=
  if key_eqb key K_SPACE then with_state self Game.PLAYING
  else if key_eqb key K_ESCAPE then with_state self Game.MENU
  else self.

Definition _handle_completion_input (self : t) (key : pygame_key) : t :=
  if key_eqb key K_SPACE || key_eqb key K_RETURN then with_state self Game.MENU
  else self.

(** The body of the loop of [handle_events] for one event. *)
Definition handle_event (self : t) (event : pygame_event) : result t :=
  match event with
  | QUIT => Done (with_running self false)
  | KEYDOWN key =>
      match state self with
      | Game.MENU => _handle_menu_input self key
      | Game.PLAYING => Done (_handle_game_input self key)
      | Game.PAUSED => Done (_handle_pause_input self key)
      | Game.COMPLETED => Done (_handle_completion_input self key)
      end
  | other_event => Done self
  end.

(** [handle_events]; [events] is what [pygame.event.get()] returned. *)
Fixpoint handle_events (self : t) (events : list pygame_event) : result t :=
  match events with
  | [] => Done self
  | event :: rest =>
      match handle_event self event with
      | Crashed c => Crashed c
      | Done self => handle_events self rest
      end
  end.

End Levels.

(** [Game.update], through the game of the level. *)
Definition update (self : t) (keys : Keys) (dt : R) : result t :=
  if Game.GameState_eqb (state self) Game.PLAYING then
    match objects self with
    | None => Crashed AttributeError
    | Some l =>
        let g := {| Game.state := state self;
                    Game.objects := raycaster_of self l;
                    Game.movement_context := movement_context self |} in
        match Game.update g keys dt with
        | (Raise e, _) => Crashed (PyExn e)
        | (Ok _, g') => Done (with_state (with_raycaster self (Game.objects g'))
                                (Game.state g'))
        end
    end
  else Done self.





End App.

(* ================================================================== *)
(** ** Running example *)
(* ================================================================== *)

Definition demo_grid : list (list Z) :=
  [ [1; 1; 1; 1; 1];
    [1; 0; 0; 0; 1];
    [1; 0; 9; 0; 1];
    [1; 1; 1; 1; 1] ]%Z.

Definition demo_maze : Maze.t :=
  {| Maze.maze_data := demo_grid; Maze.width := 5; Maze.height := 4;
     Maze.spawn_x := 1.5; Maze.spawn_y := 1.5 |}.

(** The player standing at the spawn point of [demo_maze], facing east. *)
Definition demo_player : Player.t := Player.init 1.5 1.5 0.

(** A raycaster over [demo_maze] with the given player and settings, as
    [Raycaster.__init__] leaves it when [NUM_RAYS] is the initial 120. *)
Definition demo_raycaster (p : Player.t) (s : GameSettings.t) : Raycaster.t :=
  {| Raycaster.player := p;
     Raycaster.maze := demo_maze;
     Raycaster.settings := s;
     Raycaster.half_fov := 30;
     Raycaster.delta_angle := 0.5 |}.

(** The keys of a diagonal request: forward and strafe-left together. *)
Definition diagonal_keys : Keys :=
  fun k =>
    if String.eqb k "forward" then Some true
    else if String.eqb k "strafe_left" then Some true
    else if String.eqb k "backward" then Some false
    else if String.eqb k "strafe_right" then Some false
    else if String.eqb k "turn_left" then Some false
    else if String.eqb k "turn_right" then Some false
    else None.

(** A game in play on [demo_maze]: the player faces east next to the east
    wall, with the strategy of the medium difficulty. *)
Definition demo_game : Game.t :=
  {| Game.state := Game.PLAYING;
     Game.objects := demo_raycaster (Player.init 3.6 1.5 0) GameSettings.init;
     Game.movement_context := Some Movement.NormalMovementStrategy |}.

(** The raycaster of a fresh level on [demo_maze]. *)
Definition demo_cast : Raycaster.t := demo_raycaster demo_player GameSettings.init.

(** The same after the ray count has been set to zero. *)
Definition zero_rays_cast : Raycaster.t :=
  demo_raycaster demo_player (GameSettings.set_quality GameSettings.init 0 15).

(** The same with a negative ray count. *)
Definition negative_rays_cast : Raycaster.t :=
  demo_raycaster demo_player (GameSettings.set_quality GameSettings.init (-3) 15).

(** The same with a depth of a quarter of a cell: no ray leaves the spawn
    cell. *)
Definition short_depth_cast : Raycaster.t :=
  demo_raycaster demo_player (GameSettings.set_quality GameSettings.init 120 0.25).

(** The player moved by [set_position] to half a cell west of the grid. *)
Definition west_of_grid_cast : Raycaster.t :=
  demo_raycaster (Player.set_position demo_player (-0.5) 0.5) GameSettings.init.

(* ================================================================== *)
(** ** Vocabulary of the statements *)
(* ================================================================== *)

(** [fov_in_step self]: the cached [half_fov] is half of the current [FOV],
    as [Raycaster.__init__] leaves it and as it stays while [FOV] is not
    reassigned. *)
Definition fov_in_step (self : Raycaster.t) : Prop :=
  Raycaster.half_fov self = GameSettings.FOV (Raycaster.settings self) / 2.

(** [ray_of self angle raw]: the dictionary [cast_rays] builds from the
    single-ray result [raw] of the ray at [angle]. *)
Definition ray_of (self : Raycaster.t) (angle : R) (raw : Raycaster.ray_data)
  : Raycaster.ray :=
  {| Raycaster.distance :=
       Raycaster.rd_distance raw *
       cos (radians (angle - Player.angle (Raycaster.player self)));
     Raycaster.angle := angle;
     Raycaster.wall_x := Raycaster.rd_wall_x raw;
     Raycaster.wall_y := Raycaster.rd_wall_y raw;
     Raycaster.texture_u := Raycaster.rd_texture_u raw;
     Raycaster.hit_vertical := Raycaster.rd_hit_vertical raw |}.

(** [ray_at self start i r]: [r] is the record of ray index [i] in a fan
    that starts at [start]. *)
Definition ray_at (self : Raycaster.t) (start : R) (i : Z) (r : Raycaster.ray) : Prop :=
  let angle := start + IZR i * Raycaster.delta_angle self in
  exists raw,
    Raycaster._cast_single_ray self angle = Ok raw /\ r = ray_of self angle raw.

(** [hits_nothing self angle]: the march of the ray at [angle] ends without
    a wall. *)
Definition hits_nothing (self : Raycaster.t) (angle : R) : Prop :=
  Raycaster.march self (cos (radians angle)) (sin (radians angle))
    (range (int (GameSettings.MAX_DEPTH (Raycaster.settings self) / Raycaster.step)))
  = Ok None.

(** [hits self angle raw]: the march of the ray at [angle] stops at a wall
    with the record [raw]. *)
Definition hits (self : Raycaster.t) (angle : R) (raw : Raycaster.ray_data) : Prop :=
  Raycaster.march self (cos (radians angle)) (sin (radians angle))
    (range (int (GameSettings.MAX_DEPTH (Raycaster.settings self) / Raycaster.step)))
  = Ok (Some raw).

(** [hitbox_free m radius p]: the square of half-width [radius] around the
    player touches no wall, as [_can_move_to] judges it. *)
Definition hitbox_free (m : Maze.t) (radius : R) (p : Player.t) : Prop :=
  Player._can_move_to (Player.x p) (Player.y p) m radius = Ok true.

(** The radius [Game.update] collides with: the default of [_can_move_to]
    on the strategy path, the settings' radius on the fallback path. *)
Definition update_radius (g : Game.t) : R :=
  match Game.movement_context g with
  | Some _ => Player.default_radius
  | None => GameSettings.PLAYER_RADIUS (Game.settings g)
  end.

(** A grid whose second row is one cell short. *)
Definition ragged_maze : Maze.t :=
  {| Maze.maze_data := [ [1; 1; 1]; [1; 0]; [1; 1; 1] ]%Z;
     Maze.width := 3; Maze.height := 3;
     Maze.spawn_x := 1.5; Maze.spawn_y := 1.5 |}.

(** The game after the exit check on a player that has moved. *)
Definition after_exit_check (g : Game.t) (p' : Player.t) (at_exit : bool) : Game.t :=
  if at_exit then Game.with_state (Game.with_player g p') Game.COMPLETED
  else Game.with_player g p'.

(** The keyboard with no key held down. *)
Definition no_key_pressed : InputHandler.pygame_key -> bool := fun _ => false.

(** The dictionary with forward held alone. *)
Definition forward_keys : Keys :=
  InputHandler.get_movement_keys
    (fun k => match k with InputHandler.K_w => true | _ => false end).

(** The settings after [adapt_performance] has been called once for each
    frame rate of [history], in order. *)
Definition adapt_all (s : GameSettings.t) (history : list R) : GameSettings.t :=
  fold_left (fun s fps => snd (GameSettings.adapt_performance s fps)) history s.

(** The point sampled by the march of the ray at [angle] at index [i]. *)
Definition sample_x (self : Raycaster.t) (angle : R) (i : Z) : R :=
  Player.x (Raycaster.player self) + cos (radians angle) * (IZR i * Raycaster.step).

Definition sample_y (self : Raycaster.t) (angle : R) (i : Z) : R :=
  Player.y (Raycaster.player self) + sin (radians angle) * (IZR i * Raycaster.step).

(** A colour [pygame] accepts: three components from 0 to 255. *)
Definition valid_color (c : Renderer.color) : Prop :=
  let '(r, g, b) := c in
  (0 <= r <= 255 /\ 0 <= g <= 255 /\ 0 <= b <= 255)%Z.

(** The colour of a drawing call. *)
Definition draw_color (cmd : Renderer.draw_call) : Renderer.color :=
  match cmd with
  | Renderer.draw_rect c _ => c
  | Renderer.draw_line c _ _ => c
  end.

(** A rectangle that starts on the screen and stays between its top and
    bottom edges, at least one pixel high. *)
Definition within_rows (d : Renderer.display) (r : Renderer.Rect) : Prop :=
  (0 <= Renderer.rect_left r /\
   0 <= Renderer.rect_top r /\
   1 <= Renderer.rect_height r /\
   Renderer.rect_top r + Renderer.rect_height r <= Renderer.HEIGHT d)%Z.

(** The wall rectangles among a list of drawing calls: every rectangle
    after the first [skip] calls. *)
Definition wall_rects (skip : nat) (cmds : list Renderer.draw_call) : list Renderer.Rect :=
  flat_map (fun cmd => match cmd with
                       | Renderer.draw_rect _ r => [r]
                       | Renderer.draw_line _ _ _ => []
                       end) (skipn skip cmds).

(** The rays a renderer draws: those with a positive distance. *)
Definition visible (rays : list Raycaster.ray) : list Raycaster.ray :=
  filter (fun r => if Rle_dec (Raycaster.distance r) 0 then false else true) rays.

(** The results of a wall-loop body over the rays, in ray order, the first
    ray having index [i]; skipped rays leave nothing. *)
Fixpoint indexed_strips {A : Type} (body : Z -> Raycaster.ray -> option A) (i : Z)
    (rays : list Raycaster.ray) : list A :=
  match rays with
  | [] => []
  | ray :: rest =>
      match body i ray with
      | None => indexed_strips body (i + 1) rest
      | Some strip => strip :: indexed_strips body (i + 1) rest
      end
  end.

(** The drawing calls of the fast renderer's strips in ray order, before
    grouping. *)
Definition fast_strips (d : Renderer.display) (rays : list Raycaster.ray)
  : list Renderer.draw_call :=
  map (fun strip => Renderer.draw_rect (fst strip) (snd strip))
    (indexed_strips
       (Renderer.fast_strip d (IZR (Renderer.WIDTH d) / IZR (len rays))) 0 rays).

(** The number of drawing calls a renderer makes before the walls. *)
Definition backdrop_calls (self : Renderer.renderer) (d : Renderer.display) : nat :=
  match self with
  | Renderer.QualityRenderer =>
      (Z.to_nat (Renderer.HEIGHT d / 2) + Z.to_nat (Renderer.HEIGHT d / 2))%nat
  | _ => 2%nat
  end.

(** The narrowest strip a renderer draws. *)
Definition min_strip_width (self : Renderer.renderer) : Z :=
  match self with
  | Renderer.FastRenderer => 2
  | _ => 1
  end.

(** A fan of three rays: a near wall, a far wall and a skipped ray. *)
Definition near_ray : Raycaster.ray :=
  {| Raycaster.distance := 0.5; Raycaster.angle := -20;
     Raycaster.wall_x := 2; Raycaster.wall_y := 1.3;
     Raycaster.texture_u := 0.3; Raycaster.hit_vertical := true |}.

Definition far_ray : Raycaster.ray :=
  {| Raycaster.distance := 2.5; Raycaster.angle := 0;
     Raycaster.wall_x := 4; Raycaster.wall_y := 1.5;
     Raycaster.texture_u := 0.5; Raycaster.hit_vertical := true |}.

Definition skipped_ray : Raycaster.ray :=
  {| Raycaster.distance := 0; Raycaster.angle := 20;
     Raycaster.wall_x := 1.5; Raycaster.wall_y := 1.5;
     Raycaster.texture_u := 0.5; Raycaster.hit_vertical := false |}.

Definition demo_rays : list Raycaster.ray := [near_ray; far_ray; skipped_ray].

(** A wall strip as a renderer draws it for some ray index below [n]: a
    rectangle in a valid colour, between the top and the bottom of the
    screen, [strip_width] times the index from the left edge and as wide as
    a strip, but no narrower than [narrowest]. *)
Definition strip_call (d : Renderer.display) (strip_width : R) (narrowest n : Z)
    (cmd : Renderer.draw_call) : Prop :=
  exists c r i,
    cmd = Renderer.draw_rect c r /\
    valid_color c /\ within_rows d r /\
    (0 <= i < n)%Z /\
    Renderer.rect_left r = int (IZR i * strip_width) /\
    Renderer.rect_width r = Z.max narrowest (int strip_width).

(** Tables that give [demo_grid] and its spawn point at every difficulty,
    and the game object created over the initial settings. *)
Definition demo_maze_data : Difficulty -> list (list Z) := fun _ => demo_grid.
Definition demo_spawn_points : Difficulty -> R * R := fun _ => (1.5, 1.5).

Definition demo_app : App.t := App.init GameSettings.init Renderer.display_init.

(** [demo_app] in play on [demo_maze]. *)
Definition demo_app_playing : App.t :=
  App.with_state (App.with_raycaster demo_app demo_cast) Game.PLAYING.


(** The remainder of analysis, [a - m * floor(a / m)], against which the
    float [%] is measured. *)
Definition floored_remainder (a m : R) : R := a - m * IZR (Int_part (a / m)).

(* ================================================================== *)
(** * Properties *)
(* ================================================================== *)

(** ** Facts about the Python primitives *)

Section PyFacts.

Lemma outcome_bind_Ok {A B} (c : outcome A) (k : A -> outcome B) (b : B) :
  Py.bind c k = Ok b -> exists a, c = Ok a /\ k a = Ok b.
Proof.
  destruct c as [a|e]; simpl; intros H.
  - exists a; split; [reflexivity | exact H].
  - discriminate H.
Qed.

(** [int] on a non-negative float is the floor. *)
Lemma int_nonneg (x : R) (z : Z) :
  0 <= x -> IZR z <= x < IZR z + 1 -> int x = z.
Proof.
  intros Hx [Hlo Hhi]. unfold int.
  destruct (Rle_dec 0 x) as [_|Hn]; [|contradiction].
  symmetry. apply Int_part_spec. lra.
Qed.

(** [int] on a non-positive float is the ceiling. *)
Lemma int_nonpos (x : R) (z : Z) :
  x <= 0 -> IZR z - 1 < x <= IZR z -> int x = z.
Proof.
  intros Hx [Hlo Hhi]. unfold int.
  destruct (Rle_dec 0 x) as [Hp|_].
  - assert (x = 0) by lra. subst x.
    assert (Hz : (z = 0)%Z).
    { assert (H1 : IZR z < 1) by lra. assert (H2 : -1 < IZR z) by lra.
      apply lt_IZR in H1. apply (lt_IZR (-1)) in H2. lia. }
    subst z. symmetry. apply Int_part_spec. lra.
  - assert (Hi : (- z)%Z = Int_part (- x)).
    { apply Int_part_spec. rewrite opp_IZR. lra. }
    rewrite <- Hi. lia.
Qed.

Lemma int_frac_nonneg (x : R) :
  0 <= x -> 0 <= x - IZR (int x) < 1.
Proof.
  intros Hx. unfold int.
  destruct (Rle_dec 0 x) as [_|Hn]; [|contradiction].
  destruct (base_Int_part x) as [H1 H2]. lra.
Qed.

Lemma int_frac_nonpos (x : R) :
  x <= 0 -> -1 < x - IZR (int x) <= 0.
Proof.
  intros Hx. unfold int.
  destruct (Rle_dec 0 x) as [Hp|_].
  - destruct (base_Int_part x) as [H1 H2]. assert (x = 0) by lra. subst x.
    assert (Hz : Int_part 0 = 0%Z) by (symmetry; apply Int_part_spec; lra).
    rewrite Hz. lra.
  - destruct (base_Int_part (- x)) as [H1 H2]. rewrite opp_IZR. lra.
Qed.

Lemma int_frac_bounds (x : R) : -1 < x - IZR (int x) < 1.
Proof.
  destruct (Rle_dec 0 x) as [Hp|Hn].
  - pose proof (int_frac_nonneg x Hp). lra.
  - assert (Hx : x <= 0) by lra. pose proof (int_frac_nonpos x Hx). lra.
Qed.

(** *** Binary64 rounding and the float remainder *)

Lemma pow2_pos (e : Z) : 0 < pow2 e.
Proof. apply powerRZ_lt. lra. Qed.

Lemma pow2_add (a b : Z) : pow2 (a + b) = pow2 a * pow2 b.
Proof. apply powerRZ_add. lra. Qed.

Lemma pow2_cancel (e : Z) : pow2 (- e) * pow2 e = 1.
Proof.
  rewrite <- pow2_add. replace (- e + e)%Z with 0%Z by lia. reflexivity.
Qed.

Lemma pow2_IZR (n : Z) : (0 <= n)%Z -> pow2 n = IZR (2 ^ n).
Proof.
  intros Hn. unfold pow2.
  rewrite <- (Z2Nat.id n Hn) at 1 2.
  rewrite <- pow_powerRZ. apply pow_IZR.
Qed.

Lemma pow2_neg_IZR (n : Z) : (0 <= n)%Z -> pow2 (- n) = / IZR (2 ^ n).
Proof.
  intros Hn. rewrite <- (pow2_IZR n Hn).
  pose proof (pow2_cancel n). pose proof (pow2_pos n).
  apply (Rmult_eq_reg_r (pow2 n)); [|lra].
  rewrite Rinv_l by lra. assumption.
Qed.

Lemma ln_pow2 (e : Z) : ln (pow2 e) = IZR e * ln 2.
Proof.
  unfold pow2. rewrite powerRZ_Rpower by lra. apply ln_Rpower.
Qed.

Lemma ln_2_pos : 0 < ln 2.
Proof. pose proof ln_lt_2. lra. Qed.

(** [mag x] is at most [n] when [|x|] is below [2**n]. *)
Lemma mag_le (x : R) (n : Z) : x <> 0 -> Rabs x < pow2 n -> (mag x <= n)%Z.
Proof.
  intros Hx Hlt. unfold mag.
  pose proof (Rabs_pos_lt x Hx) as Hpos.
  pose proof (ln_increasing _ _ Hpos Hlt) as Hln. rewrite ln_pow2 in Hln.
  pose proof ln_2_pos as H2.
  assert (Hq : ln (Rabs x) / ln 2 < IZR n).
  { apply (Rmult_lt_reg_r (ln 2)); [exact H2|].
    unfold Rdiv. rewrite Rmult_assoc, Rinv_l by lra. lra. }
  destruct (base_Int_part (ln (Rabs x) / ln 2)) as [Hlo _].
  assert (Hz : IZR (Int_part (ln (Rabs x) / ln 2)) < IZR n) by lra.
  apply lt_IZR in Hz. lia.
Qed.

(** [mag x] is at least [n] when [|x|] is at least [2**(n-1)]. *)
Lemma mag_ge (x : R) (n : Z) : pow2 (n - 1) <= Rabs x -> (n <= mag x)%Z.
Proof.
  intros Hle. unfold mag.
  pose proof (pow2_pos (n - 1)) as Hpos.
  pose proof ln_2_pos as H2.
  assert (Hln : IZR (n - 1) * ln 2 <= ln (Rabs x)).
  { rewrite <- ln_pow2. destruct Hle as [Hlt|Heq].
    - left. apply ln_increasing; assumption.
    - rewrite Heq. lra. }
  assert (Hq : IZR (n - 1) <= ln (Rabs x) / ln 2).
  { apply (Rmult_le_reg_r (ln 2)); [exact H2|].
    unfold Rdiv. rewrite Rmult_assoc, Rinv_l by lra. lra. }
  destruct (base_Int_part (ln (Rabs x) / ln 2)) as [_ Hhi].
  assert (Hz : IZR (n - 1) < IZR (Int_part (ln (Rabs x) / ln 2)) + 1) by lra.
  rewrite <- plus_IZR in Hz. apply lt_IZR in Hz. lia.
Qed.

Lemma mag_unique (x : R) (n : Z) :
  pow2 (n - 1) <= Rabs x < pow2 n -> mag x = n.
Proof.
  intros [Hlo Hhi].
  assert (Hx : x <> 0).
  { intros ->. rewrite Rabs_R0 in Hlo. pose proof (pow2_pos (n - 1)). lra. }
  pose proof (mag_le x n Hx Hhi). pose proof (mag_ge x n Hlo). lia.
Qed.

(** The nearest integer to an integer is that integer. *)
Lemma nearest_even_IZR (k : Z) : nearest_even (IZR k) = k.
Proof.
  unfold nearest_even.
  assert (Hk : Int_part (IZR k) = k) by (symmetry; apply Int_part_spec; lra).
  rewrite Hk. destruct (Rlt_dec (IZR k - IZR k) (1 / 2)) as [_|H]; [reflexivity|].
  exfalso. apply H. lra.
Qed.

Lemma nearest_even_le (x : R) (k : Z) : x <= IZR k -> (nearest_even x <= k)%Z.
Proof.
  intros Hx. unfold nearest_even.
  destruct (base_Int_part x) as [Hlo Hhi].
  set (f := Int_part x) in *.
  assert (Hf : (f <= k)%Z) by (apply le_IZR; lra).
  destruct (Rlt_dec (x - IZR f) (1 / 2)) as [_|Hhalf]; [exact Hf|].
  assert (Hlt : (f < k)%Z).
  { apply lt_IZR. lra. }
  destruct (Rlt_dec (1 / 2) (x - IZR f)); [lia|].
  destruct (Z.even f); lia.
Qed.

Lemma nearest_even_ge (x : R) (k : Z) : IZR k <= x -> (k <= nearest_even x)%Z.
Proof.
  intros Hx. unfold nearest_even.
  destruct (base_Int_part x) as [Hlo Hhi].
  set (f := Int_part x) in *.
  assert (Hf : (k <= f)%Z).
  { assert (H : IZR k < IZR f + 1) by lra.
    rewrite <- plus_IZR in H. apply lt_IZR in H. lia. }
  destruct (Rlt_dec (x - IZR f) (1 / 2)); [exact Hf|].
  destruct (Rlt_dec (1 / 2) (x - IZR f)); [lia|].
  destruct (Z.even f); lia.
Qed.

(** Below the midpoint under [k] the nearest integer is below [k]. *)
Lemma nearest_even_lt (x : R) (k : Z) :
  x < IZR k - 1 / 2 -> (nearest_even x <= k - 1)%Z.
Proof.
  intros Hx. unfold nearest_even.
  destruct (base_Int_part x) as [Hlo Hhi].
  set (f := Int_part x) in *.
  assert (Hf : (f <= k - 1)%Z).
  { assert (H : IZR f < IZR k) by lra. apply lt_IZR in H. lia. }
  destruct (Rlt_dec (x - IZR f) (1 / 2)) as [_|Hhalf]; [exact Hf|].
  assert (Hlt : (f < k - 1)%Z).
  { apply lt_IZR. rewrite minus_IZR. lra. }
  destruct (Rlt_dec (1 / 2) (x - IZR f)); [lia|].
  destruct (Z.even f); lia.
Qed.

(** From the midpoint under an even [k] up to [k] the nearest integer is
    [k]. *)
Lemma nearest_even_up (x : R) (k : Z) :
  Z.even k = true -> IZR k - 1 / 2 <= x <= IZR k -> nearest_even x = k.
Proof.
  intros Hev [Hlo Hhi].
  destruct Hhi as [Hlt|Heq]; [|rewrite Heq; apply nearest_even_IZR].
  unfold nearest_even.
  assert (Hf : Int_part x = (k - 1)%Z).
  { symmetry. apply Int_part_spec. rewrite minus_IZR. lra. }
  rewrite Hf, minus_IZR.
  destruct (Rlt_dec (x - (IZR k - 1)) (1 / 2)) as [H|_]; [lra|].
  destruct (Rlt_dec (1 / 2) (x - (IZR k - 1))) as [_|_]; [lia|].
  replace (Z.even (k - 1)) with false; [lia|].
  rewrite Z.even_sub, Hev. reflexivity.
Qed.

(** The nearest integer is within one half. *)
Lemma nearest_even_error (x : R) : Rabs (IZR (nearest_even x) - x) <= 1 / 2.
Proof.
  unfold nearest_even.
  destruct (base_Int_part x) as [Hlo Hhi].
  set (f := Int_part x) in *.
  destruct (Rlt_dec (x - IZR f) (1 / 2)) as [H1|H1].
  - apply Rabs_le. lra.
  - destruct (Rlt_dec (1 / 2) (x - IZR f)) as [H2|H2].
    + rewrite plus_IZR. apply Rabs_le. lra.
    + destruct (Z.even f); [|rewrite plus_IZR]; apply Rabs_le; lra.
Qed.

(** A number with a significand of whole units of its last place is a
    double, and rounds to itself. *)
Lemma round64_exact (x : R) (k e : Z) :
  x = IZR k * pow2 e -> (last_place x <= e)%Z -> round64 x = x.
Proof.
  intros Hx He. unfold round64.
  destruct (Req_dec_T x 0) as [E|N]; [symmetry; exact E|].
  set (u := last_place x) in *.
  assert (Hk : x * pow2 (- u) = IZR (k * 2 ^ (e - u))).
  { rewrite mult_IZR, <- pow2_IZR by lia. rewrite Hx.
    replace (e - u)%Z with (e + - u)%Z by lia. rewrite pow2_add. ring. }
  rewrite Hk, nearest_even_IZR, <- Hk.
  rewrite Rmult_assoc, pow2_cancel. ring.
Qed.

Lemma round64_nonneg (x : R) : 0 <= x -> 0 <= round64 x.
Proof.
  intros Hx. unfold round64.
  destruct (Req_dec_T x 0) as [E|N]; [lra|].
  apply Rmult_le_pos; [|left; apply pow2_pos].
  apply (IZR_le 0). apply nearest_even_ge.
  apply Rmult_le_pos; [exact Hx | left; apply pow2_pos].
Qed.

(** Rounding does not cross a double that the last place of [x] can
    express. *)
Lemma round64_le (x : R) (k e : Z) :
  x <= IZR k * pow2 e -> (last_place x <= e)%Z -> x <> 0 ->
  round64 x <= IZR k * pow2 e.
Proof.
  intros Hx He N. unfold round64.
  destruct (Req_dec_T x 0) as [E|_]; [contradiction|].
  set (u := last_place x) in *.
  assert (Hk : IZR k * pow2 e = IZR (k * 2 ^ (e - u)) * pow2 u).
  { rewrite mult_IZR, <- pow2_IZR by lia.
    replace e with ((e - u) + u)%Z at 1 by lia. rewrite pow2_add. ring. }
  rewrite Hk. apply Rmult_le_compat_r; [left; apply pow2_pos|].
  apply IZR_le. apply nearest_even_le.
  apply (Rmult_le_reg_r (pow2 u)); [apply pow2_pos|].
  rewrite Rmult_assoc, pow2_cancel, Rmult_1_r, <- Hk. exact Hx.
Qed.

(** The last place of a double between 256 and 512 is [2**-44]. *)
Lemma last_place_256 (x : R) : 256 <= Rabs x < 512 -> last_place x = (-44)%Z.
Proof.
  intros Hx. unfold last_place.
  rewrite (mag_unique x 9); [reflexivity|].
  rewrite (pow2_IZR (9 - 1)), (pow2_IZR 9) by lia.
  change (2 ^ (9 - 1))%Z with 256%Z. change (2 ^ 9)%Z with 512%Z. lra.
Qed.

Lemma last_place_below_512 (x : R) : 0 < x < 512 -> (last_place x <= -44)%Z.
Proof.
  intros Hx. unfold last_place.
  assert (H : (mag x <= 9)%Z).
  { apply mag_le; [lra|]. rewrite Rabs_pos_eq by lra.
    rewrite (pow2_IZR 9) by lia. change (2 ^ 9)%Z with 512%Z. lra. }
  lia.
Qed.

Lemma last_place_below_256 (x : R) : 0 < x < 256 -> (last_place x <= -45)%Z.
Proof.
  intros Hx. unfold last_place.
  assert (H : (mag x <= 8)%Z).
  { apply mag_le; [lra|]. rewrite Rabs_pos_eq by lra.
    rewrite (pow2_IZR 8) by lia. change (2 ^ 8)%Z with 256%Z. lra. }
  lia.
Qed.

Lemma pow2_0 : pow2 0 = 1.
Proof. reflexivity. Qed.

(** Rounding a number between 0 and 360 stays between 0 and 360. *)
Lemma round64_below_360 (x : R) : 0 < x < 360 -> 0 <= round64 x <= 360.
Proof.
  intros Hx. split; [apply round64_nonneg; lra|].
  replace 360 with (IZR 360 * pow2 0) by (rewrite pow2_0; lra).
  apply round64_le.
  - rewrite pow2_0. lra.
  - pose proof (last_place_below_512 x ltac:(lra)). lia.
  - lra.
Qed.

(** The numbers that round up to 360 are those from [360 - 2**-45] on. *)
Lemma round64_to_360 (x : R) :
  0 < x < 360 -> (round64 x = 360 <-> 360 - pow2 (-45) <= x).
Proof.
  intros Hx.
  pose proof (pow2_neg_IZR 45 ltac:(lia)) as H45.
  pose proof (pow2_neg_IZR 44 ltac:(lia)) as H44.
  pose proof (pow2_IZR 44 ltac:(lia)) as P44.
  change (pow2 (-45) = / 35184372088832) in H45.
  change (pow2 (-44) = / 17592186044416) in H44.
  change (pow2 44 = 17592186044416) in P44.
  destruct (Rle_dec (360 - pow2 (-45)) x) as [Hhi|Hlo].
  - split; [intros _; exact Hhi|intros _].
    assert (Hu : last_place x = (-44)%Z) by (apply last_place_256; rewrite Rabs_pos_eq; lra).
    unfold round64. destruct (Req_dec_T x 0) as [E|_]; [lra|].
    rewrite Hu. change (- -44)%Z with 44%Z.
    rewrite (nearest_even_up _ 6333186975989760); [rewrite H44; lra|reflexivity|].
    rewrite P44. lra.
  - split; [|intros H; contradiction].
    intros H360. exfalso.
    destruct (Rle_dec 256 x) as [Hbig|Hsmall].
    + assert (Hu : last_place x = (-44)%Z) by (apply last_place_256; rewrite Rabs_pos_eq; lra).
      unfold round64 in H360. destruct (Req_dec_T x 0) as [E|_]; [lra|].
      rewrite Hu in H360. change (- -44)%Z with 44%Z in H360.
      assert (Hn : (nearest_even (x * pow2 44) <= 6333186975989759)%Z).
      { apply (nearest_even_lt _ 6333186975989760). rewrite P44. lra. }
      apply IZR_le in Hn. rewrite H44 in H360. lra.
    + assert (Hle : round64 x <= IZR 256 * pow2 0).
      { apply round64_le.
        - rewrite pow2_0. lra.
        - pose proof (last_place_below_256 x ltac:(lra)). lia.
        - lra. }
      rewrite pow2_0 in Hle. lra.
Qed.


Lemma pow2_le (a b : Z) : (a <= b)%Z -> pow2 a <= pow2 b.
Proof.
  intros Hab. replace b with ((b - a) + a)%Z by lia.
  rewrite pow2_add, (pow2_IZR (b - a)) by lia.
  assert (H1 : (1 <= 2 ^ (b - a))%Z) by (apply Z.lt_pred_le, Z.pow_pos_nonneg; lia).
  apply IZR_le in H1. pose proof (pow2_pos a). nra.
Qed.

(** Rounding moves a number by at most half a unit of its last place. *)
Lemma round64_error (x : R) :
  Rabs (round64 x - x) <= pow2 (last_place x) / 2.
Proof.
  unfold round64. pose proof (pow2_pos (last_place x)) as Hp.
  destruct (Req_dec_T x 0) as [E|N].
  - subst x. rewrite Rminus_0_r, Rabs_R0. lra.
  - set (u := last_place x) in *.
    pose proof (nearest_even_error (x * pow2 (- u))) as He.
    replace (IZR (nearest_even (x * pow2 (- u))) * pow2 u - x)
      with ((IZR (nearest_even (x * pow2 (- u))) - x * pow2 (- u)) * pow2 u).
    + rewrite Rabs_mult, (Rabs_pos_eq (pow2 u)) by lra. nra.
    + rewrite Rmult_minus_distr_r, Rmult_assoc, pow2_cancel. ring.
Qed.

(** [fmod] by 360 keeps the sign of its operand, stays inside (-360, 360)
    and removes a whole number of turns. *)
Lemma fmod_360 (x : R) :
  -360 < fmod x 360 < 360 /\
  (0 <= x -> 0 <= fmod x 360) /\
  (x <= 0 -> fmod x 360 <= 0) /\
  exists k : Z, fmod x 360 = x - 360 * IZR k.
Proof.
  unfold fmod.
  assert (Hx : x = 360 * (x / 360)) by (field; lra).
  pose proof (int_frac_bounds (x / 360)) as Hb.
  split; [lra|]. split; [|split].
  - intros H0. assert (Hq : 0 <= x / 360) by lra.
    pose proof (int_frac_nonneg _ Hq). lra.
  - intros H0. assert (Hq : x / 360 <= 0) by lra.
    pose proof (int_frac_nonpos _ Hq). lra.
  - exists (int (x / 360)). reflexivity.
Qed.

(** The three branches of [% 360]. *)
Lemma mod_360_cases (x : R) :
  (fmod x 360 = 0 /\ mod_ x 360 = 0) \/
  (0 < fmod x 360 /\ mod_ x 360 = fmod x 360) \/
  (fmod x 360 < 0 /\ mod_ x 360 = round64 (fmod x 360 + 360)).
Proof.
  unfold mod_, ltb. cbv zeta.
  destruct (Req_dec_T (fmod x 360) 0) as [E|N]; [left; split; [exact E|reflexivity]|].
  destruct (Rlt_dec 360 0) as [H|_]; [lra|].
  destruct (Rlt_dec (fmod x 360) 0) as [Hneg|Hpos]; simpl.
  - right; right. split; [exact Hneg|reflexivity].
  - right; left. split; [lra|reflexivity].
Qed.

(** [% 360] never leaves [[0, 360]]. *)
Lemma mod_360_range (x : R) : 0 <= mod_ x 360 <= 360.
Proof.
  destruct (fmod_360 x) as [Hr _].
  destruct (mod_360_cases x) as [[_ ->]|[[Hpos ->]|[Hneg ->]]].
  - lra.
  - lra.
  - apply round64_below_360. lra.
Qed.

(** It returns 360 itself exactly when [fmod] leaves a negative remainder
    of at most [2**-45]. *)
Lemma mod_360_top (x : R) :
  mod_ x 360 = 360 <-> - pow2 (-45) <= fmod x 360 < 0.
Proof.
  destruct (fmod_360 x) as [Hr _]. pose proof (pow2_pos (-45)) as Hp.
  destruct (mod_360_cases x) as [[E ->]|[[Hpos ->]|[Hneg ->]]].
  - split; intros H; lra.
  - split; intros H; lra.
  - rewrite round64_to_360 by lra. split; intros H; lra.
Qed.

(** For a non-negative operand it is the remainder of analysis, below
    360. *)
Lemma mod_360_nonneg (x : R) :
  0 <= x -> mod_ x 360 = floored_remainder x 360 /\ 0 <= mod_ x 360 < 360.
Proof.
  intros Hx. destruct (fmod_360 x) as [Hr [Hs _]]. specialize (Hs Hx).
  assert (Hf : fmod x 360 = floored_remainder x 360).
  { unfold fmod, floored_remainder, int.
    destruct (Rle_dec 0 (x / 360)) as [_|Hn]; [reflexivity|].
    exfalso. apply Hn. lra. }
  destruct (mod_360_cases x) as [[E ->]|[[Hpos ->]|[Hneg _]]].
  - rewrite <- Hf, E. lra.
  - rewrite <- Hf. lra.
  - lra.
Qed.

(** It is never further than [2**-45] from the remainder of analysis. *)
Lemma mod_360_close (x : R) :
  Rabs (mod_ x 360 - floored_remainder x 360) <= pow2 (-45).
Proof.
  pose proof (pow2_pos (-45)) as Hp.
  destruct (Rle_dec 0 x) as [Hx|Hx].
  - destruct (mod_360_nonneg x Hx) as [-> _].
    rewrite Rminus_diag, Rabs_R0. lra.
  - assert (Hneg : x <= 0) by lra.
    destruct (fmod_360 x) as [Hr [_ [Hs _]]]. specialize (Hs Hneg).
    assert (Hq : x / 360 < 0) by lra.
    destruct (base_Int_part (x / 360)) as [Hlo Hhi].
    pose proof (int_frac_nonpos (x / 360) ltac:(lra)) as Hfrac.
    assert (Hx360 : x = 360 * (x / 360)) by (field; lra).
    destruct (mod_360_cases x) as [[E ->]|[[Hpos _]|[Hlt ->]]].
    + assert (Hi : Int_part (x / 360) = int (x / 360)).
      { symmetry. apply Int_part_spec. unfold fmod in E. lra. }
      unfold floored_remainder. rewrite Hi. fold (fmod x 360). rewrite E.
      rewrite Rminus_diag, Rabs_R0. lra.
    + lra.
    + assert (Hi : Int_part (x / 360) = (int (x / 360) - 1)%Z).
      { symmetry. apply Int_part_spec. rewrite minus_IZR. unfold fmod in Hlt. lra. }
      assert (Hf : floored_remainder x 360 = fmod x 360 + 360).
      { unfold floored_remainder, fmod. rewrite Hi, minus_IZR. ring. }
      rewrite Hf.
      pose proof (round64_error (fmod x 360 + 360)) as He.
      pose proof (last_place_below_512 (fmod x 360 + 360) ltac:(lra)) as Hu.
      pose proof (pow2_le _ _ Hu) as Hle.
      assert (H44 : pow2 (-44) = 2 * pow2 (-45)).
      { replace (-44)%Z with (1 + -45)%Z by lia. rewrite pow2_add.
        replace (pow2 1) with 2 by (unfold pow2; simpl; lra). reflexivity. }
      lra.
Qed.

Lemma range_length (n : Z) : List.length (range n) = Z.to_nat n.
Proof. unfold range. rewrite length_map, length_seq. reflexivity. Qed.

Lemma range_nth (n : Z) (i : nat) :
  (i < Z.to_nat n)%nat -> nth_error (range n) i = Some (Z.of_nat i).
Proof.
  intros Hi. unfold range.
  rewrite nth_error_map, nth_error_seq.
  destruct (Nat.ltb_spec i (Z.to_nat n)); [reflexivity | lia].
Qed.

Lemma range_nonpos (n : Z) : (n <= 0)%Z -> range n = [].
Proof.
  intros Hn. unfold range.
  replace (Z.to_nat n) with 0%nat by lia. reflexivity.
Qed.

Lemma range_In (n i : Z) : In i (range n) -> (0 <= i < n)%Z.
Proof.
  unfold range. rewrite in_map_iff. intros [k [Hk Hin]].
  apply in_seq in Hin. lia.
Qed.

Lemma range_pos (n : Z) :
  (0 < n)%Z -> exists rest, range n = 0%Z :: rest.
Proof.
  intros Hn. unfold range.
  destruct (Z.to_nat n) as [|k] eqn:E; [lia|].
  simpl. eexists. reflexivity.
Qed.

Lemma getitem_in_range {A} (l : list A) (i : Z) :
  (0 <= i < len l)%Z ->
  exists a, getitem l i = Ok a /\ nth_error l (Z.to_nat i) = Some a.
Proof.
  intros [Hlo Hhi]. unfold getitem.
  destruct (Z.ltb_spec i 0) as [Hneg|_]; [lia|].
  destruct (Z.ltb_spec i 0) as [Hneg|_]; [lia|].
  destruct (nth_error l (Z.to_nat i)) as [a|] eqn:E.
  - exists a. split; reflexivity.
  - apply nth_error_None in E. unfold len in Hhi. lia.
Qed.

Lemma truediv_nonzero (a b : R) : b <> 0 -> truediv a b = Ok (a / b).
Proof.
  intros Hb. unfold truediv.
  destruct (Req_dec_T b 0) as [E|_]; [contradiction|reflexivity].
Qed.

Lemma truediv_zero (a : R) : truediv a 0 = Raise ZeroDivisionError.
Proof.
  unfold truediv.
  destruct (Req_dec_T 0 0) as [_|N]; [reflexivity|contradiction N; reflexivity].
Qed.

Lemma radians_0 : radians 0 = 0.
Proof. unfold radians. lra. Qed.

End PyFacts.

(** ** The grid maze *)

Section MazeFacts.

Variable m : Maze.t.

Lemma out_of_bounds_true (x y : Z) :
  Maze.out_of_bounds m x y = true <->
  (x < 0 \/ y < 0 \/ x >= Maze.width m \/ y >= Maze.height m)%Z.
Proof.
  unfold Maze.out_of_bounds.
  rewrite !orb_true_iff, !Z.ltb_lt, !Z.geb_le. lia.
Qed.

Lemma out_of_bounds_false (x y : Z) :
  Maze.out_of_bounds m x y = false <->
  (0 <= x < Maze.width m /\ 0 <= y < Maze.height m)%Z.
Proof.
  destruct (Maze.out_of_bounds m x y) eqn:E.
  - apply out_of_bounds_true in E. split; [discriminate | lia].
  - split; [intros _ | reflexivity].
    destruct (Z_lt_ge_dec x 0), (Z_lt_ge_dec y 0),
             (Z_lt_ge_dec x (Maze.width m)), (Z_lt_ge_dec y (Maze.height m));
      try lia;
      exfalso; apply not_true_iff_false in E; apply E;
      apply out_of_bounds_true; lia.
Qed.

Hypothesis Hrect : Maze.rectangular m.

(** Inside the bounds the two subscripts succeed. *)
Lemma cell_in_bounds (x y : Z) :
  (0 <= x < Maze.width m /\ 0 <= y < Maze.height m)%Z ->
  exists row c,
    nth_error (Maze.maze_data m) (Z.to_nat y) = Some row /\
    nth_error row (Z.to_nat x) = Some c /\
    Maze.cell m x y = Ok c.
Proof.
  intros [Hx Hy]. destruct Hrect as [Hh Hw].
  destruct (getitem_in_range (Maze.maze_data m) y) as [row [Hg Hn]]; [lia|].
  assert (Hlen : len row = Maze.width m).
  { rewrite Forall_forall in Hw. apply Hw. eapply nth_error_In; eauto. }
  destruct (getitem_in_range row x) as [c [Hgc Hnc]]; [lia|].
  exists row, c. repeat split; try assumption.
  unfold Maze.cell. rewrite Hg. simpl. exact Hgc.
Qed.

Lemma is_wall_total (x y : Z) : exists b, Maze.is_wall m x y = Ok b.
Proof.
  unfold Maze.is_wall.
  destruct (Maze.out_of_bounds m x y) eqn:E; [eexists; reflexivity|].
  apply out_of_bounds_false in E.
  destruct (cell_in_bounds x y E) as [row [c [_ [_ Hc]]]].
  rewrite Hc. simpl. eexists; reflexivity.
Qed.

Lemma is_exit_total (x y : Z) : exists b, Maze.is_exit m x y = Ok b.
Proof.
  unfold Maze.is_exit.
  destruct (Maze.out_of_bounds m x y) eqn:E; [eexists; reflexivity|].
  apply out_of_bounds_false in E.
  destruct (cell_in_bounds x y E) as [row [c [_ [_ Hc]]]].
  rewrite Hc. simpl. eexists; reflexivity.
Qed.

End MazeFacts.

Lemma demo_maze_rectangular : Maze.rectangular demo_maze.
Proof. split; [reflexivity | repeat constructor]. Qed.

(** C4. On a rectangular grid [is_wall] and [is_exit] return a boolean for
    every pair of integers: outside the bounds [is_wall] is true and
    [is_exit] is false; inside the bounds [is_wall] is true exactly when the
    cell code is 1 and [is_exit] exactly when it is 9. *)
Theorem maze_queries_total (m : Maze.t) (x y : Z) :
  Maze.rectangular m ->
  (exists w e, Maze.is_wall m x y = Ok w /\ Maze.is_exit m x y = Ok e) /\
  ((x < 0 \/ y < 0 \/ x >= Maze.width m \/ y >= Maze.height m)%Z ->
     Maze.is_wall m x y = Ok true /\ Maze.is_exit m x y = Ok false) /\
  ((0 <= x < Maze.width m /\ 0 <= y < Maze.height m)%Z ->
     exists row c,
       nth_error (Maze.maze_data m) (Z.to_nat y) = Some row /\
       nth_error row (Z.to_nat x) = Some c /\
       Maze.is_wall m x y = Ok (c =? 1)%Z /\
       Maze.is_exit m x y = Ok (c =? 9)%Z).
Proof.
  intros Hrect. split; [|split].
  - destruct (is_wall_total m Hrect x y) as [w Hw].
    destruct (is_exit_total m Hrect x y) as [e He].
    exists w, e. split; assumption.
  - intros Hout. apply out_of_bounds_true in Hout.
    unfold Maze.is_wall, Maze.is_exit. rewrite Hout. split; reflexivity.
  - intros Hin.
    destruct (cell_in_bounds m Hrect x y Hin) as [row [c [Hr [Hc Hcell]]]].
    apply out_of_bounds_false in Hin.
    exists row, c. unfold Maze.is_wall, Maze.is_exit.
    rewrite Hin, Hcell. simpl. repeat split; assumption.
Qed.

Lemma maze_queries_total_witness :
  Maze.rectangular demo_maze /\
  Maze.is_wall demo_maze (-1) 0 = Ok true /\
  Maze.is_exit demo_maze (-1) 0 = Ok false.
Proof.
  split; [exact demo_maze_rectangular|].
  apply (maze_queries_total demo_maze (-1) 0 demo_maze_rectangular).
  left. lia.
Defined.

(** ** The player *)

Section CollisionFacts.

Variable m : Maze.t.
Hypothesis Hrect : Maze.rectangular m.

(** The corner loop answers [false] exactly when some corner is a wall. *)
Lemma corners_free_spec (corners : list (R * R)) :
  exists b,
    Player.corners_free m corners = Ok b /\
    (b = false <->
     exists c, In c corners /\
               Maze.is_wall m (int (fst c)) (int (snd c)) = Ok true).
Proof.
  induction corners as [|[cx cy] rest IH].
  - exists true. split; [reflexivity|].
    split; [discriminate | intros [c [[] _]]].
  - destruct (is_wall_total m Hrect (int cx) (int cy)) as [w Hw].
    simpl. rewrite Hw. simpl. destruct w.
    + exists false. split; [reflexivity|].
      split; [intros _ | reflexivity].
      exists (cx, cy). split; [left; reflexivity | exact Hw].
    + destruct IH as [b [Hb Hiff]]. exists b. split; [exact Hb|].
      rewrite Hiff. split.
      * intros [c [Hin Hc]]. exists c. split; [right; exact Hin | exact Hc].
      * intros [c [[Heq|Hin] Hc]].
        -- subst c. simpl in Hc. rewrite Hw in Hc. discriminate Hc.
        -- exists c. split; assumption.
Qed.

End CollisionFacts.

(** C7. On a rectangular grid [_can_move_to] returns [false] if and only if
    one of the four corners of the square of half-width [radius] around
    [(x, y)], truncated to integers, is a wall for [Maze.is_wall]; otherwise
    it returns [true]. *)
Theorem can_move_to_corners (m : Maze.t) (x y radius : R) :
  Maze.rectangular m ->
  exists b,
    Player._can_move_to x y m radius = Ok b /\
    (b = false <->
     exists c,
       In c [ (x - radius, y - radius); (x + radius, y - radius);
              (x - radius, y + radius); (x + radius, y + radius) ] /\
       Maze.is_wall m (int (fst c)) (int (snd c)) = Ok true).
Proof.
  intros Hrect. unfold Player._can_move_to.
  apply corners_free_spec. exact Hrect.
Qed.

Lemma can_move_to_corners_witness :
  exists b,
    Player._can_move_to 1.5 1.5 demo_maze 0.2 = Ok b /\
    (b = false <->
     exists c,
       In c [ (1.5 - 0.2, 1.5 - 0.2); (1.5 + 0.2, 1.5 - 0.2);
              (1.5 - 0.2, 1.5 + 0.2); (1.5 + 0.2, 1.5 + 0.2) ] /\
       Maze.is_wall demo_maze (int (fst c)) (int (snd c)) = Ok true).
Proof.
  apply (can_move_to_corners demo_maze 1.5 1.5 0.2).
  split; [reflexivity | repeat constructor].
Defined.

(** A negative operand of at most [2**-45] in size is what [% 360] turns
    into 360. *)
Lemma mod_360_tiny_negative (x : R) :
  - pow2 (-45) <= x < 0 -> mod_ x 360 = 360.
Proof.
  intros Hx. apply mod_360_top.
  pose proof (pow2_neg_IZR 45 ltac:(lia)) as H45.
  change (pow2 (-45) = / 35184372088832) in H45.
  assert (Hi : int (x / 360) = 0%Z) by (apply int_nonpos; lra).
  unfold fmod. rewrite Hi. lra.
Qed.

(** C8, as the code has it. [turn] stores Python's [(prior + delta) % 360]
    and [set_angle a] stores [a % 360].  With [s] the operand of [%] (the
    double [prior + delta], or [a]), the stored angle lies in [[0, 360]]; it
    is 360 itself exactly when [fmod(s, 360)] is negative and not below
    [-2**-45], and it is below 360 otherwise; it is never further than
    [2**-45] from the remainder of analysis [s - 360 * floor(s / 360)], and
    it is that remainder when [s] is not negative.  Turning by -400 from 10
    gives 330. *)
Theorem angle_normalized (p : Player.t) (delta a : R) :
  (let s := float_add (Player.angle p) delta in
   let stored := Player.angle (Player.turn p delta) in
   stored = mod_ s 360 /\
   0 <= stored <= 360 /\
   (stored = 360 <-> - pow2 (-45) <= fmod s 360 < 0) /\
   Rabs (stored - floored_remainder s 360) <= pow2 (-45) /\
   (0 <= s -> stored = floored_remainder s 360 /\ stored < 360)) /\
  (let stored := Player.angle (Player.set_angle p a) in
   stored = mod_ a 360 /\
   0 <= stored <= 360 /\
   (stored = 360 <-> - pow2 (-45) <= fmod a 360 < 0) /\
   Rabs (stored - floored_remainder a 360) <= pow2 (-45) /\
   (0 <= a -> stored = floored_remainder a 360 /\ stored < 360)) /\
  Player.angle (Player.turn (Player.with_angle p 10) (-400)) = 330.
Proof.
  assert (Hall : forall s : R,
            0 <= mod_ s 360 <= 360 /\
            (mod_ s 360 = 360 <-> - pow2 (-45) <= fmod s 360 < 0) /\
            Rabs (mod_ s 360 - floored_remainder s 360) <= pow2 (-45) /\
            (0 <= s -> mod_ s 360 = floored_remainder s 360 /\ mod_ s 360 < 360)).
  { intros s. split; [apply mod_360_range|]. split; [apply mod_360_top|].
    split; [apply mod_360_close|].
    intros Hs. destruct (mod_360_nonneg s Hs) as [Heq Hlt].
    split; [exact Heq | apply Hlt]. }
  split; [|split].
  - cbv zeta. split; [reflexivity|]. apply Hall.
  - cbv zeta. split; [reflexivity|]. apply Hall.
  - unfold Player.turn, float_add. simpl.
    assert (Hsum : round64 (10 + -400) = -390).
    { replace (10 + -400) with (-390) by lra.
      apply (round64_exact _ (-390) 0); [unfold pow2; simpl; lra|].
      rewrite last_place_256; [lia|].
      rewrite Rabs_left by lra. lra. }
    rewrite Hsum.
    assert (Hi : int (-390 / 360) = (-1)%Z) by (apply int_nonpos; lra).
    assert (Hf : fmod (-390) 360 = -30) by (unfold fmod; rewrite Hi; lra).
    destruct (mod_360_cases (-390)) as [[E _]|[[Hpos _]|[_ ->]]]; [lra|lra|].
    rewrite Hf. replace (-30 + 360) with 330 by lra.
    apply (round64_exact _ 330 0); [unfold pow2; simpl; lra|].
    rewrite last_place_256; [lia|].
    rewrite Rabs_pos_eq by lra. lra.
Qed.

Lemma angle_normalized_witness :
  Player.angle (Player.set_angle demo_player 450) = floored_remainder 450 360 /\
  Player.angle (Player.set_angle demo_player 450) < 360.
Proof.
  destruct (angle_normalized demo_player 0 450) as [_ [[_ [_ [_ [_ H]]]] _]].
  apply H. lra.
Defined.

(** C8, as stated, fails: from angle 0 a turn by [-2**-70], and
    [set_angle(-1e-20)], both store 360, which is not below 360. *)
Lemma angle_reaches_360 :
  Player.angle (Player.turn demo_player (- pow2 (-70))) = 360 /\
  Player.angle (Player.set_angle demo_player (-1e-20)) = 360 /\
  ~ (0 <= Player.angle (Player.turn demo_player (- pow2 (-70))) < 360) /\
  ~ (0 <= Player.angle (Player.set_angle demo_player (-1e-20)) < 360).
Proof.
  pose proof (pow2_neg_IZR 45 ltac:(lia)) as H45.
  change (pow2 (-45) = / 35184372088832) in H45.
  pose proof (pow2_neg_IZR 70 ltac:(lia)) as H70.
  change (pow2 (-70) = / 1180591620717411303424) in H70.
  assert (Hturn : Player.angle (Player.turn demo_player (- pow2 (-70))) = 360).
  { unfold Player.turn, float_add. cbn [Player.angle Player.with_angle].
    change (Player.angle demo_player) with 0.
    assert (Hsum : round64 (0 + - pow2 (-70)) = 0 + - pow2 (-70)).
    { apply (round64_exact _ (-1) (-70)); [lra|].
      unfold last_place.
      assert (Hm : (mag (0 + - pow2 (-70)) <= -17)%Z).
      { apply mag_le; [lra|]. rewrite Rabs_left by lra.
        pose proof (pow2_neg_IZR 17 ltac:(lia)) as H17.
        change (pow2 (-17) = / 131072) in H17. lra. }
      lia. }
    rewrite Hsum. apply mod_360_tiny_negative. lra. }
  assert (Hset : Player.angle (Player.set_angle demo_player (-1e-20)) = 360).
  { unfold Player.set_angle. cbn [Player.angle Player.with_angle].
    apply mod_360_tiny_negative. lra. }
  split; [exact Hturn|]. split; [exact Hset|].
  rewrite Hturn, Hset. split; lra.
Qed.

(** ** The collision step *)

(** Rewrites [int e] to the integer [z] for a closed real [e]. *)
Ltac int_is e z :=
  replace (int e) with z
    by (symmetry; first [ apply int_nonneg; lra | apply int_nonpos; lra ]).

Lemma try_move_spec (p : Player.t) (new_x new_y : R) (m : Maze.t) (radius : R)
    (ok_x ok_y : bool) :
  Player._can_move_to new_x (Player.y p) m radius = Ok ok_x ->
  Player._can_move_to (if ok_x then new_x else Player.x p) new_y m radius = Ok ok_y ->
  Player.try_move p new_x new_y m radius =
    (Ok tt, {| Player.x := if ok_x then new_x else Player.x p;
               Player.y := if ok_y then new_y else Player.y p;
               Player.angle := Player.angle p |}).
Proof.
  intros Hx Hy. unfold Player.try_move. rewrite Hx.
  destruct ok_x; simpl; rewrite Hy; destruct ok_y; destruct p; reflexivity.
Qed.

Lemma check_exit_player (g : Game.t) :
  Game.player (snd (Game.check_exit g)) = Game.player g.
Proof.
  unfold Game.check_exit.
  destruct (Maze.is_exit _ _ _) as [[|]|e]; reflexivity.
Qed.

Lemma game_update_position (g : Game.t) (keys : Keys) (dt : R)
    (strategy : Movement.MovementStrategy) (dx dy da : R) (ok_x ok_y : bool) :
  Game.state g = Game.PLAYING ->
  Game.movement_context g = Some strategy ->
  @Movement.calculate_movement strategy keys (Game.player g) dt (Game.settings g)
    = (dx, dy, da) ->
  let p := Game.player g in
  Player._can_move_to (Player.x p + dx) (Player.y p) (Game.maze g)
    Player.default_radius = Ok ok_x ->
  Player._can_move_to (if ok_x then Player.x p + dx else Player.x p)
    (Player.y p + dy) (Game.maze g) Player.default_radius = Ok ok_y ->
  let p' := Game.player (snd (Game.update g keys dt)) in
  Player.x p' = (if ok_x then Player.x p + dx else Player.x p) /\
  Player.y p' = (if ok_y then Player.y p + dy else Player.y p).
Proof.
  intros Hst Hctx Hcalc p Hx Hy. subst p.
  unfold Game.update. rewrite Hst, Hctx. simpl. rewrite Hcalc.
  rewrite (try_move_spec _ _ _ _ _ ok_x ok_y Hx Hy).
  cbv zeta. rewrite check_exit_player. simpl. split; reflexivity.
Qed.

Lemma player_update_position (p : Player.t) (keys : Keys) (m : Maze.t)
    (s : GameSettings.t) (dt : R) (p1 : Player.t) (dx dy : R) (ok_x ok_y : bool) :
  Player.update_intent p keys s dt = (p1, dx, dy) ->
  Player._can_move_to (Player.x p1 + dx) (Player.y p1) m
    (GameSettings.PLAYER_RADIUS s) = Ok ok_x ->
  Player._can_move_to (if ok_x then Player.x p1 + dx else Player.x p1)
    (Player.y p1 + dy) m (GameSettings.PLAYER_RADIUS s) = Ok ok_y ->
  let p' := snd (Player.update p keys m s dt) in
  Player.x p' = (if ok_x then Player.x p1 + dx else Player.x p1) /\
  Player.y p' = (if ok_y then Player.y p1 + dy else Player.y p1).
Proof.
  intros Hint Hx Hy. unfold Player.update. rewrite Hint.
  rewrite (try_move_spec _ _ _ _ _ ok_x ok_y Hx Hy).
  destruct (Maze.is_exit _ _ _); simpl; split; reflexivity.
Qed.

(** C6. The displacement is applied one axis at a time, x first: [x + dx] is
    tested against the current [y], then [y + dy] against the [x] that
    results.  So when the x-part of a diagonal request is blocked and the
    y-part is free, [y + dy] is applied and [x] is left alone.  This holds
    for the step of [Game.update], whatever the strategy, and for
    [Player.update]. *)
Theorem movement_per_axis (m : Maze.t) (s : GameSettings.t) (keys : Keys) (dt : R) :
  (forall (g : Game.t) (strategy : Movement.MovementStrategy)
          (dx dy da : R) (ok_x ok_y : bool),
     Game.maze g = m -> Game.settings g = s ->
     Game.state g = Game.PLAYING ->
     Game.movement_context g = Some strategy ->
     @Movement.calculate_movement strategy keys (Game.player g) dt s = (dx, dy, da) ->
     let p := Game.player g in
     let p' := Game.player (snd (Game.update g keys dt)) in
     Player._can_move_to (Player.x p + dx) (Player.y p) m
       Player.default_radius = Ok ok_x ->
     Player._can_move_to (if ok_x then Player.x p + dx else Player.x p)
       (Player.y p + dy) m Player.default_radius = Ok ok_y ->
     (Player.x p' = (if ok_x then Player.x p + dx else Player.x p) /\
      Player.y p' = (if ok_y then Player.y p + dy else Player.y p)) /\
     (ok_x = false -> ok_y = true ->
      Player.x p' = Player.x p /\ Player.y p' = Player.y p + dy)) /\
  (forall (p p1 : Player.t) (dx dy : R) (ok_x ok_y : bool),
     Player.update_intent p keys s dt = (p1, dx, dy) ->
     let p' := snd (Player.update p keys m s dt) in
     Player._can_move_to (Player.x p1 + dx) (Player.y p1) m
       (GameSettings.PLAYER_RADIUS s) = Ok ok_x ->
     Player._can_move_to (if ok_x then Player.x p1 + dx else Player.x p1)
       (Player.y p1 + dy) m (GameSettings.PLAYER_RADIUS s) = Ok ok_y ->
     (Player.x p' = (if ok_x then Player.x p1 + dx else Player.x p1) /\
      Player.y p' = (if ok_y then Player.y p1 + dy else Player.y p1)) /\
     (ok_x = false -> ok_y = true ->
      Player.x p' = Player.x p1 /\ Player.y p' = Player.y p1 + dy)).
Proof.
  split.
  - intros g strategy dx dy da ok_x ok_y Hm Hs Hst Hctx Hcalc p p' Hx Hy.
    subst m s.
    pose proof (game_update_position g keys dt strategy dx dy da ok_x ok_y
                  Hst Hctx Hcalc Hx Hy) as H.
    split; [exact H|].
    intros -> ->. exact H.
  - intros p p1 dx dy ok_x ok_y Hint p' Hx Hy.
    pose proof (player_update_position p keys m s dt p1 dx dy ok_x ok_y
                  Hint Hx Hy) as H.
    split; [exact H|].
    intros -> ->. exact H.
Qed.

Lemma movement_per_axis_witness :
  let p' := Game.player (snd (Game.update demo_game diagonal_keys 0.1)) in
  Player.x p' = 3.6 /\ Player.y p' = 1.5 + 0.3.
Proof.
  destruct (movement_per_axis demo_maze GameSettings.init diagonal_keys 0.1)
    as [HG _].
  apply (HG demo_game Movement.NormalMovementStrategy 0.3 0.3 0 false true);
    try reflexivity.
  - unfold Movement.calculate_movement, Movement.NormalMovementStrategy,
      Movement._basic_movement_calculation.
    change (dict_get diagonal_keys "forward" false) with true.
    change (dict_get diagonal_keys "backward" false) with false.
    change (dict_get diagonal_keys "strafe_left" false) with true.
    change (dict_get diagonal_keys "strafe_right" false) with false.
    change (dict_get diagonal_keys "turn_left" false) with false.
    change (dict_get diagonal_keys "turn_right" false) with false.
    cbv beta iota zeta.
    change (Player.angle (Game.player demo_game)) with 0.
    rewrite radians_0, cos_0, sin_0.
    change (GameSettings.PLAYER_SPEED GameSettings.init) with 3.
    change (GameSettings.PLAYER_TURN_SPEED GameSettings.init) with 120.
    repeat f_equal; lra.
  - unfold Player._can_move_to, Player.default_radius.
    change (Player.x (Game.player demo_game)) with 3.6.
    change (Player.y (Game.player demo_game)) with 1.5.
    cbn [Player.corners_free].
    int_is (3.6 + 0.3 - 0.2) 3%Z. int_is (1.5 - 0.2) 1%Z. int_is (3.6 + 0.3 + 0.2) 4%Z.
    reflexivity.
  - unfold Player._can_move_to, Player.default_radius.
    change (Player.x (Game.player demo_game)) with 3.6.
    change (Player.y (Game.player demo_game)) with 1.5.
    cbn [Player.corners_free].
    int_is (3.6 - 0.2) 3%Z. int_is (3.6 + 0.2) 3%Z.
    int_is (1.5 + 0.3 - 0.2) 1%Z. int_is (1.5 + 0.3 + 0.2) 2%Z.
    reflexivity.
Defined.

(** ** The raycaster *)

Lemma Forall2_nth_error_l {A B} (P : A -> B -> Prop) (l1 : list A) (l2 : list B) :
  Forall2 P l1 l2 ->
  forall i a, nth_error l1 i = Some a ->
  exists b, nth_error l2 i = Some b /\ P a b.
Proof.
  induction 1 as [|a0 b0 l1 l2 H0 _ IH]; intros i a Hi.
  - destruct i; discriminate Hi.
  - destruct i as [|i]; simpl in *.
    + injection Hi as <-. exists b0. split; [reflexivity | exact H0].
    + apply IH. exact Hi.
Qed.

Lemma Forall2_nth_error_r {A B} (P : A -> B -> Prop) (l1 : list A) (l2 : list B) :
  Forall2 P l1 l2 ->
  forall i b, nth_error l2 i = Some b ->
  exists a, nth_error l1 i = Some a /\ P a b.
Proof.
  induction 1 as [|a0 b0 l1 l2 H0 _ IH]; intros i b Hi.
  - destruct i; discriminate Hi.
  - destruct i as [|i]; simpl in *.
    + injection Hi as <-. exists a0. split; [reflexivity | exact H0].
    + apply IH. exact Hi.
Qed.

Lemma Forall2_length_eq {A B} (P : A -> B -> Prop) (l1 : list A) (l2 : list B) :
  Forall2 P l1 l2 -> List.length l2 = List.length l1.
Proof. induction 1; simpl; congruence. Qed.

Section RaycasterFacts.

Variable self : Raycaster.t.

(** A single ray does not read [delta_angle]. *)
Lemma cast_single_ray_delta (d angle : R) :
  Raycaster._cast_single_ray (Raycaster.with_delta_angle self d) angle =
  Raycaster._cast_single_ray self angle.
Proof.
  unfold Raycaster._cast_single_ray. simpl.
  set (idx := range _). generalize idx. clear idx.
  intros idx. f_equal.
  induction idx as [|i rest IH]; simpl; [reflexivity|].
  destruct (Maze.is_wall _ _ _) as [[|]|e]; simpl; [reflexivity | exact IH | reflexivity].
Qed.

(** An empty index list ends the march at once. *)
Lemma cast_single_ray_no_steps (angle : R) :
  GameSettings.MAX_DEPTH (Raycaster.settings self) <= 0 ->
  hits_nothing self angle /\
  Raycaster._cast_single_ray self angle = Ok (Raycaster.no_hit self).
Proof.
  intros Hd.
  assert (Hr : range (int (GameSettings.MAX_DEPTH (Raycaster.settings self)
                            / Raycaster.step)) = []).
  { apply range_nonpos.
    set (q := GameSettings.MAX_DEPTH (Raycaster.settings self) / Raycaster.step).
    assert (Hq : q <= 0).
    { unfold q, Raycaster.step. lra. }
    unfold int. destruct (Rle_dec 0 q) as [Hp|Hn].
    - assert (q = 0) by lra.
      assert (Hz : Int_part q = 0%Z) by (symmetry; apply Int_part_spec; lra).
      lia.
    - destruct (base_Int_part (- q)) as [H1 H2].
      assert (H3 : -1 < IZR (Int_part (- q))) by lra.
      apply (lt_IZR (-1)) in H3. lia. }
  unfold hits_nothing, Raycaster._cast_single_ray. rewrite Hr. simpl.
  split; reflexivity.
Qed.

(** What a single ray returns, by the outcome of its march. *)
Lemma cast_single_ray_cases (angle : R) (raw : Raycaster.ray_data) :
  Raycaster._cast_single_ray self angle = Ok raw ->
  (hits self angle raw) \/
  (hits_nothing self angle /\ raw = Raycaster.no_hit self).
Proof.
  unfold Raycaster._cast_single_ray, hits, hits_nothing. intros H.
  apply outcome_bind_Ok in H. destruct H as [[h|] [Hm Hr]].
  - left. injection Hr as <-. exact Hm.
  - right. injection Hr as <-. split; [exact Hm | reflexivity].
Qed.

Hypothesis Hrect : Maze.rectangular (Raycaster.maze self).

Lemma march_total (dx dy : R) (indices : list Z) :
  exists r, Raycaster.march self dx dy indices = Ok r.
Proof.
  induction indices as [|i rest IH]; simpl.
  - eexists; reflexivity.
  - destruct (is_wall_total _ Hrect
                (int (Player.x (Raycaster.player self) + dx * (IZR i * Raycaster.step)))
                (int (Player.y (Raycaster.player self) + dy * (IZR i * Raycaster.step))))
      as [w Hw].
    rewrite Hw. simpl. destruct w; [eexists; reflexivity | exact IH].
Qed.

Lemma cast_single_ray_total (angle : R) :
  exists raw, Raycaster._cast_single_ray self angle = Ok raw.
Proof.
  unfold Raycaster._cast_single_ray.
  destruct (march_total (cos (radians angle)) (sin (radians angle))
              (range (int (GameSettings.MAX_DEPTH (Raycaster.settings self)
                           / Raycaster.step)))) as [[h|] Hm];
    rewrite Hm; simpl; eexists; reflexivity.
Qed.

End RaycasterFacts.

(** When every single ray returns, the loop appends one record per index,
    in index order. *)
Lemma cast_loop_spec (self : Raycaster.t) (start : R) (indices : list Z) :
  (forall angle, exists raw, Raycaster._cast_single_ray self angle = Ok raw) ->
  forall acc, exists rays,
    Raycaster.cast_loop self start indices acc = Ok (acc ++ rays) /\
    Forall2 (ray_at self start) indices rays.
Proof.
  intros Htotal.
  induction indices as [|i rest IH]; intros acc.
  - exists []. simpl. rewrite app_nil_r. split; [reflexivity | constructor].
  - destruct (Htotal (start + IZR i * Raycaster.delta_angle self)) as [raw Hraw].
    simpl. rewrite Hraw. simpl.
    destruct (IH (acc ++ [ray_of self (start + IZR i * Raycaster.delta_angle self) raw]))
      as [rays [Hloop Hall]].
    exists (ray_of self (start + IZR i * Raycaster.delta_angle self) raw :: rays).
    split.
    + unfold ray_of in Hloop. rewrite Hloop. rewrite <- app_assoc. reflexivity.
    + constructor; [|exact Hall].
      exists raw. split; [exact Hraw | reflexivity].
Qed.

(** With a non-zero ray count, and every single ray returning, [cast_rays]
    stores the new [delta_angle] and returns one record per ray index. *)
Lemma cast_rays_spec (self : Raycaster.t) :
  (forall angle, exists raw, Raycaster._cast_single_ray self angle = Ok raw) ->
  GameSettings.NUM_RAYS (Raycaster.settings self) <> 0%Z ->
  let n := GameSettings.NUM_RAYS (Raycaster.settings self) in
  let self' := Raycaster.with_delta_angle self
                 (GameSettings.FOV (Raycaster.settings self) / IZR n) in
  exists rays,
    Raycaster.cast_rays self = (Ok rays, self') /\
    Forall2 (ray_at self'
               (Player.angle (Raycaster.player self) - Raycaster.half_fov self))
            (range n) rays.
Proof.
  intros Htotal Hn n self'.
  unfold Raycaster.cast_rays, Raycaster._update_settings.
  rewrite truediv_nonzero by (apply not_0_IZR; exact Hn).
  fold n. fold self'.
  assert (Htotal' : forall angle, exists raw,
             Raycaster._cast_single_ray self' angle = Ok raw).
  { intros angle. unfold self'. rewrite cast_single_ray_delta. apply Htotal. }
  destruct (cast_loop_spec self'
              (Player.angle (Raycaster.player self') - Raycaster.half_fov self')
              (range (GameSettings.NUM_RAYS (Raycaster.settings self'))) Htotal' [])
    as [rays [Hloop Hall]].
  exists rays. split.
  - cbv zeta. rewrite Hloop. reflexivity.
  - exact Hall.
Qed.

(** A record of the fan, read through the raycaster before the cast. *)
Lemma ray_at_inv (self : Raycaster.t) (d start : R) (i : Z) (r : Raycaster.ray) :
  ray_at (Raycaster.with_delta_angle self d) start i r ->
  exists raw,
    Raycaster._cast_single_ray self (start + IZR i * d) = Ok raw /\
    r = ray_of self (start + IZR i * d) raw.
Proof.
  intros [raw [Hraw Hr]]. simpl in Hraw. rewrite cast_single_ray_delta in Hraw.
  exists raw. split; [exact Hraw | exact Hr].
Qed.

Lemma cast_single_ray_total_rect (self : Raycaster.t) :
  Maze.rectangular (Raycaster.maze self) ->
  forall angle, exists raw, Raycaster._cast_single_ray self angle = Ok raw.
Proof. intros Hrect angle. apply cast_single_ray_total. exact Hrect. Qed.

(** On a rectangular grid with a non-zero ray count the fan is complete:
    [cast_rays] returns one record for each ray index below the count, and
    record [i] is built from the single ray cast at angle
    [agent.angle - half_fov + i * (FOV / NUM_RAYS)]. *)
Lemma cast_rays_records (self : Raycaster.t) :
  Maze.rectangular (Raycaster.maze self) ->
  GameSettings.NUM_RAYS (Raycaster.settings self) <> 0%Z ->
  let n := GameSettings.NUM_RAYS (Raycaster.settings self) in
  let d := GameSettings.FOV (Raycaster.settings self) / IZR n in
  let start := Player.angle (Raycaster.player self) - Raycaster.half_fov self in
  exists rays,
    Raycaster.cast_rays self = (Ok rays, Raycaster.with_delta_angle self d) /\
    List.length rays = Z.to_nat n /\
    forall i : nat, (i < Z.to_nat n)%nat ->
      exists raw,
        Raycaster._cast_single_ray self (start + INR i * d) = Ok raw /\
        nth_error rays i = Some (ray_of self (start + INR i * d) raw).
Proof.
  intros Hrect Hn n d start.
  destruct (cast_rays_spec self (cast_single_ray_total_rect self Hrect) Hn)
    as [rays [Hcast Hall]].
  fold n in Hcast, Hall. fold d in Hcast, Hall. fold start in Hall.
  exists rays. split; [exact Hcast|].
  assert (Hlen : List.length rays = Z.to_nat n).
  { rewrite (Forall2_length_eq _ _ _ Hall). apply range_length. }
  split; [exact Hlen|].
  intros i Hi.
  destruct (Forall2_nth_error_l _ _ _ Hall i (Z.of_nat i) (range_nth n i Hi))
    as [r [Hr Hat]].
  apply ray_at_inv in Hat. destruct Hat as [raw [Hraw ->]].
  rewrite <- INR_IZR_INZ in Hraw, Hr.
  exists raw. split; [exact Hraw | exact Hr].
Qed.

Lemma fan_offset_bounds (fov : R) (n : Z) (i : nat) :
  0 < fov -> (i < Z.to_nat n)%nat ->
  0 <= INR i * (fov / IZR n) < fov.
Proof.
  intros Hfov Hi.
  assert (Hn : (0 < n)%Z) by lia.
  assert (HnR : 0 < IZR n) by (apply (IZR_lt 0); exact Hn).
  assert (HiR : 0 <= INR i) by apply pos_INR.
  assert (Hlt : INR i < IZR n).
  { rewrite INR_IZR_INZ. apply IZR_lt. lia. }
  assert (Hd : 0 < fov / IZR n) by (apply Rdiv_lt_0_compat; assumption).
  split.
  - apply Rmult_le_pos; lra.
  - replace fov with (IZR n * (fov / IZR n)) at 2 by (field; lra).
    apply Rmult_lt_compat_r; assumption.
Qed.

(** [__init__] leaves the cached half field of view in step with [FOV],
    and the performance adaptation never reassigns [FOV]. *)
Lemma init_fov_in_step (p : Player.t) (m : Maze.t) (s : GameSettings.t)
    (self : Raycaster.t) :
  Raycaster.init p m s = Ok self -> fov_in_step self.
Proof.
  unfold Raycaster.init, Raycaster._update_settings, truediv. simpl.
  destruct (Req_dec_T _ 0) as [E|N]; intros H; [discriminate H|].
  injection H as <-. reflexivity.
Qed.

Lemma adapt_performance_fov (s : GameSettings.t) (fps : R) :
  GameSettings.FOV (snd (GameSettings.adapt_performance s fps)) = GameSettings.FOV s.
Proof.
  unfold GameSettings.adapt_performance.
  destruct (Rlt_dec fps 30); [reflexivity|].
  destruct (Rlt_dec 55 fps); reflexivity.
Qed.

Lemma fov_in_step_preserved (self : Raycaster.t) (p : Player.t) (fps : R) :
  fov_in_step self ->
  fov_in_step
    (Raycaster.with_settings (Raycaster.with_player self p)
       (snd (GameSettings.adapt_performance (Raycaster.settings self) fps))).
Proof.
  unfold fov_in_step. simpl. intros H.
  rewrite adapt_performance_fov. exact H.
Qed.

(** C1. On a rectangular grid, with a positive ray count and a positive
    field of view whose half the raycaster holds, [cast_rays] returns
    exactly [num_rays] records in ray-index order; record [i] has the angle
    [agent.angle - fov/2 + i * (fov/num_rays)], which lies in
    [[agent.angle - fov/2, agent.angle + fov/2)], and consecutive records
    are [fov/num_rays] apart. *)
Theorem cast_rays_fan (self : Raycaster.t) :
  Maze.rectangular (Raycaster.maze self) ->
  fov_in_step self ->
  (0 < GameSettings.NUM_RAYS (Raycaster.settings self))%Z ->
  0 < GameSettings.FOV (Raycaster.settings self) ->
  let n := GameSettings.NUM_RAYS (Raycaster.settings self) in
  let fov := GameSettings.FOV (Raycaster.settings self) in
  let a := Player.angle (Raycaster.player self) in
  exists rays self',
    Raycaster.cast_rays self = (Ok rays, self') /\
    List.length rays = Z.to_nat n /\
    (forall i : nat, (i < Z.to_nat n)%nat ->
       exists r, nth_error rays i = Some r /\
         Raycaster.angle r = a - fov / 2 + INR i * (fov / IZR n) /\
         a - fov / 2 <= Raycaster.angle r < a + fov / 2) /\
    (forall (i : nat) (r r' : Raycaster.ray),
       nth_error rays i = Some r -> nth_error rays (S i) = Some r' ->
       Raycaster.angle r' - Raycaster.angle r = fov / IZR n).
Proof.
  intros Hrect Hhalf Hn Hfov n fov a.
  destruct (cast_rays_spec self (cast_single_ray_total_rect self Hrect))
    as [rays [Hcast Hall]]; [fold n; lia|].
  fold n in Hcast, Hall. fold fov in Hcast, Hall. fold a in Hall.
  unfold fov_in_step in Hhalf. fold fov in Hhalf. rewrite Hhalf in Hall.
  exists rays, (Raycaster.with_delta_angle self (fov / IZR n)).
  assert (Hlen : List.length rays = Z.to_nat n).
  { rewrite (Forall2_length_eq _ _ _ Hall). apply range_length. }
  assert (Hangle : forall i r, nth_error rays i = Some r ->
            (i < Z.to_nat n)%nat /\
            Raycaster.angle r = a - fov / 2 + INR i * (fov / IZR n)).
  { intros i r Hr.
    assert (Hi : (i < Z.to_nat n)%nat).
    { rewrite <- Hlen. apply nth_error_Some. rewrite Hr. discriminate. }
    split; [exact Hi|].
    destruct (Forall2_nth_error_r _ _ _ Hall i r Hr) as [z [Hz Hat]].
    rewrite (range_nth n i Hi) in Hz. injection Hz as <-.
    apply ray_at_inv in Hat. destruct Hat as [raw [_ ->]].
    simpl. rewrite <- INR_IZR_INZ. reflexivity. }
  split; [exact Hcast|]. split; [exact Hlen|]. split.
  - intros i Hi.
    destruct (nth_error rays i) as [r|] eqn:Hr.
    + exists r. split; [reflexivity|].
      destruct (Hangle i r Hr) as [_ Ha]. split; [exact Ha|].
      rewrite Ha. pose proof (fan_offset_bounds fov n i Hfov Hi). lra.
    + apply nth_error_None in Hr. lia.
  - intros i r r' Hr Hr'.
    destruct (Hangle i r Hr) as [_ ->].
    destruct (Hangle (S i) r' Hr') as [_ ->].
    rewrite S_INR. lra.
Qed.

Lemma cast_rays_fan_witness :
  exists rays self',
    Raycaster.cast_rays demo_cast = (Ok rays, self') /\
    List.length rays = 120%nat /\
    (forall i : nat, (i < 120)%nat ->
       exists r, nth_error rays i = Some r /\
         Raycaster.angle r = 0 - 60 / 2 + INR i * (60 / 120) /\
         0 - 60 / 2 <= Raycaster.angle r < 0 + 60 / 2) /\
    (forall (i : nat) (r r' : Raycaster.ray),
       nth_error rays i = Some r -> nth_error rays (S i) = Some r' ->
       Raycaster.angle r' - Raycaster.angle r = 60 / 120).
Proof.
  apply (cast_rays_fan demo_cast).
  - exact demo_maze_rectangular.
  - unfold fov_in_step. simpl. lra.
  - simpl. lia.
  - simpl. lra.
Defined.

(** C10. [cast_rays] leaves the player, the maze, the settings and the
    cached [half_fov] as they were, whether it returns or raises; the only
    attribute it can rewrite is [delta_angle]. *)
Theorem cast_rays_frame (self : Raycaster.t) :
  let self' := snd (Raycaster.cast_rays self) in
  Raycaster.player self' = Raycaster.player self /\
  Raycaster.maze self' = Raycaster.maze self /\
  Raycaster.settings self' = Raycaster.settings self /\
  Raycaster.half_fov self' = Raycaster.half_fov self /\
  (self' = self \/
   self' = Raycaster.with_delta_angle self
             (GameSettings.FOV (Raycaster.settings self) /
              IZR (GameSettings.NUM_RAYS (Raycaster.settings self)))).
Proof.
  unfold Raycaster.cast_rays, Raycaster._update_settings, truediv.
  destruct (Req_dec_T _ 0) as [E|N]; simpl.
  - repeat split; try reflexivity. left. reflexivity.
  - repeat split; try reflexivity. right. reflexivity.
Qed.

(** C5. On a rectangular grid with a non-zero ray count [cast_rays]
    returns the whole fan, one record for each ray index below the count,
    and the record of ray [i], cast at
    [angle_i = agent.angle - half_fov + i * (FOV / NUM_RAYS)], carries the
    raw marching distance of [_cast_single_ray] at [angle_i] multiplied by
    [cos(radians(angle_i - agent.angle))]; for a ray cast along the agent's
    angle the two distances are equal. *)
Theorem fisheye_correction (self : Raycaster.t) :
  Maze.rectangular (Raycaster.maze self) ->
  GameSettings.NUM_RAYS (Raycaster.settings self) <> 0%Z ->
  let n := GameSettings.NUM_RAYS (Raycaster.settings self) in
  let fov := GameSettings.FOV (Raycaster.settings self) in
  let a := Player.angle (Raycaster.player self) in
  exists rays self',
    Raycaster.cast_rays self = (Ok rays, self') /\
    List.length rays = Z.to_nat n /\
    forall i : nat, (i < Z.to_nat n)%nat ->
      exists r raw,
        nth_error rays i = Some r /\
        Raycaster.angle r = a - Raycaster.half_fov self + INR i * (fov / IZR n) /\
        Raycaster._cast_single_ray self (Raycaster.angle r) = Ok raw /\
        Raycaster.distance r =
          Raycaster.rd_distance raw * cos (radians (Raycaster.angle r - a)) /\
        (Raycaster.angle r = a ->
         Raycaster.distance r = Raycaster.rd_distance raw).
Proof.
  intros Hrect Hn n fov a.
  destruct (cast_rays_records self Hrect Hn) as [rays [Hcast [Hlen Hall]]].
  fold n in Hcast, Hlen, Hall. fold fov in Hcast, Hall. fold a in Hall.
  eexists rays, _. split; [exact Hcast|]. split; [exact Hlen|].
  intros i Hi. destruct (Hall i Hi) as [raw [Hraw Hr]].
  eexists _, raw. split; [exact Hr|]. cbn [Raycaster.angle Raycaster.distance ray_of].
  split; [reflexivity|]. split; [exact Hraw|]. split; [reflexivity|].
  fold a. intros Ha. rewrite Ha.
  replace (a - a) with 0 by lra.
  rewrite radians_0, cos_0. lra.
Qed.

Lemma fisheye_correction_witness :
  exists rays self' r raw,
    Raycaster.cast_rays demo_cast = (Ok rays, self') /\
    List.length rays = 120%nat /\
    nth_error rays 60 = Some r /\
    Raycaster.angle r = 0 /\
    Raycaster._cast_single_ray demo_cast 0 = Ok raw /\
    Raycaster.distance r = Raycaster.rd_distance raw.
Proof.
  destruct (fisheye_correction demo_cast) as [rays [self' [Hcast [Hlen Hall]]]].
  - exact demo_maze_rectangular.
  - simpl. lia.
  - destruct (Hall 60%nat) as [r [raw [Hr [Ha [Hraw [_ Hon]]]]]].
    + simpl. lia.
    + assert (Ha0 : Raycaster.angle r = 0).
      { rewrite Ha, INR_IZR_INZ. simpl. lra. }
      exists rays, self', r, raw.
      split; [exact Hcast|]. split; [exact Hlen|]. split; [exact Hr|].
      split; [exact Ha0|]. split; [rewrite <- Ha0; exact Hraw|].
      apply Hon. rewrite Ha0. reflexivity.
Defined.

(** ** Misconfigured quality parameters *)

Lemma cast_rays_zero (self : Raycaster.t) :
  GameSettings.NUM_RAYS (Raycaster.settings self) = 0%Z ->
  Raycaster.cast_rays self = (Raise ZeroDivisionError, self).
Proof.
  intros Hn. unfold Raycaster.cast_rays, Raycaster._update_settings.
  rewrite Hn, truediv_zero. reflexivity.
Qed.

Lemma cast_rays_negative (self : Raycaster.t) :
  (GameSettings.NUM_RAYS (Raycaster.settings self) < 0)%Z ->
  Raycaster.cast_rays self =
    (Ok [], Raycaster.with_delta_angle self
              (GameSettings.FOV (Raycaster.settings self) /
               IZR (GameSettings.NUM_RAYS (Raycaster.settings self)))).
Proof.
  intros Hn. unfold Raycaster.cast_rays, Raycaster._update_settings.
  rewrite truediv_nonzero by (apply not_0_IZR; lia).
  cbv zeta. simpl Raycaster.settings.
  rewrite range_nonpos by lia. reflexivity.
Qed.

(** A ray whose march ends without a wall returns the [no_hit] record. *)
Lemma no_hit_unique (self : Raycaster.t) (angle : R) (raw : Raycaster.ray_data) :
  hits_nothing self angle ->
  Raycaster._cast_single_ray self angle = Ok raw ->
  raw = Raycaster.no_hit self.
Proof.
  unfold hits_nothing, Raycaster._cast_single_ray. intros Hnone Hraw.
  rewrite Hnone in Hraw. simpl in Hraw. injection Hraw as <-. reflexivity.
Qed.

(** C2, as the code has it. With a ray count of zero [cast_rays] raises
    [ZeroDivisionError] and changes nothing; with a negative ray count it
    returns the empty sequence; with a positive ray count and a depth that
    is zero or negative it returns [num_rays] records, each the no-wall
    record with its distance multiplied by the fisheye cosine. *)
Theorem cast_rays_misconfigured (self : Raycaster.t) :
  let n := GameSettings.NUM_RAYS (Raycaster.settings self) in
  let depth := GameSettings.MAX_DEPTH (Raycaster.settings self) in
  let a := Player.angle (Raycaster.player self) in
  (n = 0%Z -> Raycaster.cast_rays self = (Raise ZeroDivisionError, self)) /\
  ((n < 0)%Z -> exists self', Raycaster.cast_rays self = (Ok [], self')) /\
  ((0 < n)%Z -> depth <= 0 ->
   exists rays self',
     Raycaster.cast_rays self = (Ok rays, self') /\
     List.length rays = Z.to_nat n /\
     forall r, In r rays ->
       Raycaster.distance r = depth * cos (radians (Raycaster.angle r - a)) /\
       Raycaster.wall_x r = 0 /\ Raycaster.wall_y r = 0 /\
       Raycaster.texture_u r = 0 /\ Raycaster.hit_vertical r = false).
Proof.
  intros n depth a. split; [|split].
  - apply cast_rays_zero.
  - intros Hn. eexists. apply cast_rays_negative. exact Hn.
  - intros Hn Hd.
    assert (Htotal : forall angle, exists raw,
               Raycaster._cast_single_ray self angle = Ok raw).
    { intros angle. eexists. apply cast_single_ray_no_steps. exact Hd. }
    destruct (cast_rays_spec self Htotal) as [rays [Hcast Hall]]; [fold n; lia|].
    eexists rays, _. split; [exact Hcast|]. split.
    + rewrite (Forall2_length_eq _ _ _ Hall). apply range_length.
    + intros r Hin. apply In_nth_error in Hin. destruct Hin as [i Hi].
      destruct (Forall2_nth_error_r _ _ _ Hall i r Hi) as [z [_ Hat]].
      apply ray_at_inv in Hat. destruct Hat as [raw [Hraw ->]].
      destruct (cast_single_ray_no_steps self
                  (Player.angle (Raycaster.player self) - Raycaster.half_fov self +
                   IZR z * (GameSettings.FOV (Raycaster.settings self) /
                            IZR (GameSettings.NUM_RAYS (Raycaster.settings self))))
                  Hd) as [_ Hsent].
      rewrite Hsent in Hraw. injection Hraw as <-.
      simpl. repeat split; reflexivity.
Qed.

Lemma cast_rays_misconfigured_witness :
  exists self', Raycaster.cast_rays negative_rays_cast = (Ok [], self').
Proof.
  apply (cast_rays_misconfigured negative_rays_cast).
  simpl. lia.
Defined.

(** C2, as stated, fails: with [NUM_RAYS = 0] the cast raises. *)
Lemma cast_rays_zero_rays_raises :
  (GameSettings.NUM_RAYS (Raycaster.settings zero_rays_cast) <= 0)%Z /\
  Raycaster.cast_rays zero_rays_cast = (Raise ZeroDivisionError, zero_rays_cast).
Proof.
  split; [simpl; lia|].
  apply cast_rays_zero. reflexivity.
Qed.

(** ** Rays that meet no wall *)

Lemma march_all_open (self : Raycaster.t) (dx dy : R) (indices : list Z) :
  (forall i, In i indices ->
     Maze.is_wall (Raycaster.maze self)
       (int (Player.x (Raycaster.player self) + dx * (IZR i * Raycaster.step)))
       (int (Player.y (Raycaster.player self) + dy * (IZR i * Raycaster.step)))
     = Ok false) ->
  Raycaster.march self dx dy indices = Ok None.
Proof.
  induction indices as [|i rest IH]; intros Hopen; simpl.
  - reflexivity.
  - rewrite (Hopen i) by (left; reflexivity). simpl.
    apply IH. intros j Hj. apply Hopen. right. exact Hj.
Qed.

(** With a depth of a quarter of a cell no ray leaves the open spawn cell. *)
Lemma short_depth_hits_nothing (angle : R) : hits_nothing short_depth_cast angle.
Proof.
  unfold hits_nothing. apply march_all_open. intros i Hi.
  change (GameSettings.MAX_DEPTH (Raycaster.settings short_depth_cast)) with 0.25 in Hi.
  unfold Raycaster.step in *.
  replace (int (0.25 / 0.02)) with 12%Z in Hi
    by (symmetry; apply int_nonneg; lra).
  apply range_In in Hi. destruct Hi as [Hlo Hhi].
  assert (H0 : 0 <= IZR i) by (apply (IZR_le 0); exact Hlo).
  assert (H11 : IZR i <= 11) by (apply IZR_le; lia).
  change (Player.x (Raycaster.player short_depth_cast)) with 1.5.
  change (Player.y (Raycaster.player short_depth_cast)) with 1.5.
  pose proof (COS_bound (radians angle)) as [Hc1 Hc2].
  pose proof (SIN_bound (radians angle)) as [Hs1 Hs2].
  set (c := cos (radians angle)) in *. set (s := sin (radians angle)) in *.
  set (d := IZR i * 0.02).
  assert (Hd : 0 <= d <= 0.22) by (unfold d; lra).
  assert (Hx : int (1.5 + c * d) = 1%Z).
  { apply int_nonneg; [nra|]. split; nra. }
  assert (Hy : int (1.5 + s * d) = 1%Z).
  { apply int_nonneg; [nra|]. split; nra. }
  rewrite Hx, Hy. reflexivity.
Qed.

Lemma cos_30_degrees : cos (radians (-30)) = sqrt 3 / 2.
Proof.
  unfold radians.
  replace (-30 * PI / 180) with (- (PI / 6)) by field.
  rewrite cos_neg. apply cos_PI6.
Qed.

Lemma sqrt_3_lt_2 : sqrt 3 < 2.
Proof.
  assert (H : sqrt 3 * sqrt 3 = 3) by (apply sqrt_sqrt; lra).
  assert (Hp : 0 <= sqrt 3) by apply sqrt_pos.
  nra.
Qed.

(** C3, as the code has it. On a rectangular grid with a non-zero ray
    count [cast_rays] returns the whole fan and raises nothing; the record
    of a ray that meets no wall has [max_depth] multiplied by
    [cos(radians(angle_i - agent.angle))] as its distance, zero for
    [wall_x], [wall_y] and [texture_u], and [hit_vertical] false; the
    distance is [max_depth] itself when the ray lies along the agent's
    angle. *)
Theorem no_hit_record (self : Raycaster.t) :
  Maze.rectangular (Raycaster.maze self) ->
  GameSettings.NUM_RAYS (Raycaster.settings self) <> 0%Z ->
  let n := GameSettings.NUM_RAYS (Raycaster.settings self) in
  let fov := GameSettings.FOV (Raycaster.settings self) in
  let depth := GameSettings.MAX_DEPTH (Raycaster.settings self) in
  let a := Player.angle (Raycaster.player self) in
  exists rays self',
    Raycaster.cast_rays self = (Ok rays, self') /\
    List.length rays = Z.to_nat n /\
    forall i : nat, (i < Z.to_nat n)%nat ->
      exists r,
        nth_error rays i = Some r /\
        Raycaster.angle r = a - Raycaster.half_fov self + INR i * (fov / IZR n) /\
        (hits_nothing self (Raycaster.angle r) ->
         Raycaster.distance r = depth * cos (radians (Raycaster.angle r - a)) /\
         Raycaster.wall_x r = 0 /\ Raycaster.wall_y r = 0 /\
         Raycaster.texture_u r = 0 /\ Raycaster.hit_vertical r = false /\
         (Raycaster.angle r = a -> Raycaster.distance r = depth)).
Proof.
  intros Hrect Hn n fov depth a.
  destruct (cast_rays_records self Hrect Hn) as [rays [Hcast [Hlen Hall]]].
  fold n in Hcast, Hlen, Hall. fold fov in Hcast, Hall. fold a in Hall.
  eexists rays, _. split; [exact Hcast|]. split; [exact Hlen|].
  intros i Hi. destruct (Hall i Hi) as [raw [Hraw Hr]].
  eexists. split; [exact Hr|].
  cbn [Raycaster.angle Raycaster.distance Raycaster.wall_x Raycaster.wall_y
       Raycaster.texture_u Raycaster.hit_vertical ray_of].
  split; [reflexivity|]. intros Hnone.
  rewrite (no_hit_unique self _ raw Hnone Hraw). fold a. simpl.
  repeat split; try reflexivity.
  intros Ha. rewrite Ha.
  replace (a - a) with 0 by lra.
  rewrite radians_0, cos_0. unfold depth. lra.
Qed.

Lemma no_hit_record_witness :
  exists rays self' r0 r60,
    Raycaster.cast_rays short_depth_cast = (Ok rays, self') /\
    List.length rays = 120%nat /\
    nth_error rays 0 = Some r0 /\
    Raycaster.angle r0 = -30 /\
    Raycaster.distance r0 = 0.25 * cos (radians (-30)) /\
    Raycaster.wall_x r0 = 0 /\ Raycaster.wall_y r0 = 0 /\
    Raycaster.texture_u r0 = 0 /\ Raycaster.hit_vertical r0 = false /\
    nth_error rays 60 = Some r60 /\
    Raycaster.angle r60 = 0 /\
    Raycaster.distance r60 = 0.25.
Proof.
  destruct (no_hit_record short_depth_cast) as [rays [self' [Hcast [Hlen Hall]]]].
  - exact demo_maze_rectangular.
  - simpl. lia.
  - destruct (Hall 0%nat) as [r0 [Hr0 [Ha0 H0]]]; [simpl; lia|].
    destruct (Hall 60%nat) as [r60 [Hr60 [Ha60 H60]]]; [simpl; lia|].
    assert (Ea0 : Raycaster.angle r0 = -30).
    { rewrite Ha0, INR_IZR_INZ. simpl. lra. }
    assert (Ea60 : Raycaster.angle r60 = 0).
    { rewrite Ha60, INR_IZR_INZ. simpl. lra. }
    destruct (H0 (short_depth_hits_nothing _)) as [Hd0 [Hx0 [Hy0 [Hu0 [Hv0 _]]]]].
    destruct (H60 (short_depth_hits_nothing _)) as [_ [_ [_ [_ [_ Hon]]]]].
    exists rays, self', r0, r60.
    split; [exact Hcast|]. split; [exact Hlen|]. split; [exact Hr0|].
    split; [exact Ea0|]. split.
    { rewrite Hd0, Ea0. simpl. f_equal. f_equal. f_equal. lra. }
    split; [exact Hx0|]. split; [exact Hy0|]. split; [exact Hu0|].
    split; [exact Hv0|]. split; [exact Hr60|]. split; [exact Ea60|].
    rewrite (Hon Ea60). reflexivity.
Defined.

(** C3, as stated, fails: the first ray of the fan of [short_depth_cast]
    meets no wall, and its record does not carry [max_depth]. *)
Lemma no_hit_distance_is_scaled :
  exists rays self' r,
    Raycaster.cast_rays short_depth_cast = (Ok rays, self') /\
    nth_error rays 0 = Some r /\
    hits_nothing short_depth_cast (Raycaster.angle r) /\
    Raycaster.distance r <>
      GameSettings.MAX_DEPTH (Raycaster.settings short_depth_cast).
Proof.
  destruct (cast_rays_spec short_depth_cast
              (cast_single_ray_total_rect short_depth_cast demo_maze_rectangular))
    as [rays [Hcast Hall]]; [simpl; lia|].
  assert (H0 : nth_error (range 120) 0 = Some 0%Z) by reflexivity.
  destruct (Forall2_nth_error_l _ _ _ Hall 0%nat 0%Z H0) as [r [Hr Hat]].
  apply ray_at_inv in Hat. destruct Hat as [raw [Hraw Heq]].
  exists rays. eexists. exists r. split; [exact Hcast|]. split; [exact Hr|].
  split; [apply short_depth_hits_nothing|].
  rewrite (no_hit_unique _ _ raw (short_depth_hits_nothing _) Hraw) in Heq.
  subst r. simpl.
  match goal with
  | |- _ * cos (radians ?d) <> _ => replace d with (-30) by lra
  end.
  rewrite cos_30_degrees. pose proof sqrt_3_lt_2. lra.
Qed.

(** ** Rays that meet a wall *)

(** The texture coordinate of a hit is the chosen hit coordinate minus its
    truncation. *)
Lemma march_hit_texture (self : Raycaster.t) (dx dy : R) (indices : list Z)
    (raw : Raycaster.ray_data) :
  Raycaster.march self dx dy indices = Ok (Some raw) ->
  let c := if Raycaster.rd_hit_vertical raw
           then Raycaster.rd_wall_y raw else Raycaster.rd_wall_x raw in
  Raycaster.rd_texture_u raw = c - IZR (int c).
Proof.
  induction indices as [|i rest IH]; simpl; intros H.
  - discriminate H.
  - destruct (Maze.is_wall _ _ _) as [[|]|e]; simpl in H.
    + injection H as <-. simpl.
      destruct (negb _); reflexivity.
    + apply IH. exact H.
    + discriminate H.
Qed.

(** A wall cell under the player stops the march at index 0. *)
Lemma march_hit_at_start (self : Raycaster.t) (dx dy : R) (rest : list Z) :
  let px := Player.x (Raycaster.player self) in
  let py := Player.y (Raycaster.player self) in
  Maze.is_wall (Raycaster.maze self) (int px) (int py) = Ok true ->
  int (px - dx * Raycaster.step) = int px ->
  Raycaster.march self dx dy (0%Z :: rest) =
    Ok (Some {| Raycaster.rd_distance := 0;
                Raycaster.rd_wall_x := px;
                Raycaster.rd_wall_y := py;
                Raycaster.rd_texture_u := px - IZR (int px);
                Raycaster.rd_hit_vertical := false |}).
Proof.
  intros px py Hwall Hprev. simpl. fold px. fold py.
  replace (px + dx * (0 * Raycaster.step)) with px by lra.
  replace (py + dy * (0 * Raycaster.step)) with py by lra.
  rewrite Hwall. simpl.
  replace (px + dx * (0 * Raycaster.step - Raycaster.step))
    with (px - dx * Raycaster.step) by lra.
  rewrite Hprev, Z.eqb_refl. simpl.
  repeat f_equal; lra.
Qed.

Lemma default_depth_range :
  exists rest, range (int (15 / Raycaster.step)) = 0%Z :: rest.
Proof.
  unfold Raycaster.step.
  replace (int (15 / 0.02)) with 750%Z by (symmetry; apply int_nonneg; lra).
  apply range_pos. lia.
Qed.

(** Open cells at the head of the index list are marched through. *)
Lemma march_skip_open (self : Raycaster.t) (dx dy : R) (open rest : list Z) :
  (forall i, In i open ->
     Maze.is_wall (Raycaster.maze self)
       (int (Player.x (Raycaster.player self) + dx * (IZR i * Raycaster.step)))
       (int (Player.y (Raycaster.player self) + dy * (IZR i * Raycaster.step)))
     = Ok false) ->
  Raycaster.march self dx dy (open ++ rest) = Raycaster.march self dx dy rest.
Proof.
  induction open as [|i more IH]; intros Hopen; simpl.
  - reflexivity.
  - rewrite (Hopen i) by (left; reflexivity). simpl.
    apply IH. intros j Hj. apply Hopen. right. exact Hj.
Qed.

(** The ray cast east from the spawn point of [demo_maze] crosses the open
    cells of row 1 and stops on the east wall, 2.5 cells away, across a
    vertical grid line. *)
Example demo_east_ray :
  hits demo_cast 0
    {| Raycaster.rd_distance := 2.5;
       Raycaster.rd_wall_x := 4;
       Raycaster.rd_wall_y := 1.5;
       Raycaster.rd_texture_u := 0.5;
       Raycaster.rd_hit_vertical := true |}.
Proof.
  unfold hits.
  change (GameSettings.MAX_DEPTH (Raycaster.settings demo_cast)) with 15.
  unfold Raycaster.step at 1.
  replace (int (15 / 0.02)) with 750%Z by (symmetry; apply int_nonneg; lra).
  replace (range 750) with (range 125 ++ 125%Z :: map Z.of_nat (seq 126 624))
    by (vm_compute; reflexivity).
  rewrite radians_0, cos_0, sin_0.
  rewrite march_skip_open.
  - cbn [Raycaster.march]. unfold Raycaster.step.
    change (Player.x (Raycaster.player demo_cast)) with 1.5.
    change (Player.y (Raycaster.player demo_cast)) with 1.5.
    int_is (1.5 + 1 * (125 * 0.02)) 4%Z.
    int_is (1.5 + 0 * (125 * 0.02)) 1%Z.
    int_is (1.5 + 1 * (125 * 0.02 - 0.02)) 3%Z.
    change (Maze.is_wall (Raycaster.maze demo_cast) 4 1) with (@Ok bool true).
    cbn [Py.bind negb Z.eqb Pos.eqb].
    repeat f_equal; lra.
  - intros i Hi. apply range_In in Hi. destruct Hi as [Hlo Hhi].
    assert (H0 : 0 <= IZR i) by (apply (IZR_le 0); exact Hlo).
    assert (H1 : IZR i <= 124) by (apply IZR_le; lia).
    unfold Raycaster.step.
    change (Player.x (Raycaster.player demo_cast)) with 1.5.
    change (Player.y (Raycaster.player demo_cast)) with 1.5.
    replace (int (1.5 + 0 * (IZR i * 0.02))) with 1%Z
      by (symmetry; apply int_nonneg; lra).
    set (x := 1.5 + 1 * (IZR i * 0.02)).
    assert (Hx : 1.5 <= x <= 3.98) by (unfold x; lra).
    destruct (Rlt_dec x 2) as [H2|H2]; [|destruct (Rlt_dec x 3) as [H3|H3]].
    + replace (int x) with 1%Z by (symmetry; apply int_nonneg; lra). reflexivity.
    + replace (int x) with 2%Z by (symmetry; apply int_nonneg; lra). reflexivity.
    + replace (int x) with 3%Z by (symmetry; apply int_nonneg; lra). reflexivity.
Qed.

(** C9, as the code has it. When the march of a ray stops at a wall, the
    texture coordinate is the hit point's y-coordinate (for a vertical hit)
    or x-coordinate (otherwise) minus its truncation toward zero.  It lies
    strictly between -1 and 1, and in [[0, 1)] when that coordinate is not
    negative. *)
Theorem texture_u_range (self : Raycaster.t) (angle : R) (raw : Raycaster.ray_data) :
  hits self angle raw ->
  let c := if Raycaster.rd_hit_vertical raw
           then Raycaster.rd_wall_y raw else Raycaster.rd_wall_x raw in
  Raycaster._cast_single_ray self angle = Ok raw /\
  Raycaster.rd_texture_u raw = c - IZR (int c) /\
  -1 < Raycaster.rd_texture_u raw < 1 /\
  (0 <= c -> 0 <= Raycaster.rd_texture_u raw < 1).
Proof.
  intros Hhit c. split; [|split; [|split]].
  - unfold hits in Hhit. unfold Raycaster._cast_single_ray.
    rewrite Hhit. reflexivity.
  - apply (march_hit_texture _ _ _ _ _ Hhit).
  - rewrite (march_hit_texture _ _ _ _ _ Hhit). apply int_frac_bounds.
  - intros Hc. rewrite (march_hit_texture _ _ _ _ _ Hhit).
    apply int_frac_nonneg. exact Hc.
Qed.

Lemma texture_u_range_witness :
  Raycaster._cast_single_ray demo_cast 0 =
    Ok {| Raycaster.rd_distance := 2.5;
          Raycaster.rd_wall_x := 4;
          Raycaster.rd_wall_y := 1.5;
          Raycaster.rd_texture_u := 0.5;
          Raycaster.rd_hit_vertical := true |} /\
  0.5 = 1.5 - IZR (int 1.5) /\
  -1 < 0.5 < 1 /\
  (0 <= 1.5 -> 0 <= 0.5 < 1).
Proof.
  exact (texture_u_range demo_cast 0 _ demo_east_ray).
Defined.

(** The ray cast east from half a cell west of the grid: [int] maps the
    position to the corner wall cell. *)
Lemma west_of_grid_hit :
  hits west_of_grid_cast 0
    {| Raycaster.rd_distance := 0;
       Raycaster.rd_wall_x := -0.5;
       Raycaster.rd_wall_y := 0.5;
       Raycaster.rd_texture_u := -0.5 - IZR (int (-0.5));
       Raycaster.rd_hit_vertical := false |}.
Proof.
  unfold hits.
  change (GameSettings.MAX_DEPTH (Raycaster.settings west_of_grid_cast)) with 15.
  destruct default_depth_range as [rest ->].
  apply (march_hit_at_start west_of_grid_cast).
  - change (Player.x (Raycaster.player west_of_grid_cast)) with (-0.5).
    change (Player.y (Raycaster.player west_of_grid_cast)) with 0.5.
    int_is (-0.5) 0%Z. int_is 0.5 0%Z. reflexivity.
  - change (Player.x (Raycaster.player west_of_grid_cast)) with (-0.5).
    rewrite radians_0, cos_0. unfold Raycaster.step.
    int_is (-0.5 - 1 * 0.02) 0%Z. int_is (-0.5) 0%Z. reflexivity.
Qed.

(** C9, as stated, fails: the hit of that ray has a negative texture
    coordinate. *)
Lemma texture_u_negative :
  exists raw,
    hits west_of_grid_cast 0 raw /\
    Raycaster._cast_single_ray west_of_grid_cast 0 = Ok raw /\
    Raycaster.rd_hit_vertical raw = false /\
    Raycaster.rd_texture_u raw = -0.5 /\
    ~ (0 <= Raycaster.rd_texture_u raw < 1).
Proof.
  eexists. split; [exact west_of_grid_hit|].
  split.
  - unfold Raycaster._cast_single_ray.
    pose proof west_of_grid_hit as H. unfold hits in H. rewrite H. reflexivity.
  - simpl. split; [reflexivity|].
    int_is (-0.5) 0%Z. split; lra.
Qed.

(* ================================================================== *)
(** * Further properties of the modelled code *)
(* ================================================================== *)

(** ** Truncation *)

(** [int x] is within one of [x], below it for a non-negative [x] and above
    it for a negative one. *)
Lemma int_spec (x : R) :
  (0 <= x /\ IZR (int x) <= x < IZR (int x) + 1) \/
  (x < 0 /\ IZR (int x) - 1 < x <= IZR (int x)).
Proof.
  destruct (Rle_dec 0 x) as [Hp|Hn].
  - left. split; [exact Hp|]. pose proof (int_frac_nonneg x Hp). lra.
  - right. assert (Hx : x <= 0) by lra.
    pose proof (int_frac_nonpos x Hx). lra.
Qed.

Lemma IZR_lt_succ (k l : Z) : IZR k < IZR l + 1 -> (k <= l)%Z.
Proof.
  intros H. change 1 with (IZR 1) in H. rewrite <- plus_IZR in H.
  apply lt_IZR in H. lia.
Qed.

Lemma int_sign_nonneg (x : R) : 0 <= x -> (0 <= int x)%Z.
Proof.
  intros Hx. destruct (int_spec x) as [[_ H]|[H _]]; [|lra].
  apply IZR_lt_succ. simpl. lra.
Qed.

Lemma int_sign_neg (x : R) : x < 0 -> (int x <= 0)%Z.
Proof.
  intros Hx. destruct (int_spec x) as [[H _]|[_ H]]; [lra|].
  apply IZR_lt_succ. simpl. lra.
Qed.

Lemma int_mono (a b : R) : a <= b -> (int a <= int b)%Z.
Proof.
  intros Hab.
  destruct (int_spec a) as [[Ha Ha']|[Ha Ha']];
    destruct (int_spec b) as [[Hb Hb']|[Hb Hb']]; try lra.
  - apply IZR_lt_succ. lra.
  - pose proof (int_sign_neg a Ha). pose proof (int_sign_nonneg b Hb). lia.
  - apply IZR_lt_succ. lra.
Qed.

Lemma int_step (a b : R) : b <= a + 1 -> (int b <= int a + 1)%Z.
Proof.
  intros Hab.
  assert (H : IZR (int b) < IZR (int a + 1) + 1 -> (int b <= int a + 1)%Z)
    by apply IZR_lt_succ.
  rewrite plus_IZR in H.
  destruct (int_spec a) as [[Ha Ha']|[Ha Ha']];
    destruct (int_spec b) as [[Hb Hb']|[Hb Hb']].
  - apply H. lra.
  - pose proof (int_sign_nonneg a Ha). pose proof (int_sign_neg b Hb). lia.
  - apply H. lra.
  - apply H. lra.
Qed.

(** A point of an interval no longer than one cell truncates like one of
    the two ends. *)
Lemma int_between (a x b : R) :
  a <= x <= b -> b <= a + 1 -> int x = int a \/ int x = int b.
Proof.
  intros [Hax Hxb] Hlen.
  pose proof (int_mono a x Hax). pose proof (int_mono x b Hxb).
  pose proof (int_step a b Hlen). lia.
Qed.

Lemma int_IZR (z : Z) : int (IZR z) = z.
Proof.
  destruct (Z_le_gt_dec 0 z) as [Hz|Hz].
  - apply int_nonneg; [apply (IZR_le 0); exact Hz | lra].
  - apply int_nonpos; [apply (IZR_le z 0); lia | lra].
Qed.

(** ** The grid maze, continued *)

(** X1. No cell is both a wall and an exit. *)
Theorem wall_exit_exclusive (m : Maze.t) (x y : Z) :
  Maze.is_wall m x y = Ok true -> Maze.is_exit m x y <> Ok true.
Proof.
  unfold Maze.is_wall, Maze.is_exit.
  destruct (Maze.out_of_bounds m x y); [intros _ Hf; discriminate Hf|].
  destruct (Maze.cell m x y) as [c|e]; simpl; [|intros Hf; discriminate Hf].
  intros Hw He. injection Hw as Hw. injection He as He.
  apply Z.eqb_eq in Hw. apply Z.eqb_eq in He. lia.
Qed.

Lemma wall_exit_exclusive_witness :
  Maze.is_exit demo_maze 0 0 <> Ok true.
Proof.
  apply (wall_exit_exclusive demo_maze 0 0). reflexivity.
Defined.

(** X2. [Maze.__init__] raises [IndexError] on an empty table entry.  On an
    entry whose rows are all as long as the first it returns a rectangular
    maze with the entry's spawn point, on which [is_wall] and [is_exit]
    answer every query. *)
Theorem maze_init_queries (data : list (list Z)) (spawn : R * R) :
  (data = [] -> Maze.init data spawn = Raise IndexError) /\
  (forall row0 rest, data = row0 :: rest ->
     Forall (fun row => len row = len row0) data ->
     exists m,
       Maze.init data spawn = Ok m /\
       Maze.rectangular m /\
       (Maze.spawn_x m, Maze.spawn_y m) = spawn /\
       forall x y, exists w e,
         Maze.is_wall m x y = Ok w /\ Maze.is_exit m x y = Ok e).
Proof.
  split.
  - intros ->. reflexivity.
  - intros row0 rest -> Hall. eexists. split; [reflexivity|].
    assert (Hrect : Maze.rectangular
              {| Maze.maze_data := row0 :: rest; Maze.width := len row0;
                 Maze.height := len (row0 :: rest);
                 Maze.spawn_x := fst spawn; Maze.spawn_y := snd spawn |}).
    { split; [reflexivity | exact Hall]. }
    split; [exact Hrect|]. split; [destruct spawn; reflexivity|].
    intros x y.
    destruct (is_wall_total _ Hrect x y) as [w Hw].
    destruct (is_exit_total _ Hrect x y) as [e He].
    exists w, e. split; assumption.
Qed.

Lemma maze_init_queries_witness :
  exists m,
    Maze.init demo_grid (1.5, 1.5) = Ok m /\
    Maze.rectangular m /\
    (Maze.spawn_x m, Maze.spawn_y m) = (1.5, 1.5) /\
    forall x y, exists w e,
      Maze.is_wall m x y = Ok w /\ Maze.is_exit m x y = Ok e.
Proof.
  apply (proj2 (maze_init_queries demo_grid (1.5, 1.5)) _ _ eq_refl).
  repeat constructor.
Defined.

Lemma getitem_short {A} (l : list A) (i : Z) :
  (0 <= i)%Z -> (len l <= i)%Z -> getitem l i = Raise IndexError.
Proof.
  intros Hlo Hhi. unfold getitem.
  destruct (Z.ltb_spec i 0) as [Hneg|_]; [lia|].
  destruct (Z.ltb_spec i 0) as [Hneg|_]; [lia|].
  destruct (nth_error l (Z.to_nat i)) as [a|] eqn:E; [|reflexivity].
  assert (Hlt : (Z.to_nat i < List.length l)%nat).
  { apply nth_error_Some. rewrite E. discriminate. }
  unfold len in Hhi. lia.
Qed.

(** X3. On a grid with a short row the bounds check does not protect the
    subscript: a query inside [width] x [height] that falls beyond the end
    of its row raises [IndexError] in both [is_wall] and [is_exit]. *)
Theorem short_row_raises (m : Maze.t) (x y : Z) (row : list Z) :
  (0 <= x < Maze.width m)%Z -> (0 <= y < Maze.height m)%Z ->
  nth_error (Maze.maze_data m) (Z.to_nat y) = Some row ->
  (len row <= x)%Z ->
  Maze.is_wall m x y = Raise IndexError /\
  Maze.is_exit m x y = Raise IndexError.
Proof.
  intros Hx Hy Hrow Hshort.
  assert (Hin : Maze.out_of_bounds m x y = false)
    by (apply out_of_bounds_false; split; assumption).
  assert (Hcell : Maze.cell m x y = Raise IndexError).
  { unfold Maze.cell, getitem.
    destruct (Z.ltb_spec y 0) as [Hneg|_]; [lia|].
    destruct (Z.ltb_spec y 0) as [Hneg|_]; [lia|].
    rewrite Hrow. simpl. apply getitem_short; lia. }
  unfold Maze.is_wall, Maze.is_exit. rewrite Hin, Hcell. split; reflexivity.
Qed.

Lemma short_row_raises_witness :
  Maze.is_wall ragged_maze 2 1 = Raise IndexError /\
  Maze.is_exit ragged_maze 2 1 = Raise IndexError.
Proof.
  apply (short_row_raises ragged_maze 2 1 [1; 0]%Z).
  - simpl. lia.
  - simpl. lia.
  - reflexivity.
  - unfold len. simpl. lia.
Defined.

(** ** The player, continued *)

Lemma can_move_to_total (m : Maze.t) (x y radius : R) :
  Maze.rectangular m -> exists b, Player._can_move_to x y m radius = Ok b.
Proof.
  intros Hrect. unfold Player._can_move_to.
  destruct (corners_free_spec m Hrect
              [ (x - radius, y - radius); (x + radius, y - radius);
                (x - radius, y + radius); (x + radius, y + radius) ]) as [b [Hb _]].
  exists b. exact Hb.
Qed.

(** The collision step keeps a free hitbox free, keeps the angle, and moves
    each coordinate to its requested value or not at all. *)
Lemma try_move_keeps_hitbox (m : Maze.t) (radius : R) (p : Player.t)
    (new_x new_y : R) :
  Maze.rectangular m ->
  exists p',
    Player.try_move p new_x new_y m radius = (Ok tt, p') /\
    (hitbox_free m radius p -> hitbox_free m radius p') /\
    Player.angle p' = Player.angle p /\
    (Player.x p' = Player.x p \/ Player.x p' = new_x) /\
    (Player.y p' = Player.y p \/ Player.y p' = new_y).
Proof.
  intros Hrect. unfold Player.try_move, hitbox_free.
  destruct (can_move_to_total m new_x (Player.y p) radius Hrect) as [bx Hx].
  rewrite Hx. destruct bx; cbv zeta.
  - destruct (can_move_to_total m (Player.x (Player.with_x p new_x)) new_y radius Hrect)
      as [by_ Hy].
    rewrite Hy. destruct by_.
    + eexists. split; [reflexivity|]. simpl. simpl in Hy.
      split; [intros _; exact Hy|]. split; [reflexivity|].
      split; right; reflexivity.
    + eexists. split; [reflexivity|]. simpl.
      split; [intros _; exact Hx|]. split; [reflexivity|].
      split; [right | left]; reflexivity.
  - destruct (can_move_to_total m (Player.x p) new_y radius Hrect) as [by_ Hy].
    rewrite Hy. destruct by_.
    + eexists. split; [reflexivity|]. simpl.
      split; [intros _; exact Hy|]. split; [reflexivity|].
      split; [left | right]; reflexivity.
    + exists p. split; [reflexivity|].
      split; [intros H; exact H|]. split; [reflexivity|].
      split; left; reflexivity.
Qed.

(** The first half of [Player.update] leaves the position and normalises
    the angle. *)
Lemma update_intent_player (p : Player.t) (keys : Keys) (s : GameSettings.t) (dt : R) :
  let p1 := fst (fst (Player.update_intent p keys s dt)) in
  Player.x p1 = Player.x p /\ Player.y p1 = Player.y p /\
  0 <= Player.angle p1 <= 360.
Proof.
  unfold Player.update_intent.
  destruct (dict_get keys "turn_left" false), (dict_get keys "turn_right" false),
           (dict_get keys "forward" false), (dict_get keys "backward" false),
           (dict_get keys "strafe_left" false), (dict_get keys "strafe_right" false);
    simpl; (split; [reflexivity|]; split; [reflexivity|]; apply mod_360_range).
Qed.

(** What one [update] does while playing on a rectangular grid: the player
    moves to some [p'], the exit check runs on [p'], and nothing raises. *)
Lemma game_update_shape (g : Game.t) (keys : Keys) (dt : R) :
  Maze.rectangular (Game.maze g) ->
  Game.state g = Game.PLAYING ->
  exists p' at_exit,
    Game.update g keys dt = (Ok tt, after_exit_check g p' at_exit) /\
    Maze.is_exit (Game.maze g) (int (Player.x p')) (int (Player.y p')) = Ok at_exit /\
    0 <= Player.angle p' <= 360 /\
    (hitbox_free (Game.maze g) (update_radius g) (Game.player g) ->
     hitbox_free (Game.maze g) (update_radius g) p').
Proof.
  intros Hrect Hst. unfold Game.update, update_radius. rewrite Hst. simpl.
  destruct (Game.movement_context g) as [strategy|] eqn:Hctx.
  - destruct (@Movement.calculate_movement strategy keys (Game.player g) dt
                (Game.settings g)) as [[dx dy] da].
    destruct (try_move_keeps_hitbox (Game.maze g) Player.default_radius (Game.player g)
                (Player.x (Game.player g) + dx) (Player.y (Game.player g) + dy) Hrect)
      as [p1 [Hmove [Hbox [Hang _]]]].
    rewrite Hmove. cbv zeta.
    set (p' := Player.with_angle p1 (mod_ (Player.angle p1 + da) 360)).
    destruct (is_exit_total _ Hrect (int (Player.x p')) (int (Player.y p')))
      as [at_exit Hexit].
    exists p', at_exit. split; [|split; [exact Hexit|split]].
    + unfold Game.check_exit, after_exit_check.
      change (Game.maze (Game.with_player g p')) with (Game.maze g).
      change (Game.player (Game.with_player g p')) with p'.
      rewrite Hexit. destruct at_exit; reflexivity.
    + simpl. apply mod_360_range.
    + intros H. apply Hbox in H. exact H.
  - unfold Player.update.
    pose proof (update_intent_player (Game.player g) keys (Game.settings g) dt)
      as Hint.
    destruct (Player.update_intent (Game.player g) keys (Game.settings g) dt)
      as [[p1 dx] dy].
    simpl in Hint. destruct Hint as [Hx1 [Hy1 Ha1]].
    destruct (try_move_keeps_hitbox (Game.maze g)
                (GameSettings.PLAYER_RADIUS (Game.settings g)) p1
                (Player.x p1 + dx) (Player.y p1 + dy) Hrect)
      as [p' [Hmove [Hbox [Hang _]]]].
    rewrite Hmove.
    destruct (is_exit_total _ Hrect (int (Player.x p')) (int (Player.y p')))
      as [at_exit Hexit].
    rewrite Hexit.
    exists p', at_exit. split; [|split; [exact Hexit|split]].
    + unfold after_exit_check. destruct at_exit; [reflexivity|].
      unfold Game.check_exit.
      change (Game.maze (Game.with_player g p')) with (Game.maze g).
      change (Game.player (Game.with_player g p')) with p'.
      rewrite Hexit. reflexivity.
    + rewrite Hang. exact Ha1.
    + intros H. apply Hbox. unfold hitbox_free in *.
      rewrite Hx1, Hy1. exact H.
Qed.

Lemma after_exit_check_player (g : Game.t) (p' : Player.t) (b : bool) :
  Game.player (after_exit_check g p' b) = p' /\
  Game.maze (after_exit_check g p' b) = Game.maze g /\
  Game.settings (after_exit_check g p' b) = Game.settings g /\
  Game.movement_context (after_exit_check g p' b) = Game.movement_context g /\
  Game.state (after_exit_check g p' b) =
    (if b then Game.COMPLETED else Game.state g).
Proof. destruct b; repeat split; reflexivity. Qed.

(** X4. While playing on a rectangular grid, [Game.update] never raises and
    a player whose hitbox is clear of walls before the update has a clear
    hitbox after it, on the strategy path (radius 0.2) and on the fallback
    path (radius of the settings) alike. *)
Theorem update_keeps_hitbox (g : Game.t) (keys : Keys) (dt : R) :
  Maze.rectangular (Game.maze g) ->
  Game.state g = Game.PLAYING ->
  hitbox_free (Game.maze g) (update_radius g) (Game.player g) ->
  let g' := snd (Game.update g keys dt) in
  fst (Game.update g keys dt) = Ok tt /\
  hitbox_free (Game.maze g') (update_radius g') (Game.player g').
Proof.
  intros Hrect Hst Hbox.
  destruct (game_update_shape g keys dt Hrect Hst)
    as [p' [b [Hupd [_ [_ Hkeep]]]]].
  rewrite Hupd. simpl.
  destruct (after_exit_check_player g p' b) as [Hp [Hm [Hs [Hc _]]]].
  split; [reflexivity|].
  unfold update_radius. rewrite Hp, Hm, Hs, Hc.
  apply Hkeep. exact Hbox.
Qed.

Lemma demo_game_hitbox_free :
  hitbox_free (Game.maze demo_game) (update_radius demo_game) (Game.player demo_game).
Proof.
  unfold hitbox_free, update_radius, Player._can_move_to, Player.default_radius.
  change (Game.movement_context demo_game) with (Some Movement.NormalMovementStrategy).
  change (Player.x (Game.player demo_game)) with 3.6.
  change (Player.y (Game.player demo_game)) with 1.5.
  cbn [Player.corners_free].
  int_is (3.6 - 0.2) 3%Z. int_is (3.6 + 0.2) 3%Z.
  int_is (1.5 - 0.2) 1%Z. int_is (1.5 + 0.2) 1%Z.
  reflexivity.
Qed.

Lemma update_keeps_hitbox_witness :
  let g' := snd (Game.update demo_game diagonal_keys 0.1) in
  fst (Game.update demo_game diagonal_keys 0.1) = Ok tt /\
  hitbox_free (Game.maze g') (update_radius g') (Game.player g').
Proof.
  apply (update_keeps_hitbox demo_game diagonal_keys 0.1).
  - exact demo_maze_rectangular.
  - reflexivity.
  - exact demo_game_hitbox_free.
Defined.

(** X5. With a radius between 0 and half a cell, a position that
    [_can_move_to] accepts has its own cell free of wall: the cell under
    the centre is the cell of one of the four corners. *)
Theorem accepted_position_not_in_wall (m : Maze.t) (x y radius : R) :
  0 <= radius <= 0.5 ->
  Player._can_move_to x y m radius = Ok true ->
  Maze.is_wall m (int x) (int y) = Ok false.
Proof.
  intros Hr Hok. unfold Player._can_move_to in Hok. cbn [Player.corners_free] in Hok.
  destruct (int_between (x - radius) x (x + radius)) as [Hx|Hx]; try lra;
    destruct (int_between (y - radius) y (y + radius)) as [Hy|Hy]; try lra;
    rewrite Hx, Hy;
    destruct (Maze.is_wall m (int (x - radius)) (int (y - radius))) as [[|]|] eqn:E1;
    simpl in Hok; try discriminate Hok; try reflexivity;
    destruct (Maze.is_wall m (int (x + radius)) (int (y - radius))) as [[|]|] eqn:E2;
    simpl in Hok; try discriminate Hok; try reflexivity;
    destruct (Maze.is_wall m (int (x - radius)) (int (y + radius))) as [[|]|] eqn:E3;
    simpl in Hok; try discriminate Hok; try reflexivity;
    destruct (Maze.is_wall m (int (x + radius)) (int (y + radius))) as [[|]|] eqn:E4;
    simpl in Hok; try discriminate Hok; reflexivity.
Qed.

Lemma accepted_position_not_in_wall_witness :
  Maze.is_wall demo_maze (int 3.6) (int 1.5) = Ok false.
Proof.
  apply (accepted_position_not_in_wall demo_maze 3.6 1.5 0.2).
  - lra.
  - exact demo_game_hitbox_free.
Defined.

(** X6. While playing on a rectangular grid, the player's angle after
    [Game.update] lies in [[0, 360]], on both paths and whatever the angle
    was before; the upper end is included because [% 360] can round up to
    360 itself. *)
Theorem update_normalises_angle (g : Game.t) (keys : Keys) (dt : R) :
  Maze.rectangular (Game.maze g) ->
  Game.state g = Game.PLAYING ->
  0 <= Player.angle (Game.player (snd (Game.update g keys dt))) <= 360.
Proof.
  intros Hrect Hst.
  destruct (game_update_shape g keys dt Hrect Hst) as [p' [b [Hupd [_ [Ha _]]]]].
  rewrite Hupd. simpl.
  destruct (after_exit_check_player g p' b) as [-> _]. exact Ha.
Qed.

Lemma update_normalises_angle_witness :
  0 <= Player.angle (Game.player (snd (Game.update demo_game diagonal_keys 0.1))) <= 360.
Proof.
  apply (update_normalises_angle demo_game diagonal_keys 0.1).
  - exact demo_maze_rectangular.
  - reflexivity.
Defined.

(** X7. While playing on a rectangular grid, [Game.update] ends in the
    state COMPLETED exactly when the cell under the player after the move
    is the exit, and in PLAYING otherwise; the maze, the settings and the
    strategy are left as they were. *)
Theorem update_completes_on_exit (g : Game.t) (keys : Keys) (dt : R) :
  Maze.rectangular (Game.maze g) ->
  Game.state g = Game.PLAYING ->
  let g' := snd (Game.update g keys dt) in
  let p' := Game.player g' in
  (Game.state g' = Game.COMPLETED <->
   Maze.is_exit (Game.maze g) (int (Player.x p')) (int (Player.y p')) = Ok true) /\
  (Game.state g' = Game.PLAYING <->
   Maze.is_exit (Game.maze g) (int (Player.x p')) (int (Player.y p')) = Ok false) /\
  Game.maze g' = Game.maze g /\
  Game.settings g' = Game.settings g /\
  Game.movement_context g' = Game.movement_context g.
Proof.
  intros Hrect Hst.
  destruct (game_update_shape g keys dt Hrect Hst) as [p' [b [Hupd [Hexit _]]]].
  rewrite Hupd. simpl.
  destruct (after_exit_check_player g p' b) as [Hp [Hm [Hs [Hc Hstate]]]].
  rewrite Hp, Hm, Hs, Hc, Hstate, Hexit, Hst.
  repeat split; try reflexivity; destruct b; intros H;
    try reflexivity; try discriminate H.
Qed.

Lemma update_completes_on_exit_witness :
  let g' := snd (Game.update demo_game diagonal_keys 0.1) in
  Game.maze g' = Game.maze demo_game.
Proof.
  apply (update_completes_on_exit demo_game diagonal_keys 0.1).
  - exact demo_maze_rectangular.
  - reflexivity.
Defined.

(** ** Angles and straight moves *)

(** [% 360] leaves a number of [[0, 360)] alone and takes 360 to 0. *)
Lemma mod_360_fixed (y : R) : 0 <= y < 360 -> mod_ y 360 = y.
Proof.
  intros Hy.
  assert (Hi : int (y / 360) = 0%Z) by (apply int_nonneg; lra).
  assert (Hf : fmod y 360 = y) by (unfold fmod; rewrite Hi; lra).
  destruct (mod_360_cases y) as [[E ->]|[[_ ->]|[Hneg _]]]; lra.
Qed.

Lemma mod_360_360 : mod_ 360 360 = 0.
Proof.
  assert (Hi : int (360 / 360) = 1%Z) by (apply int_nonneg; lra).
  assert (Hf : fmod 360 360 = 0) by (unfold fmod; rewrite Hi; lra).
  destruct (mod_360_cases 360) as [[_ ->]|[[Hpos _]|[Hneg _]]]; lra.
Qed.

Lemma angle_range_of_450 :
  Player.angle (Player.set_angle demo_player 450) = 90 /\
  Player.angle (Player.set_angle demo_player 450) < 360.
Proof.
  unfold Player.set_angle. cbn [Player.angle Player.with_angle].
  assert (Hi : int (450 / 360) = 1%Z) by (apply int_nonneg; lra).
  assert (Hf : fmod 450 360 = 90) by (unfold fmod; rewrite Hi; lra).
  destruct (mod_360_cases 450) as [[E _]|[[_ ->]|[Hneg _]]]; lra.
Qed.

(** X9. Normalising a stored angle once more: [set_angle] called with the
    angle that [set_angle] has just stored leaves the player as it is when
    that angle is below 360, and stores 0 when it is 360; either way the
    angle after the second call lies in [[0, 360)], and the position is
    never touched. *)
Theorem set_angle_twice (p : Player.t) (a : R) :
  let p1 := Player.set_angle p a in
  let p2 := Player.set_angle p1 (Player.angle p1) in
  (Player.angle p1 < 360 -> p2 = p1) /\
  (Player.angle p1 = 360 -> Player.angle p2 = 0) /\
  0 <= Player.angle p2 < 360 /\
  Player.x p2 = Player.x p /\ Player.y p2 = Player.y p.
Proof.
  unfold Player.set_angle, Player.with_angle.
  cbn [Player.angle Player.x Player.y].
  pose proof (mod_360_range a) as Hr.
  set (b := mod_ a 360) in *.
  split; [|split; [|split]].
  - intros Hb. rewrite mod_360_fixed by lra. reflexivity.
  - intros Hb. rewrite Hb. apply mod_360_360.
  - destruct (Req_dec_T b 360) as [E|N].
    + rewrite E, mod_360_360. lra.
    + rewrite mod_360_fixed by lra. lra.
  - split; reflexivity.
Qed.

Lemma set_angle_twice_witness :
  Player.set_angle (Player.set_angle demo_player 450)
    (Player.angle (Player.set_angle demo_player 450))
  = Player.set_angle demo_player 450.
Proof.
  apply (set_angle_twice demo_player 450).
  destruct (angle_range_of_450) as [_ H]. exact H.
Defined.

(** X10. [move_forward] ignores the maze and carries the player exactly
    [|distance|] away from where it stood, along its direction vector,
    which has length one; the angle is kept. *)
Theorem move_forward_distance (p : Player.t) (d : R) :
  let p' := Player.move_forward p d in
  let '(ux, uy) := Player.get_direction_vector p in
  Player.distance_to p' (Player.x p) (Player.y p) = Rabs d /\
  Player.x p' = Player.x p + d * ux /\
  Player.y p' = Player.y p + d * uy /\
  ux * ux + uy * uy = 1 /\
  Player.angle p' = Player.angle p.
Proof.
  unfold Player.move_forward, Player.get_direction_vector, Player.distance_to.
  simpl. set (t := radians (Player.angle p)).
  pose proof (sin2_cos2 t) as Hsc. unfold Rsqr in Hsc.
  split; [|repeat split; try reflexivity; lra].
  replace ((Player.x p - (Player.x p + d * cos t)) *
           (Player.x p - (Player.x p + d * cos t)) +
           (Player.y p - (Player.y p + d * sin t)) *
           (Player.y p - (Player.y p + d * sin t)))
    with (Rsqr d).
  - apply sqrt_Rsqr_abs.
  - unfold Rsqr.
    replace ((Player.x p - (Player.x p + d * cos t)) *
             (Player.x p - (Player.x p + d * cos t)) +
             (Player.y p - (Player.y p + d * sin t)) *
             (Player.y p - (Player.y p + d * sin t)))
      with (d * d * (sin t * sin t + cos t * cos t)) by ring.
    rewrite Hsc. ring.
Qed.

(** ** Movement strategies *)

(** Splits on the six entries a strategy reads from the key dictionary. *)
Ltac split_keys keys :=
  destruct (dict_get keys "forward" false),
           (dict_get keys "backward" false),
           (dict_get keys "turn_left" false),
           (dict_get keys "turn_right" false),
           (dict_get keys "strafe_left" false),
           (dict_get keys "strafe_right" false).

Lemma no_key_released (name : string) :
  dict_get (InputHandler.get_movement_keys no_key_pressed) name false = false.
Proof.
  unfold dict_get, InputHandler.get_movement_keys, no_key_pressed.
  repeat (match goal with
          | |- context [String.eqb ?a ?b] => destruct (String.eqb a b)
          end; try reflexivity).
Qed.

(** The idle keyboard asks for nothing, whatever the difficulty. *)
Lemma idle_request_zero (d : Difficulty) (p : Player.t) (dt : R) (s : GameSettings.t) :
  let '(dx, dy, da) :=
    @Movement.calculate_movement
      (MovementStrategyFactory.create_for_difficulty d)
      (InputHandler.get_movement_keys no_key_pressed) p dt s in
  dx = 0 /\ dy = 0 /\ da = 0.
Proof.
  destruct d; unfold MovementStrategyFactory.create_for_difficulty,
    Movement.calculate_movement, Movement.EasyMovementStrategy,
    Movement.NormalMovementStrategy, Movement.HardMovementStrategy,
    Movement._basic_movement_calculation;
    rewrite !no_key_released; cbv beta iota zeta; repeat split; lra.
Qed.

(** X11. For the strategy of every difficulty, opposite keys cancel: with
    forward and backward in the same state and the two strafe keys in the
    same state the displacement is zero, and with the two turn keys in the
    same state the turn is zero.  A key missing from the dictionary counts
    as released, so the empty dictionary asks for nothing. *)
Theorem opposite_keys_cancel (d : Difficulty) (keys : Keys) (p : Player.t)
    (dt : R) (s : GameSettings.t) :
  let '(dx, dy, da) :=
    @Movement.calculate_movement
      (MovementStrategyFactory.create_for_difficulty d) keys p dt s in
  (dict_get keys "forward" false = dict_get keys "backward" false ->
   dict_get keys "strafe_left" false = dict_get keys "strafe_right" false ->
   dx = 0 /\ dy = 0) /\
  (dict_get keys "turn_left" false = dict_get keys "turn_right" false ->
   da = 0).
Proof.
  destruct d; simpl; unfold Movement._basic_movement_calculation;
    split_keys keys; simpl.
  all: split;
    [ intros H1 H2; try discriminate H1; try discriminate H2; split
    | intros H; try discriminate H ].
  all: field.
Qed.

Lemma opposite_keys_cancel_witness :
  let keys := InputHandler.get_movement_keys
                (fun k => match k with
                          | InputHandler.K_w | InputHandler.K_s => true
                          | _ => false
                          end) in
  let '(dx, dy, da) :=
    @Movement.calculate_movement
      (MovementStrategyFactory.create_for_difficulty HARD) keys demo_player 0.1
      GameSettings.init in
  dx = 0 /\ dy = 0.
Proof.
  pose proof (opposite_keys_cancel HARD
                (InputHandler.get_movement_keys
                   (fun k => match k with
                             | InputHandler.K_w | InputHandler.K_s => true
                             | _ => false
                             end))
                demo_player 0.1 GameSettings.init) as H.
  cbv zeta.
  destruct (@Movement.calculate_movement _ _ _ _ _) as [[dx dy] da].
  apply (proj1 H); reflexivity.
Defined.

(** X12. The displacement of [_basic_movement_calculation] has length
    [speed] with forward held alone, and length [speed * sqrt 2] with
    forward and strafe-left held together: a diagonal request moves the
    player farther than a straight one. *)
Theorem diagonal_is_longer (keys : Keys) (p : Player.t) (speed turn_speed : R) :
  dict_get keys "forward" false = true ->
  dict_get keys "backward" false = false ->
  dict_get keys "strafe_right" false = false ->
  let '(dx, dy, _) := Movement._basic_movement_calculation keys p speed turn_speed in
  (dict_get keys "strafe_left" false = false ->
   dx * dx + dy * dy = speed * speed) /\
  (dict_get keys "strafe_left" false = true ->
   dx * dx + dy * dy = 2 * (speed * speed)).
Proof.
  intros Hf Hb Hr. unfold Movement._basic_movement_calculation.
  rewrite Hf, Hb, Hr.
  set (t := radians (Player.angle p)).
  pose proof (sin2_cos2 t) as Hsc. unfold Rsqr in Hsc.
  destruct (dict_get keys "strafe_left" false),
           (dict_get keys "turn_left" false),
           (dict_get keys "turn_right" false); simpl;
    (split; intros H; try discriminate H).
  all: try (replace ((0 + speed * cos t - speed * sin t) *
                     (0 + speed * cos t - speed * sin t) +
                     (0 + speed * sin t + speed * cos t) *
                     (0 + speed * sin t + speed * cos t))
              with (2 * (speed * speed) * (sin t * sin t + cos t * cos t)) by ring;
            rewrite Hsc; ring).
  all: replace ((0 + speed * cos t) * (0 + speed * cos t) +
                (0 + speed * sin t) * (0 + speed * sin t))
         with (speed * speed * (sin t * sin t + cos t * cos t)) by ring;
       rewrite Hsc; ring.
Qed.

Lemma diagonal_is_longer_witness :
  let '(dx, dy, _) :=
    Movement._basic_movement_calculation diagonal_keys demo_player 0.3 12 in
  dx * dx + dy * dy = 2 * (0.3 * 0.3).
Proof.
  pose proof (diagonal_is_longer diagonal_keys demo_player 0.3 12
                eq_refl eq_refl eq_refl) as H.
  destruct (Movement._basic_movement_calculation _ _ _ _) as [[dx dy] da].
  apply (proj2 H). reflexivity.
Defined.

(** X13. For the same keys, player, frame time and settings the three
    strategies return proportional requests: the easy one 1.3 times the
    normal displacement and 1.2 times the normal turn, the hard one 0.56
    times the displacement and 0.64 times the turn. *)
Theorem strategies_scale (keys : Keys) (p : Player.t) (dt : R) (s : GameSettings.t) :
  let '(nx, ny, na) :=
    @Movement.calculate_movement Movement.NormalMovementStrategy keys p dt s in
  let '(ex, ey, ea) :=
    @Movement.calculate_movement Movement.EasyMovementStrategy keys p dt s in
  let '(hx, hy, ha) :=
    @Movement.calculate_movement Movement.HardMovementStrategy keys p dt s in
  (ex = 1.3 * nx /\ ey = 1.3 * ny /\ ea = 1.2 * na) /\
  (hx = 0.56 * nx /\ hy = 0.56 * ny /\ ha = 0.64 * na).
Proof.
  simpl. unfold Movement._basic_movement_calculation.
  split_keys keys; simpl; repeat split; lra.
Qed.

(** X14. A frame with no key held down leaves the player where it is:
    while playing on a rectangular grid, [Game.update] with the dictionary
    that [get_movement_keys] builds from an idle keyboard keeps [x] and [y]
    and only normalises the angle, for the strategy of every difficulty and
    on the fallback path. *)
Theorem idle_frame_keeps_player (g : Game.t) (dt : R) :
  Maze.rectangular (Game.maze g) ->
  Game.state g = Game.PLAYING ->
  (Game.movement_context g = None \/
   exists d, Game.movement_context g =
             Some (MovementStrategyFactory.create_for_difficulty d)) ->
  let keys := InputHandler.get_movement_keys no_key_pressed in
  let p := Game.player g in
  let p' := Game.player (snd (Game.update g keys dt)) in
  Player.x p' = Player.x p /\
  Player.y p' = Player.y p /\
  Player.angle p' = mod_ (Player.angle p) 360.
Proof.
  intros Hrect Hst Hctx keys p p'. subst p'.
  unfold Game.update. rewrite Hst. simpl.
  destruct Hctx as [Hnone | [d Hsome]].
  - rewrite Hnone. unfold Player.update, Player.update_intent.
    subst keys. rewrite !no_key_released. cbv beta iota zeta.
    fold p. set (p1 := Player.with_angle p (mod_ (Player.angle p) 360)).
    destruct (try_move_keeps_hitbox (Game.maze g)
                (GameSettings.PLAYER_RADIUS (Game.settings g)) p1
                (Player.x p1 + 0) (Player.y p1 + 0) Hrect)
      as [q [Hmove [_ [Hang [Hx Hy]]]]].
    rewrite Hmove.
    destruct (Maze.is_exit (Game.maze g) (int (Player.x q)) (int (Player.y q)))
      as [[|]|e]; simpl; try rewrite check_exit_player;
      unfold Game.player; simpl;
      (split; [destruct Hx as [-> | ->]; simpl; lra|];
       split; [destruct Hy as [-> | ->]; simpl; lra|];
       rewrite Hang; reflexivity).
  - rewrite Hsome.
    pose proof (idle_request_zero d p dt (Game.settings g)) as Hzero.
    fold p. fold keys in Hzero.
    destruct (@Movement.calculate_movement
                (MovementStrategyFactory.create_for_difficulty d) keys p dt
                (Game.settings g)) as [[dx dy] da].
    destruct Hzero as [Hdx [Hdy Hda]].
    subst dx dy da.
    destruct (try_move_keeps_hitbox (Game.maze g) Player.default_radius p
                (Player.x p + 0) (Player.y p + 0) Hrect)
      as [q [Hmove [_ [Hang [Hx Hy]]]]].
    rewrite Hmove. cbv zeta. rewrite check_exit_player.
    unfold Game.player. simpl. fold (Game.player g). fold p.
    split; [destruct Hx as [-> | ->]; lra|].
    split; [destruct Hy as [-> | ->]; lra|].
    rewrite Hang. f_equal. lra.
Qed.

Lemma idle_frame_keeps_player_witness :
  let keys := InputHandler.get_movement_keys no_key_pressed in
  let p' := Game.player (snd (Game.update demo_game keys 0.1)) in
  Player.x p' = 3.6 /\ Player.y p' = 1.5 /\ Player.angle p' = mod_ 0 360.
Proof.
  apply (idle_frame_keeps_player demo_game 0.1).
  - exact demo_maze_rectangular.
  - reflexivity.
  - right. exists MEDIUM. reflexivity.
Defined.

(** ** The smooth strategy *)

(** X15. The smooth strategy never reads the strafe keys: two dictionaries
    that agree on forward, backward, turn-left and turn-right give the same
    request and the same velocities. *)
Theorem smooth_ignores_strafe (self : SmoothMovementStrategy.t) (keys keys' : Keys)
    (p : Player.t) (dt : R) (s : GameSettings.t) :
  dict_get keys "forward" false = dict_get keys' "forward" false ->
  dict_get keys "backward" false = dict_get keys' "backward" false ->
  dict_get keys "turn_left" false = dict_get keys' "turn_left" false ->
  dict_get keys "turn_right" false = dict_get keys' "turn_right" false ->
  SmoothMovementStrategy.calculate_movement self keys p dt s =
  SmoothMovementStrategy.calculate_movement self keys' p dt s.
Proof.
  intros Hf Hb Hl Hr. unfold SmoothMovementStrategy.calculate_movement.
  rewrite Hf, Hb, Hl, Hr. reflexivity.
Qed.

Lemma smooth_ignores_strafe_witness :
  SmoothMovementStrategy.calculate_movement SmoothMovementStrategy.init
    diagonal_keys demo_player 0.1 GameSettings.init =
  SmoothMovementStrategy.calculate_movement SmoothMovementStrategy.init
    forward_keys demo_player 0.1 GameSettings.init.
Proof.
  apply (smooth_ignores_strafe SmoothMovementStrategy.init diagonal_keys forward_keys);
    reflexivity.
Defined.

(** X16. With none of forward, backward, turn-left and turn-right held, the
    smooth strategy multiplies each of its velocities by
    [(1 - acceleration * dt) * friction] and returns them.  So a strategy at
    rest stays at rest, and when [acceleration * dt] and [friction] lie
    between 0 and 1 no velocity grows in size. *)
Theorem smooth_coasts (self : SmoothMovementStrategy.t) (keys : Keys)
    (p : Player.t) (dt : R) (s : GameSettings.t) :
  dict_get keys "forward" false = false ->
  dict_get keys "backward" false = false ->
  dict_get keys "turn_left" false = false ->
  dict_get keys "turn_right" false = false ->
  let k := (1 - SmoothMovementStrategy.acceleration self * dt) *
           SmoothMovementStrategy.friction self in
  let '(dx, dy, da, self') :=
    SmoothMovementStrategy.calculate_movement self keys p dt s in
  (dx = SmoothMovementStrategy.velocity_x self * k /\
   dy = SmoothMovementStrategy.velocity_y self * k /\
   da = SmoothMovementStrategy.angular_velocity self * k) /\
  (SmoothMovementStrategy.velocity_x self' = dx /\
   SmoothMovementStrategy.velocity_y self' = dy /\
   SmoothMovementStrategy.angular_velocity self' = da) /\
  (SmoothMovementStrategy.velocity_x self = 0 ->
   SmoothMovementStrategy.velocity_y self = 0 ->
   SmoothMovementStrategy.angular_velocity self = 0 ->
   dx = 0 /\ dy = 0 /\ da = 0) /\
  (0 <= SmoothMovementStrategy.acceleration self * dt <= 1 ->
   0 <= SmoothMovementStrategy.friction self <= 1 ->
   Rabs dx <= Rabs (SmoothMovementStrategy.velocity_x self) /\
   Rabs dy <= Rabs (SmoothMovementStrategy.velocity_y self) /\
   Rabs da <= Rabs (SmoothMovementStrategy.angular_velocity self)).
Proof.
  intros Hf Hb Hl Hr k. unfold SmoothMovementStrategy.calculate_movement.
  rewrite Hf, Hb, Hl, Hr. simpl.
  set (a := SmoothMovementStrategy.acceleration self) in *.
  set (f := SmoothMovementStrategy.friction self) in *.
  assert (Hk : forall v, (v + (0 - v) * a * dt) * f = v * k)
    by (intros v; unfold k; ring).
  rewrite !Hk.
  split; [repeat split|]. split; [repeat split|]. split.
  - intros -> -> ->. repeat split; ring.
  - intros Ha Hfr.
    assert (Hk01 : 0 <= k <= 1) by (unfold k; nra).
    assert (Hshrink : forall v, Rabs (v * k) <= Rabs v).
    { intros v. rewrite Rabs_mult, (Rabs_pos_eq k) by lra.
      pose proof (Rabs_pos v). nra. }
    repeat split; apply Hshrink.
Qed.

Lemma smooth_coasts_witness :
  let '(dx, dy, da, self') :=
    SmoothMovementStrategy.calculate_movement SmoothMovementStrategy.init
      (InputHandler.get_movement_keys no_key_pressed) demo_player 0.1
      GameSettings.init in
  dx = 0 /\ dy = 0 /\ da = 0.
Proof.
  pose proof (smooth_coasts SmoothMovementStrategy.init
                (InputHandler.get_movement_keys no_key_pressed) demo_player 0.1
                GameSettings.init
                (no_key_released _) (no_key_released _)
                (no_key_released _) (no_key_released _)) as H.
  cbv zeta in H.
  destruct (SmoothMovementStrategy.calculate_movement _ _ _ _ _)
    as [[[dx dy] da] self'].
  destruct H as [_ [_ [H _]]]. apply H; reflexivity.
Defined.

(** ** Performance adaptation *)

(** X17. [adapt_performance] never touches the field of view or the player
    constants, keeps a positive ray count and a positive depth positive,
    changes nothing for a frame rate from 30 to 55, and is idempotent: a
    second call with the same frame rate changes nothing more. *)
Theorem adapt_performance_invariants (s : GameSettings.t) (fps : R) :
  let s' := snd (GameSettings.adapt_performance s fps) in
  (GameSettings.FOV s' = GameSettings.FOV s /\
   GameSettings.PLAYER_SPEED s' = GameSettings.PLAYER_SPEED s /\
   GameSettings.PLAYER_TURN_SPEED s' = GameSettings.PLAYER_TURN_SPEED s /\
   GameSettings.PLAYER_RADIUS s' = GameSettings.PLAYER_RADIUS s) /\
  ((0 < GameSettings.NUM_RAYS s)%Z -> (0 < GameSettings.NUM_RAYS s')%Z) /\
  (0 < GameSettings.MAX_DEPTH s -> 0 < GameSettings.MAX_DEPTH s') /\
  (30 <= fps <= 55 -> GameSettings.adapt_performance s fps = ("unchanged"%string, s)) /\
  snd (GameSettings.adapt_performance s' fps) = s'.
Proof.
  unfold GameSettings.adapt_performance.
  destruct (Rlt_dec fps 30) as [Hlow|Hlow];
    [|destruct (Rlt_dec 55 fps) as [Hhigh|Hhigh]]; simpl.
  - repeat split; try reflexivity; try lia; lra.
  - repeat split; try reflexivity; try lia; lra.
  - repeat split; try reflexivity; tauto.
Qed.

Lemma adapt_all_quality (history : list R) (s : GameSettings.t) :
  let q t := (GameSettings.NUM_RAYS t, GameSettings.MAX_DEPTH t) in
  GameSettings.FOV (adapt_all s history) = GameSettings.FOV s /\
  (q (adapt_all s history) = q s \/
   q (adapt_all s history) = (60%Z, 8) \/
   q (adapt_all s history) = (150%Z, 20)).
Proof.
  revert s. induction history as [|fps rest IH]; intros s; simpl.
  - split; [reflexivity | left; reflexivity].
  - destruct (IH (snd (GameSettings.adapt_performance s fps))) as [Hfov Hq].
    split.
    + rewrite Hfov. apply adapt_performance_fov.
    + destruct Hq as [Hq|[Hq|Hq]]; [|right; left; exact Hq|right; right; exact Hq].
      simpl in Hq. unfold adapt_all in *. simpl. rewrite Hq.
      unfold GameSettings.adapt_performance.
      destruct (Rlt_dec fps 30); [right; left; reflexivity|].
      destruct (Rlt_dec 55 fps); [right; right; reflexivity | left; reflexivity].
Qed.

(** X18. Whatever frame rates the adaptation has seen since the settings
    were created, the ray count and depth are one of the pairs (120, 15),
    (60, 8) and (150, 20) and the field of view is still 60; so a raycaster
    built over a rectangular grid with these settings is constructed
    without error, and its [cast_rays] returns exactly 60, 120 or 150
    records and never raises. *)
Theorem adapted_cast_never_raises (history : list R) (p : Player.t) (m : Maze.t) :
  Maze.rectangular m ->
  let s := adapt_all GameSettings.init history in
  ((GameSettings.NUM_RAYS s, GameSettings.MAX_DEPTH s) = (120%Z, 15) \/
   (GameSettings.NUM_RAYS s, GameSettings.MAX_DEPTH s) = (60%Z, 8) \/
   (GameSettings.NUM_RAYS s, GameSettings.MAX_DEPTH s) = (150%Z, 20)) /\
  GameSettings.FOV s = 60 /\
  exists self rays self',
    Raycaster.init p m s = Ok self /\
    Raycaster.cast_rays self = (Ok rays, self') /\
    List.length rays = Z.to_nat (GameSettings.NUM_RAYS s) /\
    (List.length rays = 60 \/ List.length rays = 120 \/ List.length rays = 150)%nat.
Proof.
  intros Hrect s.
  destruct (adapt_all_quality history GameSettings.init) as [Hfov Hq].
  fold s in Hfov, Hq. simpl in Hfov, Hq.
  assert (Hn : (GameSettings.NUM_RAYS s = 120 \/ GameSettings.NUM_RAYS s = 60 \/
                GameSettings.NUM_RAYS s = 150)%Z).
  { destruct Hq as [Hq|[Hq|Hq]]; injection Hq as Hq _; lia. }
  split; [exact Hq|]. split; [exact Hfov|].
  assert (Hnz : GameSettings.NUM_RAYS s <> 0%Z) by lia.
  set (self := {| Raycaster.player := p; Raycaster.maze := m;
                  Raycaster.settings := s;
                  Raycaster.half_fov := GameSettings.FOV s / 2;
                  Raycaster.delta_angle :=
                    GameSettings.FOV s / IZR (GameSettings.NUM_RAYS s) |}).
  assert (Hinit : Raycaster.init p m s = Ok self).
  { unfold Raycaster.init, Raycaster._update_settings. simpl.
    rewrite truediv_nonzero by (apply not_0_IZR; exact Hnz). reflexivity. }
  destruct (cast_rays_spec self (cast_single_ray_total_rect self Hrect) Hnz)
    as [rays [Hcast Hall]].
  exists self, rays. eexists. split; [exact Hinit|]. split; [exact Hcast|].
  assert (Hlen : List.length rays = Z.to_nat (GameSettings.NUM_RAYS s)).
  { rewrite (Forall2_length_eq _ _ _ Hall). apply range_length. }
  split; [exact Hlen|]. rewrite Hlen. simpl Raycaster.settings. lia.
Qed.

Lemma adapted_cast_never_raises_witness :
  exists self rays self',
    Raycaster.init demo_player demo_maze
      (adapt_all GameSettings.init [25; 60; 45]) = Ok self /\
    Raycaster.cast_rays self = (Ok rays, self') /\
    List.length rays =
      Z.to_nat (GameSettings.NUM_RAYS (adapt_all GameSettings.init [25; 60; 45])) /\
    (List.length rays = 60 \/ List.length rays = 120 \/ List.length rays = 150)%nat.
Proof.
  apply (adapted_cast_never_raises [25; 60; 45] demo_player demo_maze).
  exact demo_maze_rectangular.
Defined.

(** ** The march of a single ray, continued *)

(** A march over consecutive indices stops at the first index whose sample
    is a wall. *)
Lemma march_first_wall (self : Raycaster.t) (dx dy : R) (raw : Raycaster.ray_data) :
  let px := Player.x (Raycaster.player self) in
  let py := Player.y (Raycaster.player self) in
  forall (len a : nat),
    Raycaster.march self dx dy (map Z.of_nat (seq a len)) = Ok (Some raw) ->
    exists i : nat,
      (a <= i < a + len)%nat /\
      Raycaster.rd_distance raw = INR i * Raycaster.step /\
      Raycaster.rd_wall_x raw = px + dx * (INR i * Raycaster.step) /\
      Raycaster.rd_wall_y raw = py + dy * (INR i * Raycaster.step) /\
      Maze.is_wall (Raycaster.maze self)
        (int (Raycaster.rd_wall_x raw)) (int (Raycaster.rd_wall_y raw)) = Ok true /\
      forall j : nat, (a <= j < i)%nat ->
        Maze.is_wall (Raycaster.maze self)
          (int (px + dx * (INR j * Raycaster.step)))
          (int (py + dy * (INR j * Raycaster.step))) = Ok false.
Proof.
  intros px py len. induction len as [|len IH]; intros a H.
  - discriminate H.
  - simpl in H. fold px in H. fold py in H.
    rewrite <- INR_IZR_INZ in H.
    destruct (Maze.is_wall (Raycaster.maze self)
                (int (px + dx * (INR a * Raycaster.step)))
                (int (py + dy * (INR a * Raycaster.step)))) as [[|]|e] eqn:Hw;
      simpl in H.
    + injection H as <-. exists a. simpl.
      split; [lia|]. repeat split; try reflexivity; [exact Hw|].
      intros j Hj. lia.
    + destruct (IH (S a) H) as [i [Hi [Hd [Hx [Hy [Hwall Hopen]]]]]].
      exists i. split; [lia|]. repeat split; try assumption.
      intros j Hj. destruct (Nat.eq_dec j a) as [->|Hne]; [exact Hw|].
      apply Hopen. lia.
    + discriminate H.
Qed.

(** The distance of a hit is at least 0 and at most the depth less one
    step. *)
Lemma hit_distance_bounds (self : Raycaster.t) (angle : R) (raw : Raycaster.ray_data) :
  hits self angle raw ->
  0 <= Raycaster.rd_distance raw <=
    GameSettings.MAX_DEPTH (Raycaster.settings self) - Raycaster.step.
Proof.
  unfold hits, range. intros H.
  set (depth := GameSettings.MAX_DEPTH (Raycaster.settings self)) in *.
  set (n := int (depth / Raycaster.step)) in *.
  destruct (march_first_wall self _ _ raw _ _ H) as [i [Hi [Hd _]]].
  rewrite Hd.
  assert (Hi0 : 0 <= INR i) by apply pos_INR.
  assert (Hin : INR i <= IZR n - 1).
  { rewrite INR_IZR_INZ. change 1 with (IZR 1). rewrite <- minus_IZR.
    apply IZR_le. lia. }
  assert (Hq : IZR n <= depth / Raycaster.step).
  { destruct (int_spec (depth / Raycaster.step)) as [[_ [Hlo _]]|[Hneg _]].
    - exact Hlo.
    - pose proof (int_sign_neg _ Hneg) as Hn0. fold n in Hn0. lia. }
  assert (Hs : depth / Raycaster.step * Raycaster.step = depth)
    by (unfold Raycaster.step; lra).
  unfold Raycaster.step in *. split; nra.
Qed.

(** X19. When the march of a ray stops at a wall, the record describes the
    first sample that is a wall: for some index [i] below the number of
    steps the distance is [i * 0.02], the hit point is the player's
    position plus that distance along the ray, its cell is a wall, every
    earlier sample lies in a cell that is not a wall, and the distance is
    at least 0 and at most [MAX_DEPTH - 0.02]. *)
Theorem hit_is_first_wall (self : Raycaster.t) (angle : R) (raw : Raycaster.ray_data) :
  hits self angle raw ->
  exists i : Z,
    (0 <= i < int (GameSettings.MAX_DEPTH (Raycaster.settings self) / Raycaster.step))%Z /\
    Raycaster.rd_distance raw = IZR i * Raycaster.step /\
    Raycaster.rd_wall_x raw = sample_x self angle i /\
    Raycaster.rd_wall_y raw = sample_y self angle i /\
    Maze.is_wall (Raycaster.maze self)
      (int (Raycaster.rd_wall_x raw)) (int (Raycaster.rd_wall_y raw)) = Ok true /\
    (forall j : Z, (0 <= j < i)%Z ->
       Maze.is_wall (Raycaster.maze self)
         (int (sample_x self angle j)) (int (sample_y self angle j)) = Ok false) /\
    0 <= Raycaster.rd_distance raw <=
      GameSettings.MAX_DEPTH (Raycaster.settings self) - Raycaster.step.
Proof.
  unfold hits, range. intros H.
  set (depth := GameSettings.MAX_DEPTH (Raycaster.settings self)) in *.
  set (n := int (depth / Raycaster.step)) in *.
  destruct (march_first_wall self _ _ raw _ _ H)
    as [i [Hi [Hd [Hx [Hy [Hwall Hopen]]]]]].
  exists (Z.of_nat i). rewrite <- INR_IZR_INZ.
  split; [lia|]. split; [exact Hd|].
  unfold sample_x, sample_y. rewrite <- INR_IZR_INZ.
  split; [exact Hx|]. split; [exact Hy|]. split; [exact Hwall|]. split.
  - intros j Hj. specialize (Hopen (Z.to_nat j)).
    rewrite INR_IZR_INZ, Z2Nat.id in Hopen by lia.
    apply Hopen. lia.
  - apply (hit_distance_bounds self angle raw). exact H.
Qed.

Lemma hit_is_first_wall_witness :
  exists i : Z,
    (0 <= i < int (GameSettings.MAX_DEPTH (Raycaster.settings demo_cast) / Raycaster.step))%Z /\
    2.5 = IZR i * Raycaster.step /\
    4 = sample_x demo_cast 0 i /\
    1.5 = sample_y demo_cast 0 i /\
    Maze.is_wall (Raycaster.maze demo_cast) (int 4) (int 1.5) = Ok true /\
    (forall j : Z, (0 <= j < i)%Z ->
       Maze.is_wall (Raycaster.maze demo_cast)
         (int (sample_x demo_cast 0 j)) (int (sample_y demo_cast 0 j)) = Ok false) /\
    0 <= 2.5 <= GameSettings.MAX_DEPTH (Raycaster.settings demo_cast) - Raycaster.step.
Proof.
  exact (hit_is_first_wall demo_cast 0 _ demo_east_ray).
Defined.

(** The raw distance of any single ray lies between 0 and the depth. *)
Lemma raw_distance_bounds (self : Raycaster.t) (angle : R) (raw : Raycaster.ray_data) :
  0 <= GameSettings.MAX_DEPTH (Raycaster.settings self) ->
  Raycaster._cast_single_ray self angle = Ok raw ->
  0 <= Raycaster.rd_distance raw <= GameSettings.MAX_DEPTH (Raycaster.settings self).
Proof.
  intros Hdepth Hraw.
  destruct (cast_single_ray_cases self angle raw Hraw) as [Hhit|[_ ->]].
  - pose proof (hit_distance_bounds self angle raw Hhit) as Hb.
    unfold Raycaster.step in Hb. lra.
  - simpl. lra.
Qed.

Lemma cos_degrees_nonneg (d : R) : -90 <= d <= 90 -> 0 <= cos (radians d).
Proof.
  intros [Hlo Hhi]. pose proof PI_RGT_0 as Hpi. unfold radians.
  apply cos_ge_0; nra.
Qed.

(** X20. With a depth that is not negative, a field of view of at most 180
    degrees whose half the raycaster holds, and a positive ray count on a
    rectangular grid, every record of the fan has a distance between 0 and
    [MAX_DEPTH]: the fisheye factor lies between 0 and 1 and only shortens
    the raw distance. *)
Theorem fan_distances_bounded (self : Raycaster.t) :
  Maze.rectangular (Raycaster.maze self) ->
  fov_in_step self ->
  (0 < GameSettings.NUM_RAYS (Raycaster.settings self))%Z ->
  0 < GameSettings.FOV (Raycaster.settings self) <= 180 ->
  0 <= GameSettings.MAX_DEPTH (Raycaster.settings self) ->
  exists rays self',
    Raycaster.cast_rays self = (Ok rays, self') /\
    forall r, In r rays ->
      0 <= Raycaster.distance r <= GameSettings.MAX_DEPTH (Raycaster.settings self) /\
      exists raw,
        Raycaster._cast_single_ray self (Raycaster.angle r) = Ok raw /\
        Raycaster.distance r <= Raycaster.rd_distance raw.
Proof.
  intros Hrect Hhalf Hn Hfov Hdepth.
  destruct (cast_rays_spec self (cast_single_ray_total_rect self Hrect))
    as [rays [Hcast Hall]]; [lia|].
  exists rays. eexists. split; [exact Hcast|].
  intros r Hin. apply In_nth_error in Hin. destruct Hin as [i Hi].
  destruct (Forall2_nth_error_r _ _ _ Hall i r Hi) as [z [Hz Hat]].
  assert (Hil : (i < Z.to_nat (GameSettings.NUM_RAYS (Raycaster.settings self)))%nat).
  { rewrite <- (range_length (GameSettings.NUM_RAYS (Raycaster.settings self))).
    apply nth_error_Some. rewrite Hz. discriminate. }
  rewrite (range_nth _ i Hil) in Hz. injection Hz as <-.
  apply ray_at_inv in Hat. destruct Hat as [raw [Hraw ->]].
  unfold fov_in_step in Hhalf. rewrite Hhalf in *.
  set (fov := GameSettings.FOV (Raycaster.settings self)) in *.
  set (n := GameSettings.NUM_RAYS (Raycaster.settings self)) in *.
  set (a := Player.angle (Raycaster.player self)) in *.
  pose proof (fan_offset_bounds fov n i (proj1 Hfov) Hil) as Hoff.
  rewrite INR_IZR_INZ in Hoff.
  pose proof (raw_distance_bounds self _ raw Hdepth Hraw) as Hrawb.
  simpl. fold a.
  set (off := IZR (Z.of_nat i) * (fov / IZR n)) in *.
  assert (Hc0 : 0 <= cos (radians (a - fov / 2 + off - a)))
    by (apply cos_degrees_nonneg; lra).
  pose proof (COS_bound (radians (a - fov / 2 + off - a))) as [_ Hc1].
  set (c := cos (radians (a - fov / 2 + off - a))) in *.
  set (d := Raycaster.rd_distance raw) in *.
  split; [split; nra|].
  exists raw. split; [exact Hraw|]. fold d. nra.
Qed.

Lemma fan_distances_bounded_witness :
  exists rays self',
    Raycaster.cast_rays demo_cast = (Ok rays, self') /\
    forall r, In r rays ->
      0 <= Raycaster.distance r <= 15 /\
      exists raw,
        Raycaster._cast_single_ray demo_cast (Raycaster.angle r) = Ok raw /\
        Raycaster.distance r <= Raycaster.rd_distance raw.
Proof.
  apply (fan_distances_bounded demo_cast).
  - exact demo_maze_rectangular.
  - unfold fov_in_step. simpl. lra.
  - simpl. lia.
  - simpl. lra.
  - simpl. lra.
Defined.

(** X21. A player standing in a wall cell sees that wall at distance 0 in
    every direction: when the cell under the player is a wall and the depth
    allows at least one step, every single ray returns a hit at distance 0
    whose hit point is the player's position. *)
Theorem ray_from_inside_wall (self : Raycaster.t) (angle : R) :
  let px := Player.x (Raycaster.player self) in
  let py := Player.y (Raycaster.player self) in
  Maze.is_wall (Raycaster.maze self) (int px) (int py) = Ok true ->
  Raycaster.step <= GameSettings.MAX_DEPTH (Raycaster.settings self) ->
  exists raw,
    Raycaster._cast_single_ray self angle = Ok raw /\
    hits self angle raw /\
    Raycaster.rd_distance raw = 0 /\
    Raycaster.rd_wall_x raw = px /\
    Raycaster.rd_wall_y raw = py.
Proof.
  intros px py Hwall Hdepth.
  assert (Hn : (0 < int (GameSettings.MAX_DEPTH (Raycaster.settings self)
                          / Raycaster.step))%Z).
  { assert (H1 : (int 1 <= int (GameSettings.MAX_DEPTH (Raycaster.settings self)
                                 / Raycaster.step))%Z).
    { apply int_mono. unfold Raycaster.step in *. lra. }
    rewrite (int_IZR 1) in H1. lia. }
  destruct (range_pos _ Hn) as [rest Hrange].
  unfold hits, Raycaster._cast_single_ray. rewrite Hrange.
  cbn [Raycaster.march]. fold px. fold py.
  set (dx := cos (radians angle)). set (dy := sin (radians angle)).
  replace (px + dx * (0 * Raycaster.step)) with px by lra.
  replace (py + dy * (0 * Raycaster.step)) with py by lra.
  rewrite Hwall. simpl.
  eexists. split; [reflexivity|]. split; [reflexivity|].
  simpl. repeat split; lra.
Qed.

Lemma ray_from_inside_wall_witness :
  exists raw,
    Raycaster._cast_single_ray west_of_grid_cast 90 = Ok raw /\
    hits west_of_grid_cast 90 raw /\
    Raycaster.rd_distance raw = 0 /\
    Raycaster.rd_wall_x raw = -0.5 /\
    Raycaster.rd_wall_y raw = 0.5.
Proof.
  apply (ray_from_inside_wall west_of_grid_cast 90).
  - change (Player.x (Raycaster.player west_of_grid_cast)) with (-0.5).
    change (Player.y (Raycaster.player west_of_grid_cast)) with 0.5.
    int_is (-0.5) 0%Z. int_is 0.5 0%Z. reflexivity.
  - unfold Raycaster.step. simpl. lra.
Defined.

(** X22. [Raycaster.__init__] raises [ZeroDivisionError] exactly when the
    ray count is 0.  Otherwise the raycaster it returns is not changed by
    [cast_rays] as long as the settings stay as they are, and in general a
    second [cast_rays] leaves the raycaster as the first one left it. *)
Theorem init_then_cast (p : Player.t) (m : Maze.t) (s : GameSettings.t)
    (self : Raycaster.t) :
  (GameSettings.NUM_RAYS s = 0%Z <-> Raycaster.init p m s = Raise ZeroDivisionError) /\
  (forall self0, Raycaster.init p m s = Ok self0 ->
     snd (Raycaster.cast_rays self0) = self0 /\
     Raycaster.player self0 = p /\ Raycaster.maze self0 = m /\
     Raycaster.settings self0 = s) /\
  snd (Raycaster.cast_rays (snd (Raycaster.cast_rays self))) =
    snd (Raycaster.cast_rays self).
Proof.
  split; [|split].
  - unfold Raycaster.init, Raycaster._update_settings, truediv. simpl.
    destruct (Req_dec_T (IZR (GameSettings.NUM_RAYS s)) 0) as [E|N].
    + split; [reflexivity|]. intros _. apply eq_IZR. exact E.
    + split; [|intros H; discriminate H].
      intros H. exfalso. apply N. rewrite H. reflexivity.
  - intros self0.
    unfold Raycaster.init, Raycaster.cast_rays, Raycaster._update_settings, truediv.
    simpl.
    destruct (Req_dec_T (IZR (GameSettings.NUM_RAYS s)) 0) as [E|N];
      intros H; [discriminate H|].
    injection H as <-. simpl.
    destruct (Req_dec_T (IZR (GameSettings.NUM_RAYS s)) 0) as [E'|_];
      [contradiction|].
    simpl. repeat split; reflexivity.
  - unfold Raycaster.cast_rays, Raycaster._update_settings, truediv.
    destruct (Req_dec_T (IZR (GameSettings.NUM_RAYS (Raycaster.settings self))) 0)
      as [E|N]; simpl.
    + destruct (Req_dec_T _ 0) as [_|N']; [reflexivity | contradiction].
    + destruct (Req_dec_T _ 0) as [E'|_]; [contradiction | reflexivity].
Qed.

Lemma init_then_cast_witness :
  exists self0,
    Raycaster.init demo_player demo_maze GameSettings.init = Ok self0 /\
    snd (Raycaster.cast_rays self0) = self0.
Proof.
  destruct (Raycaster.init demo_player demo_maze GameSettings.init) as [self0|e] eqn:E.
  - exists self0. split; [reflexivity|].
    apply (proj1 (proj2 (init_then_cast demo_player demo_maze GameSettings.init
                           self0)) self0 E).
  - exfalso.
    unfold Raycaster.init, Raycaster._update_settings, truediv in E. simpl in E.
    destruct (Req_dec_T 120 0) as [H|H]; [lra | discriminate E].
Defined.

(** ** The renderers *)

Section StripFacts.

Variable d : Renderer.display.
Hypothesis Hheight : (1 <= Renderer.HEIGHT d)%Z.

(** The height and the top of a wall strip, for any positive distance. *)
Lemma wall_rows (distance : R) :
  let wall_height :=
    Z.min (Renderer.HEIGHT d) (Z.max 1 (int (IZR (Renderer.HEIGHT d) / distance))) in
  let wall_top := ((Renderer.HEIGHT d - wall_height) / 2)%Z in
  (1 <= wall_height <= Renderer.HEIGHT d /\
   0 <= wall_top /\ wall_top + wall_height <= Renderer.HEIGHT d)%Z.
Proof.
  intros wall_height wall_top.
  assert (H1 : (1 <= wall_height <= Renderer.HEIGHT d)%Z) by (unfold wall_height; lia).
  split; [exact H1|]. unfold wall_top.
  pose proof (Z.div_pos (Renderer.HEIGHT d - wall_height) 2).
  pose proof (Z.mul_div_le (Renderer.HEIGHT d - wall_height) 2).
  lia.
Qed.

Lemma brightness_bounds (distance k : R) (floor_ : Z) :
  0 < distance -> 0 <= k -> (0 <= floor_ <= 255)%Z ->
  (floor_ <= Z.max floor_ (255 - int (distance * k)) <= 255)%Z.
Proof.
  intros Hd Hk Hf.
  assert (H0 : (0 <= int (distance * k))%Z) by (apply int_sign_nonneg; nra).
  lia.
Qed.

Lemma shade_valid (b : Z) :
  (0 <= b <= 255)%Z -> valid_color (b, b / 2, b / 4)%Z.
Proof.
  intros Hb. unfold valid_color.
  pose proof (Z.div_pos b 2). pose proof (Z.div_pos b 4).
  pose proof (Z.div_le_upper_bound b 2 255).
  pose proof (Z.div_le_upper_bound b 4 255). lia.
Qed.

Lemma strip_left_nonneg (strip_width : R) (i : Z) :
  0 <= strip_width -> (0 <= i)%Z -> (0 <= int (IZR i * strip_width))%Z.
Proof.
  intros Hs Hi. apply int_sign_nonneg.
  assert (0 <= IZR i) by (apply (IZR_le 0); exact Hi). nra.
Qed.

Lemma fast_strip_valid (strip_width : R) (i : Z) (ray : Raycaster.ray)
    (c : Renderer.color) (r : Renderer.Rect) :
  0 <= strip_width -> (0 <= i)%Z ->
  Renderer.fast_strip d strip_width i ray = Some (c, r) ->
  valid_color c /\ within_rows d r /\
  Renderer.rect_left r = int (IZR i * strip_width) /\
  Renderer.rect_width r = Z.max 2 (int strip_width).
Proof.
  intros Hs Hi. unfold Renderer.fast_strip.
  destruct (Rle_dec (Raycaster.distance ray) 0) as [Hle|Hgt]; [discriminate|].
  assert (Hd : 0 < Raycaster.distance ray) by lra.
  pose proof (brightness_bounds (Raycaster.distance ray) 25 30 Hd
                ltac:(lra) ltac:(lia)) as Hb.
  pose proof (wall_rows (Raycaster.distance ray)) as Hrows.
  pose proof (strip_left_nonneg strip_width i Hs Hi) as Hleft.
  cbv zeta in *.
  remember (Z.max 30 (255 - int (Raycaster.distance ray * 25))) as b.
  remember (Z.min (Renderer.HEIGHT d)
              (Z.max 1 (int (IZR (Renderer.HEIGHT d) / Raycaster.distance ray)))) as h.
  intros H. inversion H; subst c r; clear H.
  split; [apply shade_valid; lia|].
  split; [unfold within_rows; simpl; lia|].
  split; reflexivity.
Qed.

Lemma simple_strip_valid (strip_width : R) (i : Z) (ray : Raycaster.ray)
    (cmd : Renderer.draw_call) :
  0 <= strip_width -> (0 <= i)%Z ->
  Renderer.simple_strip (Renderer.WIDTH d) (Renderer.HEIGHT d) strip_width i ray = Some cmd ->
  exists c r,
    cmd = Renderer.draw_rect c r /\ valid_color c /\ within_rows d r /\
    Renderer.rect_left r = int (IZR i * strip_width) /\
    Renderer.rect_width r = Z.max 1 (int strip_width).
Proof.
  intros Hs Hi. unfold Renderer.simple_strip.
  destruct (Rle_dec (Raycaster.distance ray) 0) as [Hle|Hgt]; [discriminate|].
  assert (Hd : 0 < Raycaster.distance ray) by lra.
  pose proof (brightness_bounds (Raycaster.distance ray) 20 30 Hd
                ltac:(lra) ltac:(lia)) as Hb.
  pose proof (wall_rows (Raycaster.distance ray)) as Hrows.
  pose proof (strip_left_nonneg strip_width i Hs Hi) as Hleft.
  cbv zeta in *.
  remember (Z.max 30 (255 - int (Raycaster.distance ray * 20))) as b.
  remember (Z.min (Renderer.HEIGHT d)
              (Z.max 1 (int (IZR (Renderer.HEIGHT d) / Raycaster.distance ray)))) as h.
  intros H. inversion H; subst cmd; clear H.
  eexists _, _. split; [reflexivity|].
  split; [apply shade_valid; lia|].
  split; [unfold within_rows; simpl; lia|].
  split; reflexivity.
Qed.

Lemma quality_strip_valid (strip_width : R) (i : Z) (ray : Raycaster.ray)
    (cmd : Renderer.draw_call) :
  0 <= strip_width -> (0 <= i)%Z ->
  Renderer.quality_strip d strip_width i ray = Some cmd ->
  exists c r,
    cmd = Renderer.draw_rect c r /\ valid_color c /\ within_rows d r /\
    Renderer.rect_left r = int (IZR i * strip_width) /\
    Renderer.rect_width r = Z.max 1 (int strip_width).
Proof.
  intros Hs Hi. unfold Renderer.quality_strip.
  destruct (Rle_dec (Raycaster.distance ray) 0) as [Hle|Hgt]; [discriminate|].
  assert (Hd : 0 < Raycaster.distance ray) by lra.
  pose proof (brightness_bounds (Raycaster.distance ray) 12 50 Hd
                ltac:(lra) ltac:(lia)) as Hb.
  pose proof (wall_rows (Raycaster.distance ray)) as Hrows.
  pose proof (strip_left_nonneg strip_width i Hs Hi) as Hleft.
  pose proof (Z.mod_pos_bound
                (int ((Raycaster.wall_x ray + Raycaster.wall_y ray) * 30)) 50
                ltac:(lia)) as Hv.
  cbv zeta in *.
  remember (Z.max 50 (255 - int (Raycaster.distance ray * 12))) as b.
  remember (Z.min (Renderer.HEIGHT d)
              (Z.max 1 (int (IZR (Renderer.HEIGHT d) / Raycaster.distance ray)))) as h.
  remember (int ((Raycaster.wall_x ray + Raycaster.wall_y ray) * 30) mod 50)%Z as v.
  intros H. inversion H; subst cmd; clear H.
  eexists _, _. split; [reflexivity|].
  split; [|split; [unfold within_rows; simpl; lia | split; reflexivity]].
  unfold valid_color.
  pose proof (Z.div_pos b 2). pose proof (Z.div_pos b 4).
  pose proof (Z.div_pos v 2). pose proof (Z.div_pos v 4). lia.
Qed.

End StripFacts.

Lemma quality_loop_indexed (d : Renderer.display) (sw : R) (rays : list Raycaster.ray) :
  forall i, Renderer.quality_loop d sw i rays =
            indexed_strips (Renderer.quality_strip d sw) i rays.
Proof.
  induction rays as [|ray rest IH]; intros i; simpl; [reflexivity|].
  rewrite IH. reflexivity.
Qed.

Lemma simple_loop_indexed (W H : Z) (sw : R) (rays : list Raycaster.ray) :
  forall i, Renderer.simple_loop W H sw i rays =
            indexed_strips (Renderer.simple_strip W H sw) i rays.
Proof.
  induction rays as [|ray rest IH]; intros i; simpl; [reflexivity|].
  rewrite IH. reflexivity.
Qed.

Lemma indexed_strips_Forall {A} (P : A -> Prop)
    (body : Z -> Raycaster.ray -> option A) (rays : list Raycaster.ray) :
  forall i,
    (forall (k : nat) ray a, nth_error rays k = Some ray ->
       body (i + Z.of_nat k)%Z ray = Some a -> P a) ->
    Forall P (indexed_strips body i rays).
Proof.
  induction rays as [|ray rest IH]; intros i Hbody; simpl; [constructor|].
  assert (Hrest : Forall P (indexed_strips body (i + 1) rest)).
  { apply IH. intros k ray' a Hk Ha. apply (Hbody (S k) ray' a Hk).
    replace (i + Z.of_nat (S k))%Z with (i + 1 + Z.of_nat k)%Z by lia. exact Ha. }
  destruct (body i ray) as [a|] eqn:E; [|exact Hrest].
  constructor; [|exact Hrest].
  apply (Hbody 0%nat ray a eq_refl).
  replace (i + Z.of_nat 0)%Z with i by lia. exact E.
Qed.

Lemma indexed_strips_length {A} (body : Z -> Raycaster.ray -> option A)
    (rays : list Raycaster.ray) :
  (forall i ray, body i ray = None <-> Raycaster.distance ray <= 0) ->
  forall i, List.length (indexed_strips body i rays) = List.length (visible rays).
Proof.
  intros Hskip. induction rays as [|ray rest IH]; intros i; simpl; [reflexivity|].
  destruct (Rle_dec (Raycaster.distance ray) 0) as [Hle|Hgt].
  - rewrite (proj2 (Hskip i ray) Hle). apply IH.
  - destruct (body i ray) as [a|] eqn:E.
    + simpl. rewrite IH. reflexivity.
    + apply Hskip in E. contradiction.
Qed.

Lemma color_eqb_eq (a b : Renderer.color) : Renderer.color_eqb a b = true -> a = b.
Proof.
  destruct a as [[r1 g1] b1], b as [[r2 g2] b2]. simpl.
  rewrite !andb_true_iff, !Z.eqb_eq. intros [[-> ->] ->]. reflexivity.
Qed.

(** Appending to a colour group adds one call and keeps the others. *)
Lemma group_append_perm (groups : list (Renderer.color * list Renderer.Rect))
    (c : Renderer.color) (r : Renderer.Rect) :
  Permutation (Renderer.draw_groups (Renderer.group_append groups c r))
              (Renderer.draw_groups groups ++ [Renderer.draw_rect c r]).
Proof.
  unfold Renderer.draw_groups.
  induction groups as [|[c' rects] rest IH]; simpl.
  - apply Permutation_refl.
  - destruct (Renderer.color_eqb c' c) eqn:E; simpl.
    + apply color_eqb_eq in E. subst c'.
      rewrite map_app. simpl. rewrite <- !app_assoc. apply Permutation_app_head.
      apply Permutation_app_comm.
    + rewrite <- app_assoc. apply Permutation_app_head. exact IH.
Qed.

Lemma fast_loop_perm (d : Renderer.display) (sw : R) (rays : list Raycaster.ray) :
  forall i groups,
    Permutation
      (Renderer.draw_groups (Renderer.fast_loop d sw i rays groups))
      (Renderer.draw_groups groups ++
       map (fun strip => Renderer.draw_rect (fst strip) (snd strip))
         (indexed_strips (Renderer.fast_strip d sw) i rays)).
Proof.
  induction rays as [|ray rest IH]; intros i groups; simpl.
  - rewrite app_nil_r. apply Permutation_refl.
  - destruct (Renderer.fast_strip d sw i ray) as [[c r]|]; [|apply IH].
    eapply Permutation_trans; [apply IH|]. simpl.
    eapply Permutation_trans;
      [apply Permutation_app_tail; apply group_append_perm|].
    rewrite <- app_assoc. apply Permutation_refl.
Qed.

Lemma fast_strip_skips (d : Renderer.display) (sw : R) (i : Z) (ray : Raycaster.ray) :
  Renderer.fast_strip d sw i ray = None <-> Raycaster.distance ray <= 0.
Proof.
  unfold Renderer.fast_strip.
  destruct (Rle_dec (Raycaster.distance ray) 0); split; intros H;
    try assumption; try reflexivity; try discriminate H; contradiction.
Qed.

Lemma quality_strip_skips (d : Renderer.display) (sw : R) (i : Z) (ray : Raycaster.ray) :
  Renderer.quality_strip d sw i ray = None <-> Raycaster.distance ray <= 0.
Proof.
  unfold Renderer.quality_strip.
  destruct (Rle_dec (Raycaster.distance ray) 0); split; intros H;
    try assumption; try reflexivity; try discriminate H; contradiction.
Qed.

Lemma simple_strip_skips (W H : Z) (sw : R) (i : Z) (ray : Raycaster.ray) :
  Renderer.simple_strip W H sw i ray = None <-> Raycaster.distance ray <= 0.
Proof.
  unfold Renderer.simple_strip.
  destruct (Rle_dec (Raycaster.distance ray) 0); split; intros H0;
    try assumption; try reflexivity; try discriminate H0; contradiction.
Qed.

(** The drawing calls of the fast renderer: two backdrop rectangles, then
    a rearrangement of the strips in ray order. *)
Lemma fast_grouping_keeps_strips_aux (d : Renderer.display) (rays : list Raycaster.ray) :
  exists walls,
    Renderer.FastRenderer_render_3d_view d rays =
      [ Renderer.draw_rect (Renderer.CEILING_COLOR d)
          (Renderer.mk_rect 0 0 (Renderer.WIDTH d) (Renderer.HEIGHT d / 2));
        Renderer.draw_rect (Renderer.FLOOR_COLOR d)
          (Renderer.mk_rect 0 (Renderer.HEIGHT d / 2) (Renderer.WIDTH d)
             (Renderer.HEIGHT d / 2)) ] ++ walls /\
    Permutation walls (fast_strips d rays) /\
    List.length walls = List.length (visible rays).
Proof.
  unfold Renderer.FastRenderer_render_3d_view, fast_strips.
  destruct rays as [|ray rest] eqn:Hrays.
  - exists []. split; [reflexivity|]. split; [apply Permutation_refl | reflexivity].
  - rewrite <- Hrays. clear Hrays ray rest.
    set (sw := IZR (Renderer.WIDTH d) / IZR (len rays)).
    eexists. split; [reflexivity|].
    pose proof (fast_loop_perm d sw rays 0 []) as Hperm. simpl in Hperm.
    split; [exact Hperm|].
    rewrite (Permutation_length Hperm), length_map.
    apply indexed_strips_length. intros i ray. apply fast_strip_skips.
Qed.

(** X23. The fast renderer draws the sky, the floor and then its colour
    groups; the grouped calls are a rearrangement of the strips of the rays
    in ray order, so every ray with a positive distance is drawn exactly
    once, in its own colour, and every other ray is skipped. *)
Theorem fast_grouping_keeps_strips (d : Renderer.display) (rays : list Raycaster.ray) :
  exists sky floor walls,
    Renderer.FastRenderer_render_3d_view d rays = sky :: floor :: walls /\
    Permutation walls (fast_strips d rays) /\
    List.length walls = List.length (visible rays).
Proof.
  destruct (fast_grouping_keeps_strips_aux d rays) as [walls [Hview [Hperm Hlen]]].
  eexists _, _, walls. split; [exact Hview|]. split; assumption.
Qed.

Lemma strip_width_nonneg (d : Renderer.display) (rays : list Raycaster.ray) :
  (0 <= Renderer.WIDTH d)%Z -> rays <> [] ->
  0 <= IZR (Renderer.WIDTH d) / IZR (len rays).
Proof.
  intros Hw Hne.
  assert (Hlen : (0 < len rays)%Z).
  { unfold len. destruct rays; [contradiction|]. simpl. lia. }
  apply Rmult_le_pos; [apply (IZR_le 0); exact Hw|].
  left. apply Rinv_0_lt_compat. apply (IZR_lt 0). exact Hlen.
Qed.

Lemma nth_error_index_bound {A} (l : list A) (k : nat) (a : A) :
  nth_error l k = Some a -> (0 <= 0 + Z.of_nat k < len l)%Z.
Proof.
  intros H. assert (k < List.length l)%nat by (apply nth_error_Some; rewrite H; discriminate).
  unfold len. lia.
Qed.

Lemma sky_line_valid (d : Renderer.display) (y : Z) :
  (0 <= y < Renderer.HEIGHT d / 2)%Z ->
  valid_color (draw_color (Renderer.sky_line d y)).
Proof.
  intros [Hy0 Hy1]. unfold Renderer.sky_line. simpl.
  set (h := (Renderer.HEIGHT d / 2)%Z) in *.
  assert (Hh : 0 < IZR h) by (apply (IZR_lt 0); lia).
  assert (H0 : 0 <= IZR y) by (apply (IZR_le 0); exact Hy0).
  assert (H1 : IZR y < IZR h) by (apply IZR_lt; exact Hy1).
  assert (Hp : 0 <= IZR y / IZR h < 1).
  { split.
    - apply Rmult_le_pos; [exact H0 | left; apply Rinv_0_lt_compat; exact Hh].
    - apply (Rmult_lt_reg_r (IZR h)); [exact Hh|].
      unfold Rdiv. rewrite Rmult_assoc, Rinv_l by lra. lra. }
  set (x := 80 + IZR y / IZR h * 40).
  assert (Hlo : (int 80 <= int x)%Z) by (apply int_mono; unfold x; lra).
  assert (Hhi : (int x <= int 120)%Z) by (apply int_mono; unfold x; lra).
  rewrite (int_IZR 80) in Hlo. rewrite (int_IZR 120) in Hhi. lia.
Qed.

Lemma floor_line_valid (d : Renderer.display) (y : Z) :
  valid_color (draw_color (Renderer.floor_line d y)).
Proof.
  unfold Renderer.floor_line. destruct (Renderer.FLOOR_COLOR d) as [[r g] b].
  simpl. lia.
Qed.

(** What every renderer draws: a backdrop of valid colours, then one strip
    call for each ray with a positive distance. *)
Lemma render_walls (self : Renderer.renderer) (d : Renderer.display)
    (rays : list Raycaster.ray) :
  (1 <= Renderer.HEIGHT d)%Z -> (0 <= Renderer.WIDTH d)%Z ->
  valid_color (Renderer.FLOOR_COLOR d) -> valid_color (Renderer.CEILING_COLOR d) ->
  exists backdrop walls,
    Renderer.render_3d_view self d rays = backdrop ++ walls /\
    List.length backdrop = backdrop_calls self d /\
    Forall (fun cmd => valid_color (draw_color cmd)) backdrop /\
    Forall (strip_call d (IZR (Renderer.WIDTH d) / IZR (len rays))
              (min_strip_width self) (len rays)) walls /\
    List.length walls = List.length (visible rays).
Proof.
  intros Hh Hw Hfloor Hceil.
  set (sw := IZR (Renderer.WIDTH d) / IZR (len rays)).
  assert (Hsw : rays <> [] -> 0 <= sw)
    by (intros Hne; apply strip_width_nonneg; assumption).
  destruct self; simpl.
  - (* fast *)
    destruct (fast_grouping_keeps_strips_aux d rays) as [walls [Hview [Hperm Hlen]]].
    eexists [_; _], walls. split; [exact Hview|]. split; [reflexivity|].
    split; [repeat constructor; assumption|]. split; [|exact Hlen].
    apply (Permutation_Forall (Permutation_sym Hperm)).
    unfold fast_strips. fold sw. apply Forall_map.
    apply indexed_strips_Forall. intros k ray [c r] Hk Hstrip.
    assert (Hne : rays <> []) by (intros ->; destruct k; discriminate Hk).
    pose proof (nth_error_index_bound rays k ray Hk) as Hidx.
    destruct (fast_strip_valid d Hh sw (0 + Z.of_nat k)%Z ray c r (Hsw Hne) ltac:(lia) Hstrip)
      as [Hc [Hr [Hleft Hwidth]]].
    exists c, r, (0 + Z.of_nat k)%Z.
      split; [reflexivity|]. split; [exact Hc|]. split; [exact Hr|].
      split; [exact Hidx|]. split; assumption.
  - (* quality *)
    unfold Renderer.QualityRenderer_render_3d_view.
    set (h := (Renderer.HEIGHT d / 2)%Z).
    exists (map (Renderer.sky_line d) (range h) ++ map (Renderer.floor_line d) (range h)),
           (Renderer.quality_loop d sw 0 rays).
    split; [destruct rays; [rewrite app_nil_r; reflexivity
                           | rewrite <- app_assoc; reflexivity]|].
    split; [rewrite length_app, !length_map, !range_length; reflexivity|].
    split.
    { apply Forall_app. split; apply Forall_map, Forall_forall; intros y Hy.
      - apply sky_line_valid. apply range_In. exact Hy.
      - apply floor_line_valid. }
    rewrite quality_loop_indexed. split.
    + apply indexed_strips_Forall. intros k ray cmd Hk Hstrip.
      assert (Hne : rays <> []) by (intros ->; destruct k; discriminate Hk).
      pose proof (nth_error_index_bound rays k ray Hk) as Hidx.
      destruct (quality_strip_valid d Hh sw (0 + Z.of_nat k)%Z ray cmd (Hsw Hne) ltac:(lia) Hstrip)
        as [c [r [-> [Hc [Hr [Hleft Hwidth]]]]]].
      exists c, r, (0 + Z.of_nat k)%Z.
      split; [reflexivity|]. split; [exact Hc|]. split; [exact Hr|].
      split; [exact Hidx|]. split; assumption.
    + apply indexed_strips_length. intros i ray. apply quality_strip_skips.
  - (* simple *)
    unfold Renderer.SimpleRenderer_render_3d_view.
    eexists [_; _], (Renderer.simple_loop (Renderer.WIDTH d) (Renderer.HEIGHT d) sw 0 rays).
    split; [destruct rays; reflexivity|]. split; [reflexivity|].
    split; [repeat constructor; simpl; lia|].
    rewrite simple_loop_indexed. split.
    + apply indexed_strips_Forall. intros k ray cmd Hk Hstrip.
      assert (Hne : rays <> []) by (intros ->; destruct k; discriminate Hk).
      pose proof (nth_error_index_bound rays k ray Hk) as Hidx.
      destruct (simple_strip_valid d Hh sw (0 + Z.of_nat k)%Z ray cmd (Hsw Hne) ltac:(lia) Hstrip)
        as [c [r [-> [Hc [Hr [Hleft Hwidth]]]]]].
      exists c, r, (0 + Z.of_nat k)%Z.
      split; [reflexivity|]. split; [exact Hc|]. split; [exact Hr|].
      split; [exact Hidx|]. split; assumption.
    + apply indexed_strips_length. intros i ray. apply simple_strip_skips.
Qed.

Lemma strip_calls_rects (d : Renderer.display) (sw : R) (m n : Z)
    (P : Renderer.Rect -> Prop) (walls : list Renderer.draw_call) :
  (forall c r, strip_call d sw m n (Renderer.draw_rect c r) -> P r) ->
  Forall (strip_call d sw m n) walls ->
  Forall (fun cmd => valid_color (draw_color cmd)) walls /\
  Forall P (wall_rects 0 walls) /\
  List.length (wall_rects 0 walls) = List.length walls.
Proof.
  intros HP Hall. unfold wall_rects. simpl.
  induction Hall as [|cmd rest Hcmd _ IH]; simpl.
  - repeat split; constructor.
  - destruct IH as [Hc [Hr Hl]].
    pose proof Hcmd as Hcmd'.
    destruct Hcmd as [c [r [i [-> [Hvc _]]]]]. simpl.
    split; [constructor; assumption|].
    split; [constructor; [apply (HP c r Hcmd') | exact Hr] | rewrite Hl; reflexivity].
Qed.

Lemma wall_rects_backdrop (backdrop walls : list Renderer.draw_call) :
  wall_rects (List.length backdrop) (backdrop ++ walls) = wall_rects 0 walls.
Proof.
  unfold wall_rects. rewrite skipn_app, skipn_all, Nat.sub_diag. reflexivity.
Qed.

(** X24. Whatever the rays, each of the three renderers passes only valid
    colours to [pygame] (every component from 0 to 255, also for a hit
    point with negative coordinates), and draws one wall rectangle for each
    ray with a positive distance and none for the others; every wall
    rectangle is at least one pixel high and lies between the top and the
    bottom of the screen. *)
Theorem render_calls_valid (self : Renderer.renderer) (d : Renderer.display)
    (rays : list Raycaster.ray) :
  (1 <= Renderer.HEIGHT d)%Z -> (0 <= Renderer.WIDTH d)%Z ->
  valid_color (Renderer.FLOOR_COLOR d) -> valid_color (Renderer.CEILING_COLOR d) ->
  let calls := Renderer.render_3d_view self d rays in
  Forall (fun cmd => valid_color (draw_color cmd)) calls /\
  Forall (within_rows d) (wall_rects (backdrop_calls self d) calls) /\
  List.length (wall_rects (backdrop_calls self d) calls) = List.length (visible rays).
Proof.
  intros Hh Hw Hfloor Hceil calls.
  destruct (render_walls self d rays Hh Hw Hfloor Hceil)
    as [backdrop [walls [Hview [Hlen [Hback [Hwalls Hcount]]]]]].
  subst calls. rewrite Hview, <- Hlen, wall_rects_backdrop.
  destruct (strip_calls_rects d (IZR (Renderer.WIDTH d) / IZR (len rays))
              (min_strip_width self) (len rays) (within_rows d) walls)
    as [Hc [Hr Hl]]; [|exact Hwalls|].
  - intros c r [c' [r' [i [Heq [_ [Hrows _]]]]]].
    injection Heq as -> ->. exact Hrows.
  - split; [apply Forall_app; split; assumption|].
    split; [exact Hr | rewrite Hl; exact Hcount].
Qed.

Lemma display_init_valid :
  (1 <= Renderer.HEIGHT Renderer.display_init)%Z /\
  (0 <= Renderer.WIDTH Renderer.display_init)%Z /\
  valid_color (Renderer.FLOOR_COLOR Renderer.display_init) /\
  valid_color (Renderer.CEILING_COLOR Renderer.display_init).
Proof. simpl. lia. Qed.

Lemma render_calls_valid_witness :
  let calls := Renderer.render_3d_view Renderer.QualityRenderer
                 Renderer.display_init demo_rays in
  Forall (fun cmd => valid_color (draw_color cmd)) calls /\
  Forall (within_rows Renderer.display_init)
    (wall_rects (backdrop_calls Renderer.QualityRenderer Renderer.display_init) calls) /\
  List.length
    (wall_rects (backdrop_calls Renderer.QualityRenderer Renderer.display_init) calls)
  = List.length (visible demo_rays).
Proof.
  apply (render_calls_valid Renderer.QualityRenderer Renderer.display_init demo_rays);
    apply display_init_valid.
Defined.

Lemma strip_fits (W n m i : Z) :
  (0 <= i < n)%Z -> (0 <= m)%Z -> (m * n <= W)%Z ->
  let sw := IZR W / IZR n in
  (int (IZR i * sw) + Z.max m (int sw) <= W /\ m <= Z.max m (int sw))%Z.
Proof.
  intros Hi Hm Hmn sw.
  assert (Hn : 0 < IZR n) by (apply (IZR_lt 0); lia).
  assert (Hi0 : 0 <= IZR i) by (apply (IZR_le 0); lia).
  assert (Hi1 : IZR i + 1 <= IZR n).
  { change 1 with (IZR 1). rewrite <- plus_IZR. apply IZR_le. lia. }
  assert (Hnsw : IZR n * sw = IZR W) by (unfold sw; field; lra).
  assert (Hmsw : IZR m <= sw).
  { apply (Rmult_le_reg_l (IZR n)); [exact Hn|]. rewrite Hnsw.
    rewrite <- mult_IZR. apply IZR_le. lia. }
  assert (Hm0 : 0 <= IZR m) by (apply (IZR_le 0); exact Hm).
  assert (Hint : (m <= int sw)%Z).
  { rewrite <- (int_IZR m). apply int_mono. exact Hmsw. }
  split; [|lia].
  replace (Z.max m (int sw)) with (int sw) by lia.
  apply le_IZR. rewrite plus_IZR.
  destruct (int_spec sw) as [[_ [Hs _]]|[Hneg _]]; [|lra].
  destruct (int_spec (IZR i * sw)) as [[_ [Hl _]]|[Hneg _]]; [|nra].
  nra.
Qed.

(** X25. When the screen is at least as many pixels wide as there are rays
    (twice as many for the fast renderer, whose strips are at least two
    pixels wide), every wall rectangle starts on the screen and ends at or
    before its right edge. *)
Theorem strips_fit_width (self : Renderer.renderer) (d : Renderer.display)
    (rays : list Raycaster.ray) :
  (1 <= Renderer.HEIGHT d)%Z ->
  valid_color (Renderer.FLOOR_COLOR d) -> valid_color (Renderer.CEILING_COLOR d) ->
  (min_strip_width self * len rays <= Renderer.WIDTH d)%Z ->
  Forall (fun r =>
            (0 <= Renderer.rect_left r /\
             min_strip_width self <= Renderer.rect_width r /\
             Renderer.rect_left r + Renderer.rect_width r <= Renderer.WIDTH d)%Z)
    (wall_rects (backdrop_calls self d) (Renderer.render_3d_view self d rays)).
Proof.
  intros Hh Hfloor Hceil Hfit.
  assert (Hw : (0 <= Renderer.WIDTH d)%Z).
  { assert (0 <= len rays)%Z by (unfold len; lia).
    assert (1 <= min_strip_width self)%Z by (destruct self; simpl; lia). nia. }
  destruct (render_walls self d rays Hh Hw Hfloor Hceil)
    as [backdrop [walls [Hview [Hlen [_ [Hwalls _]]]]]].
  rewrite Hview, <- Hlen, wall_rects_backdrop.
  refine (proj1 (proj2 (strip_calls_rects d _ _ _ _ walls _ Hwalls))).
  intros c r [c' [r' [i [Heq [_ [Hrows [Hi [Hleft Hwidth]]]]]]]].
  injection Heq as -> ->.
  assert (Hm : (0 <= min_strip_width self)%Z) by (destruct self; simpl; lia).
  destruct (strip_fits (Renderer.WIDTH d) (len rays) (min_strip_width self) i
              Hi Hm Hfit) as [Hsum Hmin].
  rewrite Hleft, Hwidth. destruct Hrows as [Hl0 _]. rewrite Hleft in Hl0.
  split; [exact Hl0|]. split; [exact Hmin | exact Hsum].
Qed.

Lemma strips_fit_width_witness :
  Forall (fun r =>
            (0 <= Renderer.rect_left r /\
             2 <= Renderer.rect_width r /\
             Renderer.rect_left r + Renderer.rect_width r <= 800)%Z)
    (wall_rects 2 (Renderer.render_3d_view Renderer.FastRenderer
                     Renderer.display_init demo_rays)).
Proof.
  apply (strips_fit_width Renderer.FastRenderer Renderer.display_init demo_rays).
  - simpl. lia.
  - simpl. lia.
  - simpl. lia.
  - unfold len. simpl. lia.
Defined.

(** X26. In the fast renderer a nearer wall is drawn at least as tall and
    at least as bright as a farther one, and a wall at most one cell away
    fills the whole height of the screen. *)
Theorem nearer_walls_taller (d : Renderer.display) (sw sw' : R) (i j : Z)
    (near far : Raycaster.ray) (c1 c2 : Renderer.color) (r1 r2 : Renderer.Rect) :
  (1 <= Renderer.HEIGHT d)%Z ->
  Raycaster.distance near <= Raycaster.distance far ->
  Renderer.fast_strip d sw i near = Some (c1, r1) ->
  Renderer.fast_strip d sw' j far = Some (c2, r2) ->
  (Renderer.rect_height r2 <= Renderer.rect_height r1)%Z /\
  (fst (fst c2) <= fst (fst c1))%Z /\
  (Raycaster.distance near <= 1 ->
   Renderer.rect_height r1 = Renderer.HEIGHT d /\ Renderer.rect_top r1 = 0%Z).
Proof.
  intros Hh Hle. unfold Renderer.fast_strip.
  destruct (Rle_dec (Raycaster.distance near) 0) as [|Hn]; [discriminate|].
  destruct (Rle_dec (Raycaster.distance far) 0) as [|Hf]; [discriminate|].
  set (dn := Raycaster.distance near) in *. set (df := Raycaster.distance far) in *.
  assert (Hdn : 0 < dn) by lra. assert (Hdf : 0 < df) by lra.
  assert (HH : 1 <= IZR (Renderer.HEIGHT d)) by (apply (IZR_le 1); exact Hh).
  assert (Hq : (int (IZR (Renderer.HEIGHT d) / df) <= int (IZR (Renderer.HEIGHT d) / dn))%Z).
  { apply int_mono. unfold Rdiv. apply Rmult_le_compat_l; [lra|].
    apply Rinv_le_contravar; assumption. }
  assert (Hb : (int (dn * 25) <= int (df * 25))%Z) by (apply int_mono; lra).
  assert (Hfull : dn <= 1 ->
            (Renderer.HEIGHT d <= int (IZR (Renderer.HEIGHT d) / dn))%Z).
  { intros H1. rewrite <- (int_IZR (Renderer.HEIGHT d)) at 1. apply int_mono.
    apply (Rmult_le_reg_r dn); [exact Hdn|].
    unfold Rdiv. rewrite Rmult_assoc, Rinv_l by lra. nra. }
  assert (HB : (Z.max 30 (255 - int (df * 25)) <= Z.max 30 (255 - int (dn * 25)))%Z)
    by lia.
  assert (HT : (Z.min (Renderer.HEIGHT d) (Z.max 1 (int (IZR (Renderer.HEIGHT d) / df)))
                <= Z.min (Renderer.HEIGHT d)
                     (Z.max 1 (int (IZR (Renderer.HEIGHT d) / dn))))%Z) by lia.
  assert (HF : dn <= 1 ->
            Z.min (Renderer.HEIGHT d) (Z.max 1 (int (IZR (Renderer.HEIGHT d) / dn)))
            = Renderer.HEIGHT d)
    by (intros H1; specialize (Hfull H1); lia).
  cbv zeta.
  remember (Z.max 30 (255 - int (dn * 25))) as Bn.
  remember (Z.max 30 (255 - int (df * 25))) as Bf.
  remember (Z.min (Renderer.HEIGHT d)
              (Z.max 1 (int (IZR (Renderer.HEIGHT d) / dn)))) as Tn.
  remember (Z.min (Renderer.HEIGHT d)
              (Z.max 1 (int (IZR (Renderer.HEIGHT d) / df)))) as Tf.
  intros H1 H2. inversion H1; subst c1 r1; clear H1.
  inversion H2; subst c2 r2; clear H2.
  cbn [fst snd Renderer.rect_height Renderer.rect_top].
  split; [exact HT|]. split; [exact HB|].
  intros Hnear. rewrite (HF Hnear). split; [reflexivity|].
  rewrite Z.sub_diag. reflexivity.
Qed.

Lemma near_ray_strip :
  Renderer.fast_strip Renderer.display_init 5 0 near_ray =
    Some ((243, 121, 60)%Z, Renderer.mk_rect 0 0 5 600).
Proof.
  unfold Renderer.fast_strip.
  change (Raycaster.distance near_ray) with 0.5.
  change (Renderer.HEIGHT Renderer.display_init) with 600%Z.
  destruct (Rle_dec 0.5 0) as [H|_]; [lra|].
  int_is (600 / 0.5) 1200%Z. int_is (0.5 * 25) 12%Z.
  int_is (0 * 5) 0%Z. int_is 5 5%Z. reflexivity.
Qed.

Lemma far_ray_strip :
  Renderer.fast_strip Renderer.display_init 5 1 far_ray =
    Some ((193, 96, 48)%Z, Renderer.mk_rect 5 180 5 240).
Proof.
  unfold Renderer.fast_strip.
  change (Raycaster.distance far_ray) with 2.5.
  change (Renderer.HEIGHT Renderer.display_init) with 600%Z.
  destruct (Rle_dec 2.5 0) as [H|_]; [lra|].
  int_is (600 / 2.5) 240%Z. int_is (2.5 * 25) 62%Z.
  int_is (1 * 5) 5%Z. int_is 5 5%Z. reflexivity.
Qed.

Lemma nearer_walls_taller_witness :
  (240 <= 600)%Z /\ (193 <= 243)%Z /\
  (0.5 <= 1 -> 600%Z = Renderer.HEIGHT Renderer.display_init /\ 0%Z = 0%Z).
Proof.
  apply (nearer_walls_taller Renderer.display_init 5 5 0 1 near_ray far_ray
           _ _ _ _ ltac:(simpl; lia) ltac:(simpl; lra) near_ray_strip far_ray_strip).
Defined.

(** ** The game object: events *)

Section AppFacts.

Variable MAZE_DATA : Difficulty -> list (list Z).
Variable SPAWN_POINTS : Difficulty -> R * R.

Abbreviation handle_event := (App.handle_event MAZE_DATA SPAWN_POINTS).
Abbreviation handle_events := (App.handle_events MAZE_DATA SPAWN_POINTS).
Abbreviation start_level := (App.start_level MAZE_DATA SPAWN_POINTS).

Lemma start_level_keeps (a a' : App.t) (d : Difficulty) :
  start_level a d = App.Done a' ->
  App.running a' = App.running a /\
  App.selected_option a' = App.selected_option a /\
  App.settings a' = App.settings a /\
  App.display a' = App.display a /\
  App.renderer a' = App.renderer a /\
  App.state a' = Game.PLAYING /\
  App.current_difficulty a' = Some d.
Proof.
  unfold App.start_level.
  destruct (Maze.init _ _) as [m|e]; [|discriminate].
  destruct (Raycaster.init _ _ _) as [rc|e]; [|discriminate].
  intros H. injection H as <-. simpl. repeat split; reflexivity.
Qed.

(** What one event leaves alone. *)
Lemma handle_event_keeps (a a' : App.t) (event : App.pygame_event) :
  handle_event a event = App.Done a' ->
  (App.running a' = true -> App.running a = true) /\
  App.settings a' = App.settings a /\
  App.display a' = App.display a /\
  App.renderer a' = App.renderer a /\
  ((0 <= App.selected_option a < 4)%Z -> (0 <= App.selected_option a' < 4)%Z) /\
  (App.state a <> Game.MENU ->
   App.objects a' = App.objects a /\
   App.current_difficulty a' = App.current_difficulty a /\
   App.selected_option a' = App.selected_option a).
Proof.
  destruct event as [|key|]; simpl.
  - intros H. injection H as <-. simpl.
    repeat split; try reflexivity; try tauto; intros H; discriminate H.
  - destruct (App.state a) eqn:Hst.
    + unfold App._handle_menu_input.
      destruct key; simpl;
        try (intros H; injection H as <-; simpl;
             repeat split; try reflexivity; try tauto; try congruence;
             intros; apply Z.mod_pos_bound; lia).
      all: destruct (App.selected_option a =? 0)%Z;
           [intros H; apply start_level_keeps in H;
            destruct H as [-> [-> [-> [-> [-> _]]]]];
            repeat split; try reflexivity; try tauto; congruence|];
           destruct (App.selected_option a =? 1)%Z;
           [intros H; apply start_level_keeps in H;
            destruct H as [-> [-> [-> [-> [-> _]]]]];
            repeat split; try reflexivity; try tauto; congruence|];
           destruct (App.selected_option a =? 2)%Z;
           [intros H; apply start_level_keeps in H;
            destruct H as [-> [-> [-> [-> [-> _]]]]];
            repeat split; try reflexivity; try tauto; congruence|];
           destruct (App.selected_option a =? 3)%Z;
           intros H; injection H as <-; simpl;
           repeat split; try reflexivity; try tauto; try congruence;
           intros H; discriminate H.
    + intros H. injection H as <-. unfold App._handle_game_input.
      destruct key; simpl; repeat split; try reflexivity; tauto.
    + intros H. injection H as <-. unfold App._handle_pause_input.
      destruct key; simpl; repeat split; try reflexivity; tauto.
    + intros H. injection H as <-. unfold App._handle_completion_input.
      destruct key; simpl; repeat split; try reflexivity; tauto.
  - intros H. injection H as <-. repeat split; try reflexivity; tauto.
Qed.

Lemma handle_events_keeps (events : list App.pygame_event) :
  forall a a',
    handle_events a events = App.Done a' ->
    (App.running a' = true -> App.running a = true) /\
    App.settings a' = App.settings a /\
    App.display a' = App.display a /\
    App.renderer a' = App.renderer a /\
    ((0 <= App.selected_option a < 4)%Z -> (0 <= App.selected_option a' < 4)%Z).
Proof.
  induction events as [|event rest IH]; intros a a'; simpl.
  - intros H. injection H as <-. repeat split; try reflexivity; tauto.
  - destruct (handle_event a event) as [a1|c] eqn:E; [|discriminate].
    intros H. apply IH in H.
    apply handle_event_keeps in E.
    destruct H as [Hr [Hs [Hd [Hre Hsel]]]].
    destruct E as [Hr1 [Hs1 [Hd1 [Hre1 [Hsel1 _]]]]].
    repeat split; try congruence; tauto.
Qed.

(** X27. In the menu with the selection on one of the four options, Up then
    Down, and Down then Up, restore the game object, four Downs cycle back
    to the same option, and no batch of events of any kind can take the
    selection outside 0..3, change the settings or the renderer, or turn
    [running] back on once it is off. *)
Theorem menu_selection_cycles (a : App.t) :
  (0 <= App.selected_option a < 4)%Z ->
  (App.state a = Game.MENU ->
   handle_events a [App.KEYDOWN App.K_UP; App.KEYDOWN App.K_DOWN] = App.Done a /\
   handle_events a [App.KEYDOWN App.K_DOWN; App.KEYDOWN App.K_UP] = App.Done a /\
   handle_events a [App.KEYDOWN App.K_DOWN; App.KEYDOWN App.K_DOWN;
                    App.KEYDOWN App.K_DOWN; App.KEYDOWN App.K_DOWN] = App.Done a) /\
  (forall events a',
     handle_events a events = App.Done a' ->
     (0 <= App.selected_option a' < 4)%Z /\
     (App.running a' = true -> App.running a = true) /\
     App.settings a' = App.settings a /\
     App.renderer a' = App.renderer a).
Proof.
  intros Hsel. split.
  - intros Hst. destruct a as [run st sel diff set disp obj ren ctx].
    simpl in Hsel, Hst. subst st.
    assert (Hcases : (sel = 0 \/ sel = 1 \/ sel = 2 \/ sel = 3)%Z) by lia.
    destruct Hcases as [->|[->|[->| ->]]]; repeat split; reflexivity.
  - intros events a' H. apply handle_events_keeps in H.
    destruct H as [Hr [Hs [_ [Hre Hin]]]].
    split; [apply Hin; exact Hsel|]. split; [exact Hr|]. split; assumption.
Qed.

(** X28. Pausing and resuming is a round trip: in play, Space twice gives
    back the same game object, and while paused, in the menu or on the
    completion screen [update] changes nothing.  Escape leads from play
    and from pause to the menu, and outside the menu no event touches the
    level objects, the difficulty or the selection. *)
Theorem pause_resume (a : App.t) (keys : Keys) (dt : R) :
  (App.state a = Game.PLAYING ->
   handle_events a [App.KEYDOWN App.K_SPACE; App.KEYDOWN App.K_SPACE] = App.Done a /\
   handle_event a (App.KEYDOWN App.K_SPACE) = App.Done (App.with_state a Game.PAUSED)) /\
  (App.state a <> Game.PLAYING -> App.update a keys dt = App.Done a) /\
  (App.state a = Game.PLAYING \/ App.state a = Game.PAUSED ->
   handle_event a (App.KEYDOWN App.K_ESCAPE) = App.Done (App.with_state a Game.MENU)) /\
  (App.state a <> Game.MENU ->
   forall event a', handle_event a event = App.Done a' ->
     App.objects a' = App.objects a /\
     App.current_difficulty a' = App.current_difficulty a /\
     App.selected_option a' = App.selected_option a).
Proof.
  split; [|split; [|split]].
  - intros Hst. destruct a as [run st sel diff set disp obj ren ctx].
    simpl in Hst. subst st. split; reflexivity.
  - intros Hst. unfold App.update.
    destruct (App.state a); try reflexivity. contradiction Hst. reflexivity.
  - intros [Hst|Hst]; simpl; rewrite Hst; reflexivity.
  - intros Hst event a' H.
    apply handle_event_keeps in H. destruct H as [_ [_ [_ [_ [_ H]]]]].
    apply H. exact Hst.
Qed.

(** X29. [start_level] on a table entry with at least one row, all rows as
    long as the first, and a ray count other than 0 puts the game in play:
    the maze is rectangular and holds the entry, the player stands on the
    entry's spawn point facing angle 0, the raycaster holds half the field
    of view, the strategy is the one of the difficulty, and the selection,
    the settings and [running] are as before.  On an empty entry it ends
    the program with [IndexError]. *)
Theorem start_level_spec (a : App.t) (d : Difficulty) :
  (MAZE_DATA d = [] -> start_level a d = App.Crashed (App.PyExn IndexError)) /\
  (forall row0 rest,
     MAZE_DATA d = row0 :: rest ->
     Forall (fun row => len row = len row0) (MAZE_DATA d) ->
     GameSettings.NUM_RAYS (App.settings a) <> 0%Z ->
     exists a' l,
       start_level a d = App.Done a' /\
       App.objects a' = Some l /\
       App.state a' = Game.PLAYING /\
       App.current_difficulty a' = Some d /\
       Maze.rectangular (App.maze l) /\
       Maze.maze_data (App.maze l) = MAZE_DATA d /\
       App.player l = Player.init (fst (SPAWN_POINTS d)) (snd (SPAWN_POINTS d)) 0 /\
       fov_in_step (App.raycaster_of a' l) /\
       (App.movement_context a <> None ->
        App.movement_context a' =
          Some (MovementStrategyFactory.create_for_difficulty d)) /\
       App.running a' = App.running a /\
       App.selected_option a' = App.selected_option a /\
       App.settings a' = App.settings a).
Proof.
  split.
  - intros Hempty. unfold App.start_level. rewrite Hempty. reflexivity.
  - intros row0 rest Hdata Hall Hn. unfold App.start_level.
    rewrite Hdata in *. simpl.
    unfold Raycaster.init, Raycaster._update_settings. simpl.
    rewrite truediv_nonzero by (apply not_0_IZR; exact Hn). simpl.
    eexists _, _. split; [reflexivity|]. simpl.
    split; [reflexivity|]. split; [reflexivity|]. split; [reflexivity|].
    split; [split; [reflexivity | exact Hall]|].
    split; [reflexivity|]. split; [reflexivity|].
    split; [reflexivity|].
    split; [destruct (App.movement_context a); [reflexivity | intros H; contradiction H; reflexivity]|].
    repeat split; reflexivity.
Qed.

End AppFacts.

Lemma menu_selection_cycles_witness :
  App.handle_events demo_maze_data demo_spawn_points demo_app
    [App.KEYDOWN App.K_UP; App.KEYDOWN App.K_DOWN] = App.Done demo_app.
Proof.
  apply (menu_selection_cycles demo_maze_data demo_spawn_points demo_app).
  - simpl. lia.
  - reflexivity.
Defined.

Lemma pause_resume_witness :
  App.handle_events demo_maze_data demo_spawn_points demo_app_playing
    [App.KEYDOWN App.K_SPACE; App.KEYDOWN App.K_SPACE] = App.Done demo_app_playing.
Proof.
  apply (pause_resume demo_maze_data demo_spawn_points demo_app_playing
           diagonal_keys 0.1).
  reflexivity.
Defined.

Lemma start_level_spec_witness :
  exists a' l,
    App.start_level demo_maze_data demo_spawn_points demo_app HARD = App.Done a' /\
    App.objects a' = Some l /\
    App.state a' = Game.PLAYING /\
    App.current_difficulty a' = Some HARD /\
    Maze.rectangular (App.maze l) /\
    Maze.maze_data (App.maze l) = demo_grid /\
    App.player l = Player.init 1.5 1.5 0 /\
    fov_in_step (App.raycaster_of a' l) /\
    (App.movement_context demo_app <> None ->
     App.movement_context a' =
       Some (MovementStrategyFactory.create_for_difficulty HARD)) /\
    App.running a' = App.running demo_app /\
    App.selected_option a' = App.selected_option demo_app /\
    App.settings a' = App.settings demo_app.
Proof.
  apply (proj2 (start_level_spec demo_maze_data demo_spawn_points demo_app HARD)
           [1; 1; 1; 1; 1]%Z
           [ [1; 0; 0; 0; 1]; [1; 0; 9; 0; 1]; [1; 1; 1; 1; 1] ]%Z).
  - reflexivity.
  - repeat constructor.
  - simpl. lia.
Defined.

(** ** The game object: frames *)






Lemma adapt_performance_invariants_witness :
  (0 < GameSettings.NUM_RAYS (snd (GameSettings.adapt_performance GameSettings.init 25)))%Z.
Proof.
  apply (adapt_performance_invariants GameSettings.init 25).
  simpl. lia.
Defined.
